(** * ProverbsApp: a shallow embedding of [ProverbsApp.py]

    The development follows the layout of the program: Python strings
    ([PyStr]), the corpus loader ([Corpus]), the box renderer ([Render]),
    the chat client with its cached context ([Chat]) and the interactive
    loops ([Session]).  The definitions come first, the facts about them
    after. *)

From Stdlib Require Import ZArith NArith QArith List String Ascii Bool Lia
  DecimalString.
Import ListNotations.

Set Implicit Arguments.

(** ** Python strings *)

Module PyStr.

(** A Python [str] is a sequence of Unicode code points; [len] counts code
    points. *)
Definition char := N.
Definition str := list char.

(** ASCII literals of the source.  Characters outside ASCII are written
    as code points. *)
Definition lit (s : string) : str :=
  List.map N_of_ascii (list_ascii_of_string s).

Definition len (s : str) : Z := Z.of_nat (List.length s).

Local Open Scope Z_scope.

Definition ch_eqb (a b : char) : bool := N.eqb a b.

Fixpoint str_eqb (a b : str) : bool :=
  match a, b with
  | [], [] => true
  | x :: a', y :: b' => ch_eqb x y && str_eqb a' b'
  | _, _ => false
  end.

(** [str.isspace] on one character, which is also the class [\s] of [re]
    for [str] patterns (both go through [Py_UNICODE_ISSPACE]). *)
Definition isspace (c : char) : bool :=
  (((9 <=? c) && (c <=? 13)) || ((28 <=? c) && (c <=? 32))
   || (c =? 133) || (c =? 160) || (c =? 5760)
   || ((8192 <=? c) && (c <=? 8202))
   || (c =? 8232) || (c =? 8233) || (c =? 8239) || (c =? 8287)
   || (c =? 12288))%N.

Fixpoint lstrip (s : str) : str :=
  match s with
  | [] => []
  | c :: r => if isspace c then lstrip r else s
  end.

Definition rstrip (s : str) : str := rev (lstrip (rev s)).

(** [s.strip()] *)
Definition strip (s : str) : str := rstrip (lstrip s).

(** [str(n)] for an [int] [n]. *)
Definition str_of_int (n : Z) : str :=
  lit (NilZero.string_of_int (Z.to_int n)).

(** Truth value of a string: [not s] holds of the empty string only. *)
Definition truthy (s : str) : bool :=
  match s with [] => false | _ => true end.

(** The longest prefix of characters satisfying [p], and the rest. *)
Fixpoint span (p : char -> bool) (s : str) : str * str :=
  match s with
  | [] => ([], [])
  | c :: r =>
      if p c then let (a, b) := span p r in (c :: a, b) else ([], s)
  end.

Fixpoint startswith (s pre : str) : bool :=
  match pre, s with
  | [], _ => true
  | p :: pre', c :: s' => ch_eqb c p && startswith s' pre'
  | _ :: _, [] => false
  end.

(** [str.lower] as far as the program observes it.  The program compares
    lowered input only against ASCII command words; beside the ASCII
    capitals, the only characters whose lower-case form contains an ASCII
    letter are U+212A (to k) and U+0130 (to i followed by U+0307), and no
    command word can be reached through them. *)
Definition ascii_lower (c : char) : char :=
  (if (65 <=? c) && (c <=? 90) then c + 32 else c)%N.

Definition ascii_upper (c : char) : char :=
  (if (97 <=? c) && (c <=? 122) then c - 32 else c)%N.

Definition lower (s : str) : str := List.map ascii_lower s.

(** [sep.join(parts)] *)
Fixpoint join (sep : str) (parts : list str) : str :=
  match parts with
  | [] => []
  | [p] => p
  | p :: rest => p ++ sep ++ join sep rest
  end.

(** [c * n] for an [int] [n]: empty when [n <= 0]. *)
Definition times (c : str) (n : Z) : str :=
  List.concat (List.repeat c (Z.to_nat n)).

Definition spaces (n : Z) : str := times [32%N] n.

(** [s.ljust(width)] *)
Definition ljust (s : str) (width : Z) : str :=
  s ++ spaces (width - len s).

(** [s.center(width)]: CPython puts
    [marg / 2 + (marg & width & 1)] spaces on the left. *)
Definition center (s : str) (width : Z) : str :=
  let marg := width - len s in
  if marg <=? 0 then s
  else
    let left := marg / 2 + Z.land (Z.land marg width) 1 in
    spaces left ++ s ++ spaces (marg - left).

(** [s[:n]] *)
Definition slice_to (s : str) (n : Z) : str :=
  if n <? 0 then firstn (Z.to_nat (len s + n)) s
  else firstn (Z.to_nat n) s.

(** Line boundaries of [str.splitlines]. *)
Definition islinebreak (c : char) : bool :=
  (((10 <=? c) && (c <=? 13)) || ((28 <=? c) && (c <=? 30))
   || (c =? 133) || (c =? 8232) || (c =? 8233))%N.

(** [s.splitlines()]: the pieces between line boundaries, CR LF counting
    as one boundary, without a last empty piece. *)
Fixpoint splitlines_from (cur : str) (s : str) : list str :=
  match s with
  | [] => match cur with [] => [] | _ => [rev cur] end
  | c :: r =>
      if islinebreak c then
        match r with
        | d :: r' =>
            if ((c =? 13) && (d =? 10))%N
            then rev cur :: splitlines_from [] r'
            else rev cur :: splitlines_from [] r
        | [] => [rev cur]
        end
      else splitlines_from (c :: cur) r
  end.

Definition splitlines (s : str) : list str := splitlines_from [] s.

End PyStr.

(** ** Exceptions *)

Module Exc.
Import PyStr.

(** The exception classes the program meets.  [KeyboardInterrupt] and
    [SystemExit] derive from [BaseException] only: [except Exception]
    does not catch them. *)
Inductive cls :=
| KeyboardInterrupt | SystemExit | EOFError
| FileNotFoundError | ValueError | OSError | UnicodeDecodeError
| OverflowError | KeyError | IndexError | TypeError | AttributeError
| OtherException.

(** An exception object: its class and [str(e)]. *)
Record exn := Exn { exn_cls : cls; exn_msg : str }.

Definition is_Exception (e : exn) : bool :=
  match exn_cls e with
  | KeyboardInterrupt | SystemExit => false
  | _ => true
  end.

Definition is_KeyboardInterrupt (e : exn) : bool :=
  match exn_cls e with KeyboardInterrupt => true | _ => false end.

(** The outcome of a call: a value or a raised exception. *)
Inductive result (A : Type) :=
| Ok (a : A)
| Raise (e : exn).
Arguments Ok {A} a.
Arguments Raise {A} e.

End Exc.

(** ** CorpusStore: [REF_RE] and [load_verses] *)

Module Corpus.
Import PyStr Exc.
Local Open Scope Z_scope.

(** The class [\d] of [re] on [str] patterns is the Unicode category Nd
    of the interpreter's character database, which changes from one
    Python version to the next: it is an interface here. *)
Class UnicodeData := { isdecimal : char -> bool }.

(** What every version of the database satisfies and the matcher below
    relies on: a decimal digit is neither white space nor the colon. *)
Definition digits_sane (U : UnicodeData) : Prop :=
  (forall c, isdecimal c = true -> isspace c = false)
  /\ isdecimal 58%N = false.

(** The ASCII part of the database, on which all versions agree. *)
Definition ascii_isdecimal (c : char) : bool :=
  ((48 <=? c) && (c <=? 57))%N.

Definition ascii_digits : UnicodeData := {| isdecimal := ascii_isdecimal |}.

(** One pattern letter under [re.IGNORECASE]: a subject character matches
    when its lower-case form is the lower-cased pattern letter; the
    letter s also matches U+017F (long s), its case-insensitive
    equivalent in [re]. *)
Definition ci_char (p c : char) : bool :=
  ch_eqb (ascii_lower c) (ascii_lower p)
  || (ch_eqb (ascii_lower p) 115%N && ch_eqb c 383%N).

(** A literal word under [re.IGNORECASE]: the matched text and the rest. *)
Fixpoint ci_literal (pat s : str) : option (str * str) :=
  match pat with
  | [] => Some ([], s)
  | p :: pat' =>
      match s with
      | [] => None
      | c :: s' =>
          if ci_char p c then
            match ci_literal pat' s' with
            | Some (m, r) => Some (c :: m, r)
            | None => None
            end
          else None
      end
  end.

(** The last group of the pattern, any characters up to the end, without
    [re.MULTILINE] or [re.DOTALL]: the dot stops at a newline, and the
    end is the end of the string or the place before a last newline. *)
Definition dot_star_end (s : str) : option str :=
  let (g, r) := span (fun c => negb (ch_eqb c 10%N)) s in
  match r with
  | [] => Some g
  | [_] => Some g
  | _ => None
  end.

Definition nonempty (s : str) : bool := truthy s.

Section Matcher.
Context {U : UnicodeData}.

(** [REF_RE.match(ln)], where [REF_RE] is compiled with [re.IGNORECASE]
    from: start of string, optional white space, group 1 (the word
    Proverbs, white space, digits, a colon, digits), white space, group 2
    (any characters), end of string.  The result is
    [Some (m.group(1), m.group(2))], or [None].  Each repetition is
    greedy; giving characters back never finds a match the greedy choice
    misses, as what follows a repetition starts with a character outside
    its class and the last group takes white space too. *)
Definition REF_RE_match (ln : str) : option (str * str) :=
  let s0 := lstrip ln in
  match ci_literal (lit "Proverbs") s0 with
  | None => None
  | Some (w, s1) =>
      let (ws1, s2) := span isspace s1 in
      let (d1, s3) := span isdecimal s2 in
      match s3 with
      | c :: s4 =>
          let (d2, s5) := span isdecimal s4 in
          let (ws2, s6) := span isspace s5 in
          if nonempty ws1 && nonempty d1 && ch_eqb c 58%N
             && nonempty d2 && nonempty ws2
          then
            match dot_star_end s6 with
            | Some body => Some (w ++ ws1 ++ d1 ++ [c] ++ d2, body)
            | None => None
            end
          else None
      | [] => None
      end
  end.

Definition verse : Type := str * str.

Definition PLACEHOLDER : str := lit "Proverbs ?".

(** The body of the loop of [load_verses] on one line that is not blank. *)
Definition parse_line (ln : str) : verse :=
  match REF_RE_match ln with
  | Some (ref, txt) => (ref, txt)
  | None => (PLACEHOLDER, ln)
  end.

(** [for ln in f: ...] *)
Fixpoint load_loop (lines : list str) (verses : list verse) : list verse :=
  match lines with
  | [] => verses
  | ln :: rest =>
      let ln := strip ln in
      if negb (truthy ln) then load_loop rest verses
      else load_loop rest (verses ++ [parse_line ln])
  end.

End Matcher.

(** The line format in words: optional white space, the word Proverbs in
    any case, white space, digits, a colon, digits, one or more
    white-space characters, and the text, which starts at the first
    character that is not white space.  [ref_line ln ref body] reads: the
    line [ln] has this format, with reference [ref] and text [body]. *)
Inductive ref_line {U : UnicodeData} : str -> str -> str -> Prop :=
| RefLine (ws0 w ws1 d1 d2 ws2 body : str) :
    forallb isspace ws0 = true ->
    Forall2 (fun p c => ci_char p c = true) (lit "Proverbs") w ->
    ws1 <> [] -> forallb isspace ws1 = true ->
    d1 <> [] -> forallb isdecimal d1 = true ->
    d2 <> [] -> forallb isdecimal d2 = true ->
    ws2 <> [] -> forallb isspace ws2 = true ->
    lstrip body = body ->
    ref_line (ws0 ++ w ++ ws1 ++ d1 ++ [58%N] ++ d2 ++ ws2 ++ body)
             (w ++ ws1 ++ d1 ++ [58%N] ++ d2) body.

(** *** The corpus file *)

(** Text decoding with universal newlines: CR LF and CR read as LF. *)
Fixpoint universal_newlines (s : str) : str :=
  match s with
  | [] => []
  | c :: r =>
      if ch_eqb c 13%N then
        match r with
        | d :: r' =>
            if ch_eqb d 10%N then 10%N :: universal_newlines r'
            else 10%N :: universal_newlines r
        | [] => [10%N]
        end
      else c :: universal_newlines r
  end.

(** Iterating over a text file: the lines, each with its newline, the
    last one possibly without. *)
Fixpoint file_lines (s : str) : list str :=
  match s with
  | [] => []
  | c :: r =>
      if ch_eqb c 10%N then [c] :: file_lines r
      else
        match file_lines r with
        | [] => [[c]]
        | l :: ls => (c :: l) :: ls
        end
  end.

(** What [path.exists()] and [path.open] find. *)
Inductive file_state :=
| Missing
| Unreadable (e : exn)
| Content (text : str).

Record path := Path { resolved : str; state : file_state }.

Definition not_found_msg (p : path) : str :=
  lit "Required file not found: '" ++ resolved p
  ++ lit "'. Create it first or place 'proverbs.txt' next to this script.".

Definition no_verses_msg (p : path) : str :=
  lit "No verses found in '" ++ resolved p ++ lit "'.".

Definition load_verses {U : UnicodeData} (p : path) : result (list verse) :=
  match state p with
  | Missing => Raise (Exn FileNotFoundError (not_found_msg p))
  | Unreadable e => Raise e
  | Content text =>
      let verses := load_loop (file_lines (universal_newlines text)) [] in
      match verses with
      | [] => Raise (Exn ValueError (no_verses_msg p))
      | _ => Ok verses
      end
  end.

(** A line is blank when [strip] leaves nothing of it. *)
Definition blank (ln : str) : bool := forallb isspace ln.

Definition nonblank_lines (text : str) : list str :=
  filter (fun ln => negb (blank ln)) (file_lines (universal_newlines text)).

End Corpus.

(** ** RenderEngine: [term_width] and [box_text] *)

Module Render.
Import PyStr.
Local Open Scope Z_scope.

Definition ESC : char := 27%N.

(** [RESET], [BOLD] and the table [FG] of colour escapes. *)
Definition RESET : str := ESC :: lit "[0m".
Definition BOLD : str := ESC :: lit "[1m".

Inductive color :=
| default | black | red | green | yellow | blue | magenta | cyan | white
| bright_black | bright_blue | bright_cyan | bright_magenta
| bright_yellow | bright_green | bright_white | bright_red.

Definition FG (c : color) : str :=
  ESC ::
  match c with
  | default => lit "[39m"
  | black => lit "[30m"
  | red => lit "[31m"
  | green => lit "[32m"
  | yellow => lit "[33m"
  | blue => lit "[34m"
  | magenta => lit "[35m"
  | cyan => lit "[36m"
  | white => lit "[97m"
  | bright_black => lit "[90m"
  | bright_blue => lit "[94m"
  | bright_cyan => lit "[96m"
  | bright_magenta => lit "[95m"
  | bright_yellow => lit "[93m"
  | bright_green => lit "[92m"
  | bright_white => lit "[97m"
  | bright_red => lit "[91m"
  end.

(** The table [BOX] of box-drawing characters. *)
Definition BOX_tl : str := [9581%N].
Definition BOX_tr : str := [9582%N].
Definition BOX_bl : str := [9584%N].
Definition BOX_br : str := [9583%N].
Definition BOX_h : str := [9472%N].
Definition BOX_v : str := [9474%N].

(** [term_width()]: the columns [shutil.get_terminal_size] reports, 80
    when the probe raises. *)
Definition term_width (probe : option Z) : Z :=
  match probe with
  | Some columns => columns
  | None => 80
  end.

(** [textwrap.fill(text, width=...)] of the Python library. *)
Class TextWrap := { fill : str -> Z -> str }.

(** [inner] of [box_text]. *)
Definition inner_width (w pad : Z) : Z :=
  Z.max 20 (Z.min (w - 2 - pad * 2) 120).

(** The clamp of the specification: [x] held between [lo] and [hi]. *)
Definition clamp (x lo hi : Z) : Z :=
  if x <? lo then lo else if hi <? x then hi else x.

Section Box.
Context {T : TextWrap}.

(** The list [lines] of [box_text], for the terminal width [w] that
    [term_width()] measured. *)
Definition box_lines (w : Z) (ref text : str) (pad : Z)
    (color_ref color_text : color) : list str :=
  let inner := inner_width w pad in
  let wrapped := fill text inner in
  let top := BOX_tl ++ times BOX_h (inner + pad * 2) ++ BOX_tr in
  let bot := BOX_bl ++ times BOX_h (inner + pad * 2) ++ BOX_br in
  let ref_clean := strip ref in
  let ref_line := center ref_clean (inner + pad * 2) in
  let sep := times [9472%N] (inner + pad * 2) in
  [top]
  ++ [BOX_v ++ spaces pad ++ BOLD ++ FG color_ref ++ ref_line ++ RESET
      ++ BOX_v]
  ++ [BOX_v ++ spaces pad ++ FG bright_black ++ sep ++ RESET ++ BOX_v]
  ++ List.map
       (fun ln =>
          let padded := ljust ln inner in
          BOX_v ++ spaces pad ++ FG color_text ++ padded ++ RESET
          ++ spaces pad ++ BOX_v)
       (splitlines wrapped)
  ++ [bot].

(** [box_text(ref, text, pad, color_ref, color_text)] *)
Definition box_text (w : Z) (ref text : str) (pad : Z)
    (color_ref color_text : color) : str :=
  join [10%N] (box_lines w ref text pad color_ref color_text).

End Box.

(** The defaults of [box_text]. *)
Definition default_pad : Z := 2.
Definition default_color_ref : color := bright_cyan.
Definition default_color_text : color := bright_white.

(** *** A wrapper to compute with

    [textwrap.fill] as it works on a text without hyphens, the hyphen
    being the one character at which the library breaks inside a word:
    tabs are expanded and white space becomes blanks, the text is cut
    into its runs of blanks and its runs of other characters, and the
    chunks are placed on lines as [TextWrapper._wrap_chunks] places
    them. *)

(** [str.expandtabs()], from column [col]. *)
Fixpoint expandtabs_from (col : Z) (s : str) : str :=
  match s with
  | [] => []
  | c :: r =>
      if ch_eqb c 9%N then
        let incr := 8 - col mod 8 in
        spaces incr ++ expandtabs_from (col + incr) r
      else if ch_eqb c 10%N || ch_eqb c 13%N then c :: expandtabs_from 0 r
      else c :: expandtabs_from (col + 1) r
  end.

(** The white space of [textwrap]: tab, newline, vertical tab, form feed,
    carriage return and blank. *)
Definition wrap_space (c : char) : bool :=
  (((9 <=? c) && (c <=? 13)) || (c =? 32))%N.

Definition munge_whitespace (text : str) : str :=
  List.map (fun c => if wrap_space c then 32%N else c)
           (expandtabs_from 0 text).

Definition is_blank (c : char) : bool := ch_eqb c 32%N.

(** The chunks: the maximal runs of blanks and of other characters. *)
Fixpoint chunks_of (s : str) : list str :=
  match s with
  | [] => []
  | c :: r =>
      match chunks_of r with
      | (d :: chunk) :: rest =>
          if Bool.eqb (is_blank c) (is_blank d)
          then (c :: d :: chunk) :: rest
          else [c] :: (d :: chunk) :: rest
      | _ => [[c]]
      end
  end.

(** The chunks that fit on the current line. *)
Fixpoint take_fitting (width cur_len : Z) (chunks : list str)
  : list str * Z * list str :=
  match chunks with
  | [] => ([], cur_len, [])
  | c :: r =>
      if cur_len + len c <=? width then
        let '(taken, l, rest) := take_fitting width (cur_len + len c) r in
        (c :: taken, l, rest)
      else ([], cur_len, chunks)
  end.

Definition blank_chunk (c : str) : bool := forallb is_blank c.

Definition drop_last_blank (line : list str) : list str :=
  match rev line with
  | c :: r => if blank_chunk c then rev r else line
  | [] => line
  end.

(** The loop of [_wrap_chunks]; [started] tells that a line was made. *)
Fixpoint wrap_chunks (fuel : nat) (width : Z) (started : bool)
    (chunks : list str) : list str :=
  match fuel, chunks with
  | S fuel', c0 :: r0 =>
      let chunks1 := if blank_chunk c0 && started then r0 else chunks in
      let '(cur, cur_len, rest) := take_fitting width 0 chunks1 in
      let '(cur2, rest2) :=
        match rest with
        | c :: r =>
            if len c >? width then
              let space_left := if width <? 1 then 1 else width - cur_len in
              (cur ++ [firstn (Z.to_nat space_left) c],
               skipn (Z.to_nat space_left) c :: r)
            else (cur, rest)
        | [] => (cur, rest)
        end in
      match drop_last_blank cur2 with
      | [] => wrap_chunks fuel' width started rest2
      | line => List.concat line :: wrap_chunks fuel' width true rest2
      end
  | _, _ => []
  end.

Definition wrap (text : str) (width : Z) : list str :=
  let chunks := chunks_of (munge_whitespace text) in
  wrap_chunks (List.length (List.concat chunks) + List.length chunks + 1)
              width false chunks.

Definition plain_wrap : TextWrap :=
  {| fill := fun text width => join [10%N] (wrap text width) |}.

(** *** Visible width

    The columns a line takes on the terminal: its characters, the colour
    escapes (ESC, an opening bracket, parameters, a final letter) not
    counted. *)
Inductive scan := Plain | SawEsc | InCsi.

Fixpoint visible_from (st : scan) (s : str) : Z :=
  match s with
  | [] => 0
  | c :: r =>
      match st with
      | Plain =>
          if ch_eqb c ESC then visible_from SawEsc r
          else 1 + visible_from Plain r
      | SawEsc =>
          if ch_eqb c 91%N then visible_from InCsi r
          else visible_from Plain r
      | InCsi =>
          if ((64 <=? c) && (c <=? 126))%N then visible_from Plain r
          else visible_from InCsi r
      end
  end.

Definition visible_width (s : str) : Z := visible_from Plain s.

(** A text without the escape character. *)
Definition no_esc (s : str) : Prop :=
  forallb (fun c => negb (ch_eqb c ESC)) s = true.

End Render.

(** ** The process and its surroundings *)

Module World.
Import PyStr Exc Corpus.
Local Open Scope Z_scope.

(** Python floats, as far as the program compares and passes them on.
    Finite values are taken as exact rationals: nothing below depends on
    rounding. *)
Inductive pyfloat :=
| Fin (q : Q)
| PosInf
| NegInf
| NaN.

(** [a < b] on floats. *)
Definition float_lt (a b : pyfloat) : bool :=
  match a, b with
  | NaN, _ | _, NaN => false
  | _, NegInf | PosInf, _ => false
  | NegInf, _ | _, PosInf => true
  | Fin x, Fin y => negb (Qle_bool y x)
  end.

(** [min(a, b)]: the first argument, unless the second is smaller. *)
Definition py_min (a b : pyfloat) : pyfloat :=
  if float_lt b a then b else a.

(** Values of [json]. *)
#[local] Unset Elimination Schemes.
Inductive json :=
| JNull
| JBool (b : bool)
| JInt (z : Z)
| JFloat (f : pyfloat)
| JStr (s : str)
| JList (l : list json)
| JDict (d : list (str * json)).
#[local] Set Elimination Schemes.

(** An operation the value does not support: [v[k]] for a string [k],
    [v[0]], [v.strip()]. *)
Inductive bad_op :=
| SubscriptStr (v : json) (k : str)
| SubscriptZero (v : json)
| NoStrip (v : json).

(** What the interpreter and its library supply: the readers [float] and
    [int] of strings ([None] where they raise [ValueError]), and the
    message of the [TypeError] or [AttributeError] of an unsupported
    operation. *)
Class PyRuntime := {
  float_of_str : str -> option pyfloat;
  int_of_str : str -> option Z;
  exc_text : bad_op -> str
}.

(** [TERRY_SETTINGS] *)
Record settings := Settings {
  model : str;
  temperature : pyfloat;
  max_tokens : Z
}.

(** The body of one [requests.post] of [do_call]. *)
Record request := Request {
  rq_authorization : str;
  rq_model : str;
  rq_messages : list (str * str);
  rq_max_tokens : Z;
  rq_temperature : pyfloat
}.

(** What the program reads of a response: [status_code], the header
    [Retry-After], [text] and the outcome of [json()]. *)
Record response := Response {
  status_code : Z;
  retry_after : option str;
  text : str;
  json_body : result json
}.

(** The outcome of [do_call]: [requests.exceptions.Timeout], any other
    exception, or a response. *)
Inductive transport :=
| TimedOut
| Failed (e : exn)
| Answer (r : response).

(** What the program prints, one event per [print], with the values the
    message shows. *)
Inductive out_event :=
| PrintStarting
| PrintError (msg : str)
| PrintTitle (w : Z)
| PrintHelp (w : Z)
| PrintBox (box : str)
| PrintBlank
| PrintSaved
| PrintBye
| PrintTerryTitle (w : Z)
| PrintReturning (after_interrupt : bool)
| PrintModelSet (m : str)
| PrintTempSet (v : pyfloat)
| PrintInvalidTemp
| PrintMaxSet (v : Z)
| PrintInvalidMax
| PrintSettings (s : settings)
| PrintWarnTimeout (delay : pyfloat)
| PrintWarnStatus (code : Z) (m : str) (delay : pyfloat)
| PrintModelUnavailable (m : str).

(** The surroundings of the process, which it only reads: the
    environment variables, the corpus file at each load, the terminal
    width, the favourites file and the local time at each moment of the
    session (moments are counted in lines asked of the user; an append
    to the favourites file that fails comes with the exception raised
    and with what had reached the file by then, nothing when the file
    could not be opened), the answer
    of the network to each call, the random draws, and whether the
    standard input is a terminal. *)
Record env := Env {
  MISTRAL_API_KEY : option str;
  MISTRAL_MODEL : option str;
  PROVERBS_CTX_LIMIT : option str;
  PROVERBS_FILE : nat -> path;
  terminal : nat -> option Z;
  favorites_io : nat -> option (exn * str);
  now : nat -> str;
  post : nat -> request -> transport;
  uniform : nat -> Q;
  choice : nat -> nat;
  stdin_isatty : bool
}.

(** The state of the process and the trace of what it did. *)
Record world := World {
  TERRY_SETTINGS : settings;
  PROVERBS_CONTEXT : option str;
  loads : nat;
  requests_sent : list request;
  slept : list pyfloat;
  draws : nat;
  picks : nat;
  clock : nat;
  favorites : list str;
  printed : list out_event
}.

(** [os.getenv(name, default)] *)
Definition getenv (v : option str) (dflt : str) : str :=
  match v with Some s => s | None => dflt end.

Definition print (o : out_event) (w : world) : world :=
  World (TERRY_SETTINGS w) (PROVERBS_CONTEXT w) (loads w) (requests_sent w)
        (slept w) (draws w) (picks w) (clock w) (favorites w)
        (printed w ++ [o]).

Definition set_settings (s : settings) (w : world) : world :=
  World s (PROVERBS_CONTEXT w) (loads w) (requests_sent w)
        (slept w) (draws w) (picks w) (clock w) (favorites w) (printed w).

Definition set_context (c : str) (w : world) : world :=
  World (TERRY_SETTINGS w) (Some c) (loads w) (requests_sent w)
        (slept w) (draws w) (picks w) (clock w) (favorites w) (printed w).

Definition count_load (w : world) : world :=
  World (TERRY_SETTINGS w) (PROVERBS_CONTEXT w) (S (loads w))
        (requests_sent w) (slept w) (draws w) (picks w) (clock w)
        (favorites w) (printed w).

Definition log_request (r : request) (w : world) : world :=
  World (TERRY_SETTINGS w) (PROVERBS_CONTEXT w) (loads w)
        (requests_sent w ++ [r]) (slept w) (draws w) (picks w) (clock w)
        (favorites w) (printed w).

Definition log_sleep (d : pyfloat) (w : world) : world :=
  World (TERRY_SETTINGS w) (PROVERBS_CONTEXT w) (loads w) (requests_sent w)
        (slept w ++ [d]) (draws w) (picks w) (clock w) (favorites w)
        (printed w).

Definition count_draw (w : world) : world :=
  World (TERRY_SETTINGS w) (PROVERBS_CONTEXT w) (loads w) (requests_sent w)
        (slept w) (S (draws w)) (picks w) (clock w) (favorites w)
        (printed w).

Definition count_pick (w : world) : world :=
  World (TERRY_SETTINGS w) (PROVERBS_CONTEXT w) (loads w) (requests_sent w)
        (slept w) (draws w) (S (picks w)) (clock w) (favorites w)
        (printed w).

Definition tick (w : world) : world :=
  World (TERRY_SETTINGS w) (PROVERBS_CONTEXT w) (loads w) (requests_sent w)
        (slept w) (draws w) (picks w) (S (clock w)) (favorites w)
        (printed w).

Definition append_favorite (line : str) (w : world) : world :=
  World (TERRY_SETTINGS w) (PROVERBS_CONTEXT w) (loads w) (requests_sent w)
        (slept w) (draws w) (picks w) (clock w) (favorites w ++ [line])
        (printed w).

(** The lengths [time.sleep] can count: it turns the seconds into a
    number of nanoseconds of 64 bits before anything else. *)
Definition countable (q : Q) : bool :=
  Qle_bool (- inject_Z (2 ^ 63)) (q * inject_Z (10 ^ 9))
  && Qle_bool (q * inject_Z (10 ^ 9)) (inject_Z (2 ^ 63)).

(** [time.sleep(d)]: a length that cannot be counted, is negative or is
    undefined raises, and nothing is slept. *)
Definition sleep (d : pyfloat) (w : world) : result unit * world :=
  match d with
  | Fin q =>
      if negb (countable q)
      then (Raise (Exn OverflowError
                       (lit "timestamp too large to convert to C")), w)
      else if float_lt d (Fin 0)
      then (Raise (Exn ValueError (lit "sleep length must be non-negative")),
            w)
      else (Ok tt, log_sleep d w)
  | NaN => (Raise (Exn ValueError (lit "Invalid value NaN (not a number)")), w)
  | PosInf | NegInf =>
      (Raise (Exn OverflowError (lit "timestamp too large to convert to C")),
       w)
  end.

End World.

(** ** ResilientChatClient: [get_proverbs_context] and [query_llm] *)

Module Chat.
Import PyStr Exc Corpus World.
Local Open Scope Z_scope.

Section Client.
Context {U : UnicodeData} {R : PyRuntime}.
Variable E : env.

(** [get_proverbs_context()]: the cached string when there is one;
    otherwise the corpus is loaded, or the message of the failure taken
    in its place, and the outcome is cached.  An exception outside
    [Exception] passes through and nothing is cached. *)
Definition get_proverbs_context (w : world) : result str * world :=
  match PROVERBS_CONTEXT w with
  | Some cached => (Ok cached, w)
  | None =>
      let w1 := count_load w in
      match load_verses (PROVERBS_FILE E (loads w)) with
      | Ok verses =>
          let context :=
            join [10%N]
                 (List.map (fun v : verse => fst v ++ lit " " ++ snd v)
                           verses) in
          (Ok context, set_context context w1)
      | Raise e =>
          if is_Exception e then
            let context :=
              lit "[Fehler beim Laden der Spr" ++ [252%N] ++ lit "che: "
              ++ exn_msg e ++ lit "]" in
            (Ok context, set_context context w1)
          else (Raise e, w1)
      end
  end.

(** [d[k]] on a dictionary made by [json]. *)
Fixpoint dict_get (d : list (str * json)) (k : str) : option json :=
  match d with
  | [] => None
  | (k', v) :: rest => if str_eqb k' k then Some v else dict_get rest k
  end.

(** [v[k]] for a string key [k]. *)
Definition subscript (v : json) (k : str) : result json :=
  match v with
  | JDict d =>
      match dict_get d k with
      | Some x => Ok x
      | None => Raise (Exn KeyError (lit "'" ++ k ++ lit "'"))
      end
  | _ => Raise (Exn TypeError (exc_text (SubscriptStr v k)))
  end.

(** [v[0]] *)
Definition subscript_zero (v : json) : result json :=
  match v with
  | JList (x :: _) => Ok x
  | JList [] => Raise (Exn IndexError (lit "list index out of range"))
  | JStr (c :: _) => Ok (JStr [c])
  | JStr [] => Raise (Exn IndexError (lit "string index out of range"))
  | JDict _ => Raise (Exn KeyError (lit "0"))
  | _ => Raise (Exn TypeError (exc_text (SubscriptZero v)))
  end.

Definition bind {A B : Type} (r : result A) (f : A -> result B) : result B :=
  match r with
  | Ok a => f a
  | Raise e => Raise e
  end.

(** [data["choices"][0]["message"]["content"].strip()] *)
Definition message_content (data : json) : result str :=
  bind (subscript data (lit "choices")) (fun choices =>
  bind (subscript_zero choices) (fun first =>
  bind (subscript first (lit "message")) (fun message =>
  bind (subscript message (lit "content")) (fun content =>
  match content with
  | JStr s => Ok (strip s)
  | _ => Raise (Exn AttributeError (exc_text (NoStrip content)))
  end)))).

(** [1.0 * (2 ** attempt) + random.uniform(0, 0.3)], the draw given. *)
Definition backoff (attempt : nat) (jitter : Q) : pyfloat :=
  Fin (inject_Z (2 ^ Z.of_nat attempt) + jitter).

(** The delay of the branch for 429, 502, 503 and 504 before the cap:
    [float(ra)] when the header is there, not empty and read by [float],
    the backoff otherwise; the flag tells whether a draw was made. *)
Definition retry_after_delay (ra : option str) (attempt : nat) (jitter : Q)
  : pyfloat * bool :=
  match ra with
  | Some s =>
      if truthy s then
        match float_of_str s with
        | Some f => (f, false)
        | None => (backoff attempt jitter, true)
        end
      else (backoff attempt jitter, true)
  | None => (backoff attempt jitter, true)
  end.

Definition is_retry_status (code : Z) : bool :=
  (code =? 429) || (code =? 502) || (code =? 503) || (code =? 504).

(** How one pass through the body of the inner loop ends. *)
Inductive ctl :=
| Continue
| Break
| Return (s : str)
| Throw (e : exn).

Definition unauthorized_text : str :=
  lit "[LLM ERROR] 401 Unauthorized " ++ [8212%N]
  ++ lit " check MISTRAL_API_KEY / project.".

(** The body of [for attempt in range(5)] for one model: the control
    outcome, [last_err] and the world after it. *)
Definition attempt_body (rq : request) (attempt : nat)
    (last_err : option str) (w : world) : ctl * option str * world :=
  let w1 := log_request rq w in
  match post E (List.length (requests_sent w)) rq with
  | TimedOut =>
      let delay := py_min (backoff attempt (uniform E (draws w1))) (Fin 10) in
      let w2 := print (PrintWarnTimeout delay) (count_draw w1) in
      match sleep delay w2 with
      | (Ok _, w3) => (Continue, Some (lit "timeout"), w3)
      | (Raise e, w3) => (Throw e, last_err, w3)
      end
  | Failed e =>
      if is_Exception e
      then (Return (lit "[LLM ERROR] " ++ exn_msg e), last_err, w1)
      else (Throw e, last_err, w1)
  | Answer resp =>
      if status_code resp =? 200 then
        match bind (json_body resp) message_content with
        | Ok content => (Return content, last_err, w1)
        | Raise e =>
            if is_Exception e
            then (Return (lit "[LLM ERROR] Bad JSON: " ++ exn_msg e
                          ++ lit " | Raw: " ++ slice_to (text resp) 300),
                  last_err, w1)
            else (Throw e, last_err, w1)
        end
      else if is_retry_status (status_code resp) then
        let (delay0, drew) :=
          retry_after_delay (retry_after resp) attempt
                            (uniform E (draws w1)) in
        let delay := py_min delay0 (Fin 10) in
        let w2 := if drew then count_draw w1 else w1 in
        let w3 := print (PrintWarnStatus (status_code resp) (rq_model rq)
                                         delay) w2 in
        match sleep delay w3 with
        | (Ok _, w4) => (Continue, Some (text resp), w4)
        | (Raise e, w4) => (Throw e, last_err, w4)
        end
      else if status_code resp =? 404 then
        (Break, Some (text resp),
         print (PrintModelUnavailable (rq_model rq)) w1)
      else if status_code resp =? 401 then
        (Return unauthorized_text, last_err, w1)
      else
        (Return (lit "[LLM ERROR " ++ str_of_int (status_code resp)
                 ++ lit "] " ++ slice_to (text resp) 400),
         last_err, w1)
  end.

(** [for attempt in range(5): ...] over the attempts that are left.
    [Continue] as a result says the attempts ran out. *)
Fixpoint retry_loop (rq : request) (attempts : list nat)
    (last_err : option str) (w : world) : ctl * option str * world :=
  match attempts with
  | [] => (Continue, last_err, w)
  | attempt :: rest =>
      match attempt_body rq attempt last_err w with
      | (Continue, last_err', w') => retry_loop rq rest last_err' w'
      | stop => stop
      end
  end.

(** [f"{last_err}"] *)
Definition show_last_err (last_err : option str) : str :=
  match last_err with
  | Some s => s
  | None => lit "None"
  end.

(** [for model in model_candidates: ...] and the line after it. *)
Fixpoint model_loop (mk : str -> request) (models : list str)
    (last_err : option str) (w : world) : result str * world :=
  match models with
  | [] =>
      (Ok (lit "[FAILED] after retries & fallbacks. Last error: "
           ++ show_last_err last_err), w)
  | m :: rest =>
      match retry_loop (mk m) (seq 0 5) last_err w with
      | (Return s, _, w') => (Ok s, w')
      | (Throw e, _, w') => (Raise e, w')
      | (_, last_err', w') => model_loop mk rest last_err' w'
      end
  end.

Definition no_key_text : str := lit "[LLM ERROR] MISTRAL_API_KEY not set.".

Definition model_candidates (w : world) : list str :=
  [ (if truthy (model (TERRY_SETTINGS w)) then model (TERRY_SETTINGS w)
     else getenv (MISTRAL_MODEL E) (lit "open-mixtral-8x7b"));
    lit "mistral-large-latest";
    lit "mistral-small-latest";
    lit "open-mixtral-8x7b" ].

Definition system_prompt (ctx : str) : str :=
  lit "You are given biblical proverbs as context. Use this mainly for guidance."
  ++ [10%N] ++ lit "Requirements:" ++ [10%N]
  ++ lit "1) Advise the user as if spoken from Proverbs (quote a relevant proverb if suitable)."
  ++ [10%N]
  ++ lit "2) Pay careful attention to the semantics and emotional tone of the user input."
  ++ [10%N]
  ++ lit "Style: a touch of biblical cadence, so the user feels addressed by ancient wisdom"
  ++ [8212%N] ++ lit "while staying respectful and concise." ++ [10%N; 10%N]
  ++ lit "Context (Proverbs; possibly truncated):" ++ [10%N] ++ ctx.

(** [int(os.getenv("PROVERBS_CTX_LIMIT", "6000"))] *)
Definition max_context_chars : result Z :=
  match PROVERBS_CTX_LIMIT E with
  | Some s =>
      match int_of_str s with
      | Some z => Ok z
      | None =>
          Raise (Exn ValueError
                   (lit "invalid literal for int() with base 10: '" ++ s
                    ++ lit "'"))
      end
  | None => Ok 6000
  end.

(** [query_llm(prompt)] *)
Definition query_llm (prompt : str) (w : world) : result str * world :=
  match MISTRAL_API_KEY E with
  | None => (Ok no_key_text, w)
  | Some api_key =>
      if negb (truthy api_key) then (Ok no_key_text, w)
      else
        match get_proverbs_context w with
        | (Raise e, w1) => (Raise e, w1)
        | (Ok raw_ctx, w1) =>
            match max_context_chars with
            | Raise e => (Raise e, w1)
            | Ok limit =>
                let ctx :=
                  if len raw_ctx >? limit
                  then slice_to raw_ctx limit ++ [32%N; 8230%N]
                  else raw_ctx in
                let messages :=
                  [ (lit "system", system_prompt ctx);
                    (lit "user", prompt) ] in
                let mk m :=
                  Request (lit "Bearer " ++ api_key) m messages
                          (max_tokens (TERRY_SETTINGS w))
                          (temperature (TERRY_SETTINGS w)) in
                model_loop mk (model_candidates w) None w1
            end
        end
  end.

End Client.


(** The field [choices[0].message.content] of a well-formed body, in the
    words of the specification. *)
Definition choices_content (data : json) : option str :=
  match data with
  | JDict d =>
      match dict_get d (lit "choices") with
      | Some (JList (JDict c :: _)) =>
          match dict_get c (lit "message") with
          | Some (JDict m) =>
              match dict_get m (lit "content") with
              | Some (JStr s) => Some s
              | _ => None
              end
          | _ => None
          end
      | _ => None
      end
  | _ => None
  end.

(** The contract of [random.uniform(0, 0.3)]. *)
Definition uniform_in_range (E' : env) : Prop :=
  forall n, (0 <= uniform E' n)%Q /\ (uniform E' n < 3 # 10)%Q.


(** A [Retry-After] header that [time.sleep] accepts once capped: when
    [float] reads it, the value is a number that is not negative, or
    infinity. *)
Definition sane_retry_after {R : PyRuntime} (ra : option str) : Prop :=
  forall s f, ra = Some s -> s <> [] -> float_of_str s = Some f ->
    f = PosInf \/ exists q, f = Fin q /\ (0 <= q)%Q.

(** Ordinary remote failures: what the network raises derives from
    [Exception] (no interrupt arrives through it), and the headers are
    sane. *)
Definition ordinary_network {R : PyRuntime} (E : env) : Prop :=
  forall n rq,
    match post E n rq with
    | TimedOut => True
    | Failed e => is_Exception e = true
    | Answer resp =>
        (forall e, json_body resp = Raise e -> is_Exception e = true)
        /\ sane_retry_after (retry_after resp)
    end.

(** What [query_llm] hands back: the text of a failure, or the content
    of an answer of the network. *)
Definition failure_text (s : str) : Prop :=
  startswith s (lit "[LLM ERROR") = true
  \/ startswith s (lit "[FAILED]") = true.

Definition answer_content {R : PyRuntime} (E : env) (s : str) : Prop :=
  exists n rq resp data,
    post E n rq = Answer resp /\ status_code resp = 200
    /\ json_body resp = Ok data /\ message_content data = Ok s.

(** A runtime to compute with: its readers take plain decimal integers
    with an optional minus sign, on which they agree with Python, and
    nothing else. *)
Fixpoint digits_value (acc : Z) (s : str) : option Z :=
  match s with
  | [] => Some acc
  | c :: r =>
      if ascii_isdecimal c
      then digits_value (10 * acc + (Z.of_N c - 48)) r
      else None
  end.

Definition plain_int (s : str) : option Z :=
  match s with
  | [] => None
  | c :: r =>
      if ch_eqb c 45%N then
        match r with
        | [] => None
        | _ => option_map Z.opp (digits_value 0 r)
        end
      else digits_value 0 s
  end.

Definition plain_runtime : PyRuntime :=
  {| float_of_str := fun s => option_map (fun z => Fin (inject_Z z))
                                         (plain_int s);
     int_of_str := plain_int;
     exc_text := fun _ => lit "unsupported operand" |}.

End Chat.

(** ** FavoritesLog and SessionController: [save_favorite], [terry_mode]
    and [main] *)

Module Session.
Import PyStr Exc Corpus Render World Chat.
Local Open Scope Z_scope.

(** What [input()] meets: a line typed by the user, an interrupt, or the
    end of the standard input. *)
Inductive in_event :=
| Line (s : str)
| CtrlC
| EndOfInput.

(** The places where the program waits for input: the prompt after a
    failed start, the loop of [main], the loop of [terry_mode], and the
    prompt of the [finally] block of [main], with the exception that is
    on its way out, if any. *)
Inductive position :=
| AtStartupError
| Browsing (verses : list verse) (current : option verse)
| Chatting (verses : list verse)
| AtExit (pending : option exn).

(** The program waits at a position, or [main] is over: it returned, or
    an exception left it. *)
Inductive status :=
| Waiting (p : position) (w : world)
| Ended (uncaught : option exn) (w : world).

Section Controller.
Context {U : UnicodeData} {R : PyRuntime} {T : TextWrap}.
Variable E : env.

Definition columns (w : world) : Z := term_width (terminal E (clock w)).

(** What a failed append leaves in the favourites file. *)
Definition leave_part (reached : str) (w : world) : world :=
  match reached with
  | [] => w
  | _ => append_favorite reached w
  end.

(** [save_favorite(ref, text)] *)
Definition save_favorite (ref text : str) (w : world) : result unit * world :=
  match favorites_io E (clock w) with
  | Some (e, reached) => (Raise e, leave_part reached w)
  | None =>
      let stamp := now E (clock w) in
      let line :=
        lit "[" ++ stamp ++ lit "] " ++ ref ++ lit "  " ++ text ++ [10%N] in
      (Ok tt, append_favorite line w)
  end.

(** [random.choice(verses)] *)
Definition random_choice (verses : list verse) (w : world)
  : result verse * world :=
  match nth_error verses
                  (Nat.modulo (choice E (picks w)) (List.length verses)) with
  | Some v => (Ok v, count_pick w)
  | None =>
      (Raise (Exn IndexError (lit "Cannot choose from an empty sequence")),
       w)
  end.

(** The [finally] block of [main], with the exception on its way out. *)
Definition finish (pending : option exn) (w : world) : status :=
  let w1 := print PrintBye w in
  if stdin_isatty E then Ended pending w1
  else Waiting (AtExit pending) w1.

(** An exception reaches the [try] of the loop of [main]: only
    [KeyboardInterrupt] is caught. *)
Definition leave_main (e : exn) (w : world) : status :=
  if is_KeyboardInterrupt e then finish None w else finish (Some e) w.

(** [current = random.choice(verses)], the box printed and a blank line
    after it. *)
Definition show_random (verses : list verse) (w : world) : status :=
  match random_choice verses w with
  | (Raise e, w1) => leave_main e w1
  | (Ok v, w1) =>
      let box := box_text (columns w1) (fst v) (snd v) default_pad
                          default_color_ref default_color_text in
      Waiting (Browsing verses (Some v)) (print PrintBlank
                                            (print (PrintBox box) w1))
  end.

(** The head of the loop of [main], up to [input()]. *)
Definition browse (verses : list verse) (current : option verse) (w : world)
  : status :=
  match current with
  | None => show_random verses w
  | Some _ => Waiting (Browsing verses current) w
  end.

(** The start of [main], up to the first [input()]. *)
Definition main_start (w : world) : status :=
  let w1 := count_load (print PrintStarting w) in
  match load_verses (PROVERBS_FILE E (loads w)) with
  | Raise e =>
      if is_Exception e
      then Waiting AtStartupError (print (PrintError (exn_msg e)) w1)
      else Ended (Some e) w1
  | Ok verses => browse verses None (print (PrintTitle (columns w1)) w1)
  end.

(** The return of [terry_mode] to [main]: [current = None], the title,
    and the head of the loop. *)
Definition back_to_main (verses : list verse) (w : world) : status :=
  browse verses None (print (PrintTitle (columns w)) w).

(** [cmd.split(maxsplit=1)[1]] *)
Definition second_word (cmd : str) : result str :=
  let (_, r) := span (fun c => negb (isspace c)) (lstrip cmd) in
  match lstrip r with
  | [] => Raise (Exn IndexError (lit "list index out of range"))
  | rest => Ok rest
  end.

Definition is_word (cmd : str) (word : string) : bool :=
  str_eqb (lower cmd) (lit word).

(** [terry_mode()], up to its first [input()]. *)
Definition terry_mode (verses : list verse) (w : world) : status :=
  Waiting (Chatting verses) (print (PrintTerryTitle (columns w)) w).

(** One line read in the loop of [main]. *)
Definition browse_line (verses : list verse) (current : option verse)
    (s : str) (w : world) : status :=
  let cmd := lower (strip s) in
  if str_eqb cmd (lit "q") then finish None w
  else if str_eqb cmd (lit "h") then
    browse verses current (print (PrintHelp (columns w)) w)
  else if str_eqb cmd (lit "s") then
    match current with
    | Some v =>
        match save_favorite (fst v) (snd v) w with
        | (Raise e, w1) => leave_main e w1
        | (Ok _, w1) => browse verses current (print PrintSaved w1)
        end
    | None => browse verses current w
    end
  else if str_eqb cmd (lit "/terry") then terry_mode verses w
  else show_random verses w.

(** One line read in the loop of [terry_mode]. *)
Definition chat_line (verses : list verse) (query : str) (w : world)
  : status :=
  let cmd := strip query in
  let st := TERRY_SETTINGS w in
  if negb (truthy cmd) then Waiting (Chatting verses) w
  else if is_word cmd "q" then
    leave_main (Exn SystemExit (lit "0")) w
  else if is_word cmd "b" then
    back_to_main verses (print (PrintReturning false) w)
  else if startswith (lower cmd) (lit "/model ") then
    match second_word cmd with
    | Raise e => leave_main e w
    | Ok m =>
        Waiting (Chatting verses)
                (print (PrintModelSet m)
                       (set_settings
                          (Settings m (temperature st) (max_tokens st)) w))
    end
  else if startswith (lower cmd) (lit "/temp ") then
    match bind (second_word cmd)
               (fun a => match float_of_str a with
                         | Some v => Ok v
                         | None => Raise (Exn ValueError a)
                         end) with
    | Ok v =>
        Waiting (Chatting verses)
                (print (PrintTempSet v)
                       (set_settings (Settings (model st) v (max_tokens st))
                                     w))
    | Raise _ => Waiting (Chatting verses) (print PrintInvalidTemp w)
    end
  else if startswith (lower cmd) (lit "/max ") then
    match bind (second_word cmd)
               (fun a => match int_of_str a with
                         | Some v => Ok v
                         | None => Raise (Exn ValueError a)
                         end) with
    | Ok v =>
        Waiting (Chatting verses)
                (print (PrintMaxSet v)
                       (set_settings (Settings (model st) (temperature st) v)
                                     w))
    | Raise _ => Waiting (Chatting verses) (print PrintInvalidMax w)
    end
  else if is_word cmd "/settings" || is_word cmd "/set" || is_word cmd "/s"
  then Waiting (Chatting verses) (print (PrintSettings st) w)
  else
    match query_llm E cmd w with
    | (Raise e, w1) =>
        if is_KeyboardInterrupt e
        then back_to_main verses (print (PrintReturning true) w1)
        else leave_main e w1
    | (Ok answer, w1) =>
        let box := box_text (columns w1) (lit "Your Answer:") answer
                            default_pad bright_red bright_white in
        Waiting (Chatting verses)
                (print PrintBlank (print (PrintBox box) w1))
    end.

(** What an input event does to the program waiting at a position. *)
Definition step (p : position) (ev : in_event) (w : world) : status :=
  match p with
  | AtStartupError => Ended None w
  | Browsing verses current =>
      match ev with
      | Line s => browse_line verses current s w
      | CtrlC => finish None w
      | EndOfInput => finish (Some (Exn EOFError (lit "EOF when reading a line"))) w
      end
  | Chatting verses =>
      match ev with
      | Line s => chat_line verses s w
      | CtrlC => back_to_main verses (print (PrintReturning true) w)
      | EndOfInput =>
          leave_main (Exn EOFError (lit "EOF when reading a line")) w
      end
  | AtExit pending =>
      match ev with
      | CtrlC => Ended (Some (Exn KeyboardInterrupt [])) w
      | _ => Ended pending w
      end
  end.

(** The program fed with input events, as long as it asks for input. *)
Fixpoint run (st : status) (evs : list in_event) : status :=
  match evs with
  | [] => st
  | ev :: rest =>
      match st with
      | Waiting p w => run (step p ev (tick w)) rest
      | Ended _ _ => st
      end
  end.

(** [main()] on the input events [evs]. *)
Definition main (evs : list in_event) (w : world) : status :=
  run (main_start w) evs.

End Controller.

(** The loop of [main] is running: the program waits for a command of
    the browse mode. *)
Definition browsing (st : status) : bool :=
  match st with
  | Waiting (Browsing _ _) _ => true
  | _ => false
  end.

End Session.

(** ** Sample surroundings, to run the program on *)

Module Samples.
Import PyStr Exc Corpus World Chat.
Local Open Scope Z_scope.

Definition corpus_text : str :=
  lit "Proverbs 1:7  The fear of the LORD" ++ [10%N; 10%N]
  ++ lit "Go to the ant" ++ [10%N].

Definition two_line_corpus : path :=
  Path (lit "/data/proverbs.txt") (Content corpus_text).

Definition single_space_corpus : path :=
  Path (lit "/data/proverbs.txt")
       (Content (lit "Proverbs 1:7 The fear of the LORD" ++ [10%N])).

Definition missing_corpus : path :=
  Path (lit "/data/proverbs.txt") Missing.

(** The start of the process: the defaults of [TERRY_SETTINGS], no
    cached context, nothing done yet. *)
Definition start : world :=
  World (Settings (lit "open-mixtral-8x7b") (Fin (7 # 10)) 256)
        None 0 [] [] 0 0 0 [] [].

(** A response with a status, a [Retry-After] header and a text, the
    body not being JSON. *)
Definition plain_response (code : Z) (ra : option str) (body : str)
  : response :=
  Response code ra body
           (Raise (Exn ValueError (lit "Expecting value: line 1 column 1")))
.

(** A response 200 whose body carries the content [c]. *)
Definition chat_response (c : str) : response :=
  Response 200 None (lit "{...}")
    (Ok (JDict
           [(lit "choices",
             JList [JDict [(lit "message",
                            JDict [(lit "role", JStr (lit "assistant"));
                                   (lit "content", JStr c)])]])])).

(** Surroundings with a credential, the two-line corpus, a terminal of
    80 columns, a favourites file that can be written, and the network
    [net]. *)
Definition surroundings (net : nat -> request -> transport) : env :=
  Env (Some (lit "key")) None None (fun _ => two_line_corpus)
      (fun _ => Some 80) (fun _ => None) (fun _ => lit "2024-01-01 12:00:00")
      net (fun _ => 1 # 10) (fun _ => 0%nat) true.

(** The same without a credential. *)
Definition no_credential : env :=
  Env None None None (fun _ => two_line_corpus)
      (fun _ => Some 80) (fun _ => None) (fun _ => lit "2024-01-01 12:00:00")
      (fun _ _ => TimedOut) (fun _ => 1 # 10) (fun _ => 0%nat) true.

(** The same with a corpus file that is missing. *)
Definition no_corpus : env :=
  Env (Some (lit "key")) None None (fun _ => missing_corpus)
      (fun _ => Some 80) (fun _ => None) (fun _ => lit "2024-01-01 12:00:00")
      (fun _ _ => TimedOut) (fun _ => 1 # 10) (fun _ => 0%nat) true.



(** The first candidate model is not known to the server, which answers
    for the second. *)
Definition first_model_unknown : nat -> request -> transport :=
  fun _ rq =>
    if str_eqb (rq_model rq) (lit "open-mixtral-8x7b")
    then Answer (plain_response 404 None (lit "no such model"))
    else Answer (chat_response (lit " Hear, my son. ")).

(** A server that answers every call with 429 and the given
    [Retry-After]. *)
Definition always_429 (ra : str) : nat -> request -> transport :=
  fun _ _ => Answer (plain_response 429 (Some ra) (lit "rate limited")).

(** A network that times out, but for the twentieth call, which is
    answered with 503. *)
Definition busy_at_last : nat -> request -> transport :=
  fun n _ =>
    if Nat.eqb n 19 then Answer (plain_response 503 None (lit "busy"))
    else TimedOut.

End Samples.

(** ** Notions the further facts are stated with *)

Module Notions.
Import PyStr.

(** A string that neither starts nor ends with white space. *)
Definition trimmed (s : str) : Prop :=
  hd_error (List.map isspace s) <> Some true
  /\ hd_error (List.map isspace (rev s)) <> Some true.

(** A word: a string that is not empty and holds no white space. *)
Definition word (a : str) : Prop :=
  a <> [] /\ forallb (fun c => negb (isspace c)) a = true.

End Notions.

Module ClientNotions.
Import PyStr Exc Corpus World Chat.
Local Open Scope Z_scope.

(** [ctx] of [query_llm]: the context cut to the limit, with the marker
    of the cut. *)
Definition truncate_context (raw_ctx : str) (limit : Z) : str :=
  if len raw_ctx >? limit
  then slice_to raw_ctx limit ++ [32%N; 8230%N]
  else raw_ctx.

(** The request [do_call(model)] sends, given what [query_llm] has
    prepared. *)
Definition chat_request (api_key prompt ctx : str) (st : settings)
    (m : str) : request :=
  Request (lit "Bearer " ++ api_key) m
          [ (lit "system", system_prompt ctx); (lit "user", prompt) ]
          (max_tokens st) (temperature st).

(** The requests sent and the delays slept from one world to a later
    one. *)
Definition sent_since (w w' : world) : list request :=
  skipn (List.length (requests_sent w)) (requests_sent w').

Definition slept_since (w w' : world) : list pyfloat :=
  skipn (List.length (slept w)) (slept w').

Definition printed_since (w w' : world) : list out_event :=
  skipn (List.length (printed w)) (printed w').

Definition saved_since (w w' : world) : list str :=
  skipn (List.length (favorites w)) (favorites w').

(** A delay that [time.sleep] takes and the cap allows. *)
Definition nap_ok (d : pyfloat) : Prop :=
  exists q, d = Fin q /\ (0 <= q)%Q /\ (q <= 10)%Q.

(** The blocks of a run of [query_llm]: the first model [k1] times, then
    the second [k2] times, and so on. *)
Fixpoint blocks (models : list str) (ks : list nat) : list str :=
  match models, ks with
  | m :: ms, k :: ks' => List.repeat m k ++ blocks ms ks'
  | _, _ => []
  end.

Definition is_saved (o : out_event) : bool :=
  match o with PrintSaved => true | _ => false end.

(** The number of times the program has said that it saved a verse. *)
Definition saved_count (out : list out_event) : nat :=
  List.length (filter is_saved out).

(** What the chat client leaves alone. *)
Definition client_frame (w w' : world) : Prop :=
  TERRY_SETTINGS w' = TERRY_SETTINGS w
  /\ picks w' = picks w /\ clock w' = clock w
  /\ favorites w' = favorites w
  /\ saved_count (printed w') = saved_count (printed w).

(** The trace of a stretch of the client: the requests it sent, at most
    as many naps, each in order, and the rest of the world as it was. *)
Definition stretch (w w' : world) (reqs : list request) : Prop :=
  exists naps,
    requests_sent w' = requests_sent w ++ reqs
    /\ slept w' = slept w ++ naps
    /\ (List.length naps <= List.length reqs)%nat
    /\ Forall nap_ok naps
    /\ client_frame w w'.

(** A failure that may pass: a timeout, or a status 429, 502, 503 or 504
    with a header [time.sleep] accepts. *)
Definition transient {R : PyRuntime} (o : transport) : Prop :=
  match o with
  | TimedOut => True
  | Failed _ => False
  | Answer resp =>
      is_retry_status (status_code resp) = true
      /\ sane_retry_after (retry_after resp)
  end.

(** An error the network showed: a timeout, or the text of a response. *)
Definition seen_error (E : env) (le : str) : Prop :=
  le = lit "timeout"
  \/ exists n rq resp, post E n rq = Answer resp /\ le = text resp.

(** What [last_err] holds after a call that failed in passing:
    [last_err = "timeout"] after a timeout, [last_err = resp.text] after
    a response. *)
Definition error_of (o : transport) : option str :=
  match o with
  | TimedOut => Some (lit "timeout")
  | Answer resp => Some (text resp)
  | Failed _ => None
  end.

(** [le] is the error the last request of [w] met. *)
Definition last_error (E : env) (w : world) (le : str) : Prop :=
  exists before rq,
    requests_sent w = before ++ [rq]
    /\ error_of (post E (List.length before) rq) = Some le.

End ClientNotions.

Module SessionNotions.
Import PyStr Exc Corpus Render World Chat Session ClientNotions.

(** The world of a status. *)
Definition world_of (st : status) : world :=
  match st with
  | Waiting _ w => w
  | Ended _ w => w
  end.

(** The line [save_favorite] writes for the verse [v] at the moment
    [n]. *)
Definition favorite_line (E : env) (n : nat) (v : verse) : str :=
  lit "[" ++ now E n ++ lit "] " ++ fst v ++ lit "  " ++ snd v ++ [10%N].

(** The box printed last, if any. *)
Definition last_box (out : list out_event) : option str :=
  fold_left (fun acc o => match o with PrintBox b => Some b | _ => acc end)
            out None.

(** The verse [v] is on display: the box printed last is the box of
    [v], at the width the terminal had. *)
Definition on_display {T : TextWrap} (v : verse) (w : world) : Prop :=
  exists width,
    last_box (printed w)
    = Some (box_text width (fst v) (snd v) default_pad default_color_ref
                     default_color_text).

(** The program works on the corpus [verses0]: in either mode it holds
    this list, and in the browse mode the current verse is one of it and
    is on display. *)
Definition in_corpus {T : TextWrap} (verses0 : list verse) (st : status)
  : Prop :=
  match st with
  | Waiting (Browsing vs cur) w =>
      vs = verses0
      /\ exists v, cur = Some v /\ In v verses0 /\ on_display v w
  | Waiting (Chatting vs) _ => vs = verses0
  | _ => True
  end.

(** The session goes on: the program waits for a command of the browse
    mode or for a line of the chat mode. *)
Definition in_session (st : status) : bool :=
  match st with
  | Waiting (Browsing _ _) _ | Waiting (Chatting _) _ => true
  | _ => false
  end.

(** Nothing was saved between two worlds. *)
Definition quiet (w w' : world) : Prop :=
  favorites w' = favorites w
  /\ saved_count (printed w') = saved_count (printed w).

(** What the log of favourites holds since the world [w0]: a line for
    each time the program said that it saved, each line made of a verse
    of the corpus. *)
Definition logged (E : env) (verses0 : list verse) (w0 w : world) : Prop :=
  exists lines,
    favorites w = favorites w0 ++ lines
    /\ saved_count (printed w)
       = (saved_count (printed w0) + List.length lines)%nat
    /\ Forall (fun line =>
                 exists v n, In v verses0 /\ line = favorite_line E n v)
              lines.

(** The log of favourites of a session, since the world [w0]: the lines
    of [logged], and after them what an append that failed has left, if
    one did; the session is over then. *)
Definition kept (E : env) (verses0 : list verse) (w0 : world) (st : status)
  : Prop :=
  exists lines rest,
    favorites (world_of st) = favorites w0 ++ lines ++ rest
    /\ saved_count (printed (world_of st))
       = (saved_count (printed w0) + List.length lines)%nat
    /\ Forall (fun line =>
                 exists v n, In v verses0 /\ line = favorite_line E n v)
              lines
    /\ (rest = []
        \/ (in_session st = false
            /\ exists e part n,
                 rest = [part] /\ part <> []
                 /\ favorites_io E n = Some (e, part))).

(** A status reached without saving, in the corpus. *)
Definition settled {T : TextWrap} (verses0 : list verse) (w : world)
    (st : status) : Prop :=
  in_corpus verses0 st /\ quiet w (world_of st).

(** The network and the chat settings were left alone between two
    worlds. *)
Definition offline (w w' : world) : Prop :=
  requests_sent w' = requests_sent w /\ slept w' = slept w
  /\ TERRY_SETTINGS w' = TERRY_SETTINGS w
  /\ PROVERBS_CONTEXT w' = PROVERBS_CONTEXT w.

End SessionNotions.

(** * make_proverbs_kjv: the script that fetches the corpus

    [make_proverbs_kjv.py] downloads the 31 chapters, normalises the
    text of each verse and writes the file that [load_verses] of the
    program reads. *)

Module Kjv.
Import PyStr Exc Corpus World.
Local Open Scope Z_scope.

Definition TOTAL_CHAPTERS : Z := 31.

(** [API.format(chapter=ch)] *)
Definition API (chapter : Z) : str :=
  lit "https://bible-api.com/proverbs+" ++ str_of_int chapter
  ++ lit "?translation=kjv".

Definition OUT_TXT : str := lit "proverbs.txt".
Definition CACHE_JSON : str := lit "proverbs_kjv_full.json".

(** [range(a, b)] *)
Definition range (a b : Z) : list Z :=
  List.map (fun i => a + Z.of_nat i) (seq 0 (Z.to_nat (b - a))).

(** *** Exceptions of the script *)

(** What a statement raises, by the clause that takes it:
    [urllib.error.HTTPError] with its code and reason, an
    [urllib.error.URLError] that is no [HTTPError],
    [json.JSONDecodeError], [RuntimeError], [UnicodeEncodeError], and
    any other exception. *)
Inductive raised :=
| HTTPError (code : Z) (reason : str)
| URLError (reason : str)
| JSONDecodeError (msg : str)
| RuntimeError (msg : str)
| UnicodeEncodeError
| Other (e : exn).

(** Whether [except Exception] takes it. *)
Definition caught_by_Exception (r : raised) : bool :=
  match r with
  | Other e => is_Exception e
  | _ => true
  end.


Inductive outcome (A : Type) :=
| Done (a : A)
| Raised (r : raised).
Arguments Done {A} a.
Arguments Raised {A} r.

(** *** The surroundings *)

(** What the script reads of a response: [status], and what [read]
    followed by [decode] as UTF-8 gives. *)
Record http_response := HttpResponse {
  status : Z;
  read_decoded : outcome str
}.

(** [os.name], which decides [os.linesep]. *)
Inductive os_name := posix | nt.

Definition linesep (o : os_name) : str :=
  match o with
  | posix => [10%N]
  | nt => [13%N; 10%N]
  end.

(** The record the script keeps of a verse: the values under the keys
    chapter, verse and text. *)
Record entry := Entry {
  e_chapter : json;
  e_verse : json;
  e_text : str
}.

(** What the script prints, one event per [print]. *)
Inductive note :=
| WarnHTTP (code : Z) (url : str) (attempt max_retries : Z)
           (sleep_for : pyfloat)
| WarnNetwork (reason : str) (attempt max_retries : Z) (sleep_for : pyfloat)
| InfoFetching (url : str)
| OkWrote (n : Z)
| OkCached
| NoteDone
| NoteError (r : raised).

(** The surroundings, which the script only reads: the answer of the
    network to each call of [urlopen], counted from the start; what
    opening the cache file for writing raises, if anything; what opening
    the output file for writing raises, if anything; and the platform.
    A write to a file, once it is open, fails only on a text that UTF-8
    cannot encode. *)
Record site := Site {
  urlopen : nat -> str -> outcome http_response;
  cache_io : option raised;
  out_io : option raised;
  os : os_name
}.

(** The cache file: as it was found, holding the dump of a list, or
    emptied by a write that failed. *)
Inductive cache_state :=
| CacheAsFound
| CacheDump (verses : list entry)
| CacheBroken.

(** The trace of the script and the two files it writes. *)
Record machine := Machine {
  opened : list str;
  naps : list pyfloat;
  notes : list note;
  cache_json : cache_state;
  out_txt : file_state
}.

Definition log_open (url : str) (s : machine) : machine :=
  Machine (opened s ++ [url]) (naps s) (notes s) (cache_json s) (out_txt s).

Definition log_nap (d : pyfloat) (s : machine) : machine :=
  Machine (opened s) (naps s ++ [d]) (notes s) (cache_json s) (out_txt s).

Definition say (n : note) (s : machine) : machine :=
  Machine (opened s) (naps s) (notes s ++ [n]) (cache_json s) (out_txt s).

Definition set_cache (c : cache_state) (s : machine) : machine :=
  Machine (opened s) (naps s) (notes s) c (out_txt s).

Definition set_out (f : file_state) (s : machine) : machine :=
  Machine (opened s) (naps s) (notes s) (cache_json s) f.

(** [time.sleep(d)], as in the program. *)
Definition nap (d : pyfloat) (s : machine) : outcome unit * machine :=
  match d with
  | Fin q =>
      if negb (countable q)
      then (Raised (Other (Exn OverflowError
                             (lit "timestamp too large to convert to C"))), s)
      else if float_lt d (Fin 0)
      then (Raised (Other (Exn ValueError
                             (lit "sleep length must be non-negative"))), s)
      else (Done tt, log_nap d s)
  | NaN =>
      (Raised (Other (Exn ValueError
                        (lit "Invalid value NaN (not a number)"))), s)
  | PosInf | NegInf =>
      (Raised (Other (Exn OverflowError
                        (lit "timestamp too large to convert to C"))), s)
  end.

(** *** Text *)

(** [re.sub] of the pattern for one or more white-space characters by
    one blank: each run of white space becomes one blank; the flag
    tells whether the character before was white space. *)
Fixpoint sub_spaces (in_run : bool) (t : str) : str :=
  match t with
  | [] => []
  | c :: r =>
      if isspace c then
        if in_run then sub_spaces true r else 32%N :: sub_spaces true r
      else c :: sub_spaces false r
  end.

(** The two statements of [load_all_proverbs] on the text of a verse:
    [strip], then the substitution. *)
Definition normalize (t : str) : str := sub_spaces false (strip t).

(** [re.sub] of the repair: an apostrophe becomes a double quote
    unless the character before it is a backslash. *)
Fixpoint repair_from (after_backslash : bool) (text : str) : str :=
  match text with
  | [] => []
  | c :: r =>
      (if ch_eqb c 39%N && negb after_backslash then 34%N else c)
      :: repair_from (ch_eqb c 92%N) r
  end.

Definition repair_quotes (text : str) : str := repair_from false text.

(** What UTF-8 encodes: all but the surrogates. *)
Definition encodable (s : str) : bool :=
  forallb (fun c => negb ((55296 <=? c) && (c <=? 57343))%N) s.

(** The strings of a value of [json], keys included, are all
    encodable. *)
Fixpoint json_encodable (v : json) : bool :=
  match v with
  | JStr s => encodable s
  | JList l => forallb json_encodable l
  | JDict d =>
      forallb (fun kv : str * json =>
                 encodable (fst kv) && json_encodable (snd kv)) d
  | _ => true
  end.

(** A text written to a file opened in text mode: each newline becomes
    the line separator of the platform. *)
Definition translate_newlines (o : os_name) (s : str) : str :=
  flat_map (fun c => if ch_eqb c 10%N then linesep o else [c]) s.

(** *** Values of [json] *)

(** [json.loads] on a string: the value, or [None] where it raises
    [JSONDecodeError], whose message [json_error] gives. *)
Class JsonLib := {
  json_loads : str -> option json;
  json_error : str -> str
}.

(** [str(v)] for the values that have no fixed form here: floats and
    containers. *)
Class PyRepr := {
  float_repr : pyfloat -> str;
  container_repr : json -> str
}.

Definition type_name (v : json) : str :=
  match v with
  | JNull => lit "NoneType"
  | JBool _ => lit "bool"
  | JInt _ => lit "int"
  | JFloat _ => lit "float"
  | JStr _ => lit "str"
  | JList _ => lit "list"
  | JDict _ => lit "dict"
  end.

Definition no_attribute (v : json) (attr : str) : raised :=
  Other (Exn AttributeError
             (lit "'" ++ type_name v ++ lit "' object has no attribute '"
              ++ attr ++ lit "'")).

Definition not_iterable (v : json) : raised :=
  Other (Exn TypeError
             (lit "'" ++ type_name v ++ lit "' object is not iterable")).

(** [v.get(k, dflt)] *)
Definition get (v : json) (k : str) (dflt : json) : outcome json :=
  match v with
  | JDict d =>
      Done (match Chat.dict_get d k with Some x => x | None => dflt end)
  | _ => Raised (no_attribute v (lit "get"))
  end.

(** The truth value of a value. *)
Definition json_truthy (v : json) : bool :=
  match v with
  | JNull => false
  | JBool b => b
  | JInt z => negb (z =? 0)
  | JFloat (Fin q) => negb (Qeq_bool q 0)
  | JFloat _ => true
  | JStr s => truthy s
  | JList [] => false
  | JList (_ :: _) => true
  | JDict [] => false
  | JDict (_ :: _) => true
  end.

(** What [for v in verses] goes through: the items of a list, the
    characters of a string, the keys of a dictionary. *)
Definition iterate (v : json) : outcome (list json) :=
  match v with
  | JList l => Done l
  | JStr s => Done (List.map (fun c => JStr [c]) s)
  | JDict d => Done (List.map (fun kv : str * json => JStr (fst kv)) d)
  | _ => Raised (not_iterable v)
  end.

(** The text of a value in an f-string. *)
Definition format_value {P : PyRepr} (v : json) : str :=
  match v with
  | JNull => lit "None"
  | JBool true => lit "True"
  | JBool false => lit "False"
  | JInt z => str_of_int z
  | JFloat f => float_repr f
  | JStr s => s
  | JList _ | JDict _ => container_repr v
  end.

Section Script.
Context {J : JsonLib} {P : PyRepr}.
Variable E : site.

(** *** [fetch_with_backoff] *)

(** The body of [try]: [urlopen] of the call numbered [n], the test of
    the status, [read] and [decode]. *)
Definition fetch_once (n : nat) (url : str) : outcome str :=
  match urlopen E n url with
  | Raised r => Raised r
  | Done resp =>
      if negb (status resp =? 200)
      then Raised (HTTPError (status resp) (lit "HTTP status not OK"))
      else read_decoded resp
  end.

(** [base_delay * (2 ** (attempt - 1))] capped: [min(sleep_for, 30.0)].
    The delay is a float and the power an integer; the product of a
    finite float and a power of two is exact unless it leaves the range
    of the floats, where it is an infinity of its sign: the minimum with
    30.0 and what [time.sleep] does with it are the same for the exact
    product. *)
Definition backoff_delay (base_delay : Q) (attempt : Z) : pyfloat :=
  py_min (Fin (base_delay * inject_Z (2 ^ (attempt - 1)))) (Fin 30).

(** How a handler ends: the loop goes on with the new [attempt], or an
    exception leaves the function. *)
Inductive next :=
| Again (attempt : Z) (s : machine)
| Stop (r : raised) (s : machine).

(** The body the two handlers share, [warn] being the warning each
    prints.  The integer power is converted to a float for the product,
    which raises from 2 ** 1024 on. *)
Definition back_off (e : raised) (warn : Z -> Z -> pyfloat -> note)
    (max_retries : Z) (base_delay : Q) (attempt : Z) (s : machine) : next :=
  let attempt := attempt + 1 in
  if attempt >? max_retries then Stop e s
  else if 1024 <=? attempt - 1 then
    Stop (Other (Exn OverflowError
                     (lit "int too large to convert to float"))) s
  else
    let sleep_for := backoff_delay base_delay attempt in
    let s1 := say (warn attempt max_retries sleep_for) s in
    match nap sleep_for s1 with
    | (Done _, s2) => Again attempt s2
    | (Raised r, s2) => Stop r s2
    end.

(** The handler that takes [e], if one does. *)
Definition handle (e : raised) (url : str) (max_retries : Z)
    (base_delay : Q) (attempt : Z) (s : machine) : next :=
  match e with
  | HTTPError code _ =>
      back_off e (WarnHTTP code url) max_retries base_delay attempt s
  | URLError reason =>
      back_off e (WarnNetwork reason) max_retries base_delay attempt s
  | _ => Stop e s
  end.

(** [while True: ...], for [fuel] passes at most. *)
Fixpoint fetch_loop (fuel : nat) (url : str) (max_retries : Z)
    (base_delay : Q) (attempt : Z) (s : machine)
  : option (outcome str * machine) :=
  match fuel with
  | O => None
  | S fuel' =>
      let s1 := log_open url s in
      match fetch_once (List.length (opened s)) url with
      | Done text => Some (Done text, s1)
      | Raised e =>
          match handle e url max_retries base_delay attempt s1 with
          | Again attempt' s2 =>
              fetch_loop fuel' url max_retries base_delay attempt' s2
          | Stop r s2 => Some (Raised r, s2)
          end
      end
  end.

(** [fetch_with_backoff(url, max_retries, base_delay)]: the loop with
    one pass more than [max_retries], which is all it can take
    ([fetch_loop_fuel] below). *)
Definition fetch_with_backoff (url : str) (max_retries : Z)
    (base_delay : Q) (s : machine) : outcome str * machine :=
  match fetch_loop (S (Z.to_nat max_retries)) url max_retries base_delay 0 s
  with
  | Some r => r
  | None => (Raised (Other (Exn OtherException [])), s)
  end.

(** The defaults of [fetch_with_backoff]. *)
Definition default_max_retries : Z := 8.
Definition default_base_delay : Q := 3 # 2.

(** *** [load_all_proverbs] *)

(** [json.loads(text)], and on [JSONDecodeError] the same on the
    repaired text. *)
Definition loads_repaired (text : str) : outcome json :=
  match json_loads text with
  | Some data => Done data
  | None =>
      let text_fixed := repair_quotes text in
      match json_loads text_fixed with
      | Some data => Done data
      | None => Raised (JSONDecodeError (json_error text_fixed))
      end
  end.

(** The body of [for v in verses]. *)
Definition read_verse (v : json) : outcome entry :=
  match get v (lit "chapter") JNull with
  | Raised r => Raised r
  | Done chap =>
      match get v (lit "verse") JNull with
      | Raised r => Raised r
      | Done num =>
          match get v (lit "text") JNull with
          | Raised r => Raised r
          | Done x =>
              match (if json_truthy x then x else JStr []) with
              | JStr t => Done (Entry chap num (normalize t))
              | y => Raised (no_attribute y (lit "strip"))
              end
          end
      end
  end.

Fixpoint read_verses (items : list json) (all_verses : list entry)
  : outcome (list entry) :=
  match items with
  | [] => Done all_verses
  | v :: rest =>
      match read_verse v with
      | Done e => read_verses rest (all_verses ++ [e])
      | Raised r => Raised r
      end
  end.

Definition no_verses_for (ch : Z) : raised :=
  RuntimeError (lit "No verses found for chapter " ++ str_of_int ch).

(** What the body of the loop does with the text fetched. *)
Definition read_chapter (ch : Z) (text : str) (all_verses : list entry)
  : outcome (list entry) :=
  match loads_repaired text with
  | Raised r => Raised r
  | Done data =>
      match get data (lit "verses") (JList []) with
      | Raised r => Raised r
      | Done verses =>
          if negb (json_truthy verses) then Raised (no_verses_for ch)
          else
            match iterate verses with
            | Raised r => Raised r
            | Done items => read_verses items all_verses
            end
      end
  end.

(** The body of [for ch in range(1, TOTAL_CHAPTERS + 1)]. *)
Definition chapter_body (ch : Z) (all_verses : list entry) (s : machine)
  : outcome (list entry) * machine :=
  let url := API ch in
  let s1 := say (InfoFetching url) s in
  match fetch_with_backoff url default_max_retries default_base_delay s1 with
  | (Raised r, s2) => (Raised r, s2)
  | (Done text, s2) =>
      match read_chapter ch text all_verses with
      | Raised r => (Raised r, s2)
      | Done all_verses' =>
          match nap (Fin (8 # 10)) s2 with
          | (Done _, s3) => (Done all_verses', s3)
          | (Raised r, s3) => (Raised r, s3)
          end
      end
  end.

Fixpoint chapters_loop (chs : list Z) (all_verses : list entry)
    (s : machine) : outcome (list entry) * machine :=
  match chs with
  | [] => (Done all_verses, s)
  | ch :: rest =>
      match chapter_body ch all_verses s with
      | (Done all_verses', s1) => chapters_loop rest all_verses' s1
      | (Raised r, s1) => (Raised r, s1)
      end
  end.

Definition load_all_proverbs (s : machine) : outcome (list entry) * machine :=
  chapters_loop (range 1 (TOTAL_CHAPTERS + 1)) [] s.

(** *** [write_outputs] *)

(** The line of a verse. *)
Definition out_line (v : entry) : str :=
  lit "Proverbs " ++ format_value (e_chapter v) ++ lit ":"
  ++ format_value (e_verse v) ++ lit "  " ++ e_text v ++ [10%N].

(** [for v in verses: f.write(...)]: what the file holds when the loop
    ends or a write raises. *)
Fixpoint write_lines (lines : list str) (written : str)
  : outcome unit * str :=
  match lines with
  | [] => (Done tt, written)
  | l :: rest =>
      if encodable l
      then write_lines rest (written ++ translate_newlines (os E) l)
      else (Raised UnicodeEncodeError, written)
  end.

(** UTF-8 encodes what [json.dumps] makes of the list: with
    [ensure_ascii=False] the dump holds the strings of the verses as
    they are, and ASCII around them. *)
Definition dump_encodable (verses : list entry) : bool :=
  forallb (fun v => json_encodable (e_chapter v)
                    && json_encodable (e_verse v)
                    && encodable (e_text v)) verses.

Definition write_outputs (verses : list entry) (s : machine)
  : outcome unit * machine :=
  match cache_io E with
  | Some e => (Raised e, s)
  | None =>
      if negb (dump_encodable verses)
      then (Raised UnicodeEncodeError, set_cache CacheBroken s)
      else
      let s1 := set_cache (CacheDump verses) s in
      match out_io E with
      | Some e => (Raised e, s1)
      | None =>
          match write_lines (List.map out_line verses) [] with
          | (Raised r, written) => (Raised r, set_out (Content written) s1)
          | (Done _, written) =>
              (Done tt,
               say OkCached
                   (say (OkWrote (Z.of_nat (List.length verses)))
                        (set_out (Content written) s1)))
          end
      end
  end.

(** *** [main] *)

(** [main()]: the exception that leaves it, if one does. *)
Definition main (s : machine) : option raised * machine :=
  let (r, s2) :=
    match load_all_proverbs s with
    | (Done verses, s1) => write_outputs verses s1
    | (Raised x, s1) => (Raised x, s1)
    end in
  match r with
  | Done _ => (None, say NoteDone s2)
  | Raised x =>
      if caught_by_Exception x then (None, say (NoteError x) s2)
      else (Some x, s2)
  end.

End Script.

(** The file [OUT_TXT] as the program finds it. *)
Definition out_path (s : machine) : path := Path OUT_TXT (out_txt s).

End Kjv.

(** ** Notions and samples for the script *)

Module KjvNotions.
Import PyStr Exc Corpus World Kjv.
Local Open Scope Z_scope.

Definition starts_with_space (s : str) : bool :=
  match s with
  | [] => false
  | c :: _ => isspace c
  end.

(** A text whose white space is single blanks: every white-space
    character is U+0020 and the character after it is none. *)
Fixpoint single_blanks (s : str) : bool :=
  match s with
  | [] => true
  | c :: r =>
      (negb (isspace c) || (ch_eqb c 32%N && negb (starts_with_space r)))
      && single_blanks r
  end.

(** The characters that are not white space, in their order. *)
Definition ink (s : str) : str := filter (fun c => negb (isspace c)) s.

(** A delay that [time.sleep] takes and the cap of the script allows. *)
Definition short_nap (d : pyfloat) : Prop :=
  exists q, d = Fin q /\ (0 <= q)%Q /\ (q <= 30)%Q.


(** A verse as the service gives it: chapter and verse are integers
    that are not negative. *)
Definition numbered (v : entry) : Prop :=
  exists c n, e_chapter v = JInt c /\ e_verse v = JInt n
              /\ 0 <= c /\ 0 <= n.

(** The reference the program reads back for it. *)
Definition reference_of (v : entry) : str :=
  match e_chapter v, e_verse v with
  | JInt c, JInt n =>
      lit "Proverbs " ++ str_of_int c ++ lit ":" ++ str_of_int n
  | _, _ => PLACEHOLDER
  end.

(** The digits of ASCII are decimal digits of the database. *)
Definition knows_ascii_digits (U : UnicodeData) : Prop :=
  forall c, ascii_isdecimal c = true -> isdecimal c = true.

(** A verse the program can read back: numbered, with a text that is
    not empty, is normalised and can be encoded. *)
Definition loadable (v : entry) : Prop :=
  numbered v /\ e_text v <> [] /\ normalize (e_text v) = e_text v
  /\ encodable (e_text v) = true.

(** [v.get(k)] on a dictionary, [None] standing for a key that is not
    there. *)
Definition field (v : json) (k : str) : json :=
  match v with
  | JDict d => match Chat.dict_get d k with Some x => x | None => JNull end
  | _ => JNull
  end.

(** The entry [read_verse] makes of an item it accepts. *)
Definition entry_of (v : json) : entry :=
  Entry (field v (lit "chapter")) (field v (lit "verse"))
        (match field v (lit "text") with
         | JStr t => normalize t
         | _ => []
         end).

(** The chapters in the order of the loop. *)
Definition chapters : list Z := range 1 (TOTAL_CHAPTERS + 1).

(** A service in order: each call for a chapter is answered with a body
    that [json.loads] reads, as it is or repaired, as a dictionary whose
    verses are the items [served] names, one at least, each an item
    [read_verse] accepts. *)
Definition in_order {J : JsonLib} (E : site) (served : Z -> list json)
  : Prop :=
  forall ch, In ch chapters ->
    served ch <> []
    /\ Forall (fun v => exists e, read_verse v = Done e) (served ch)
    /\ forall n, exists text d,
         fetch_once E n (API ch) = Done text
         /\ loads_repaired text = Done (JDict d)
         /\ Chat.dict_get d (lit "verses") = Some (JList (served ch)).

(** All the verses of such a service, as the script keeps them. *)
Definition all_entries (served : Z -> list json) : list entry :=
  flat_map (fun ch => List.map entry_of (served ch)) chapters.

(** The last thing printed. *)
Definition last_note (s : machine) : option note :=
  hd_error (rev (notes s)).

End KjvNotions.

(** ** Sample surroundings of the script *)

Module KjvSamples.
Import PyStr Exc Corpus World Kjv.
Local Open Scope Z_scope.

(** The start of the script: nothing done, no output file yet. *)
Definition boot : machine := Machine [] [] [] CacheAsFound Missing.

(** The body of an answer and the value [json.loads] makes of it: one
    verse, its text with white space to normalise. *)
Definition chapter_text : str :=
  lit "{verses: [{chapter: 1, verse: 7, text: ...}]}".

Definition sample_item : json :=
  JDict [(lit "chapter", JInt 1); (lit "verse", JInt 7);
         (lit "text",
          JStr (lit "The fear of the LORD is the beginning"
                ++ [10%N] ++ lit "of  knowledge" ++ [10%N]))].

Definition chapter_json : json :=
  JDict [(lit "reference", JStr (lit "Proverbs 1"));
         (lit "verses", JList [sample_item])].

Definition sample_served : Z -> list json := fun _ => [sample_item].

(** A reader of JSON and a formatter to compute with: the reader knows
    the one body above, the formatter is used on integers only. *)
Definition sample_json : JsonLib :=
  {| json_loads := fun s => if str_eqb s chapter_text
                            then Some chapter_json else None;
     json_error := fun _ => lit "Expecting value: line 1 column 1 (char 0)" |}.

Definition sample_repr : PyRepr :=
  {| float_repr := fun _ => lit "nan";
     container_repr := fun _ => lit "[...]" |}.

Definition good_response : http_response :=
  HttpResponse 200 (Done chapter_text).

(** Surroundings with the network [net], files that can be written and
    the platform [o]. *)
Definition serving (net : nat -> str -> outcome http_response)
    (o : os_name) : site :=
  Site net None None o.

(** A service that answers every call. *)
Definition steady : nat -> str -> outcome http_response :=
  fun _ _ => Done good_response.




(** Two verses as [load_all_proverbs] keeps them. *)
Definition two_verses : list entry :=
  [ Entry (JInt 1) (JInt 7)
          (lit "The fear of the LORD is the beginning of knowledge");
    Entry (JInt 6) (JInt 6) (lit "Go to the ant, thou sluggard") ].

End KjvSamples.

(** * Facts *)

(** ** Strings *)

Section StringFacts.
Import PyStr.

Lemma span_spec (p : char -> bool) (s a b : str) :
  span p s = (a, b) ->
  s = a ++ b /\ forallb p a = true /\ hd_error (List.map p b) <> Some true.
Proof.
  revert a b; induction s as [|c r IH]; simpl; intros a b H.
  - inversion H; subst; simpl; repeat split; congruence.
  - destruct (p c) eqn:Hc.
    + destruct (span p r) as [a' b'] eqn:Hs. inversion H; subst.
      destruct (IH a' b eq_refl) as (-> & Ha & Hb).
      simpl. rewrite Hc, Ha. repeat split; assumption.
    + inversion H; subst; simpl. rewrite Hc. repeat split; congruence.
Qed.

Lemma span_app (p : char -> bool) (a b : str) :
  forallb p a = true ->
  hd_error (List.map p b) <> Some true ->
  span p (a ++ b) = (a, b).
Proof.
  intros Ha Hb; induction a as [|c a IH]; simpl in *.
  - destruct b as [|c b]; simpl in *; [reflexivity|].
    destruct (p c); [congruence | reflexivity].
  - apply andb_true_iff in Ha as [Hc Ha]. rewrite Hc, (IH Ha). reflexivity.
Qed.

Lemma lstrip_spec (s : str) :
  exists ws, s = ws ++ lstrip s /\ forallb isspace ws = true
             /\ hd_error (List.map isspace (lstrip s)) <> Some true.
Proof.
  induction s as [|c r (ws & E & Hws & Hh)]; simpl.
  - exists []; repeat split; simpl; congruence.
  - destruct (isspace c) eqn:Hc.
    + exists (c :: ws); simpl. rewrite Hc, Hws. repeat split; congruence.
    + exists []; simpl. rewrite Hc. repeat split; congruence.
Qed.

Lemma lstrip_fixed (s : str) :
  hd_error (List.map isspace s) <> Some true -> lstrip s = s.
Proof.
  destruct s as [|c r]; simpl; [reflexivity|].
  destruct (isspace c); congruence.
Qed.

Lemma lstrip_app_space (ws s : str) :
  forallb isspace ws = true -> lstrip (ws ++ s) = lstrip s.
Proof.
  induction ws as [|c ws IH]; simpl; intros H; [reflexivity|].
  apply andb_true_iff in H as [Hc H]. rewrite Hc. auto.
Qed.

Lemma lstrip_nil_iff (s : str) : lstrip s = [] <-> forallb isspace s = true.
Proof.
  induction s as [|c r IH]; simpl; [tauto|].
  destruct (isspace c); simpl; [exact IH|]. split; congruence.
Qed.

Lemma forallb_rev (A : Type) (p : A -> bool) (l : list A) :
  forallb p (rev l) = forallb p l.
Proof.
  induction l as [|x l IH]; simpl; [reflexivity|].
  rewrite forallb_app, IH; simpl. rewrite andb_true_r. apply andb_comm.
Qed.

(** [strip] cuts white space off both ends and nothing else. *)
Lemma strip_spec (s : str) :
  exists a b, s = a ++ strip s ++ b
              /\ forallb isspace a = true /\ forallb isspace b = true.
Proof.
  unfold strip, rstrip.
  destruct (lstrip_spec s) as (a & Ea & Ha & _).
  destruct (lstrip_spec (rev (lstrip s))) as (b & Eb & Hb & _).
  exists a, (rev b). repeat split; [|assumption|now rewrite forallb_rev].
  rewrite Ea at 1. f_equal.
  rewrite <- (rev_involutive (lstrip s)) at 1. rewrite Eb at 1.
  now rewrite rev_app_distr.
Qed.

(** What [strip] returns does not end in white space. *)
Lemma strip_no_trailing_space (s pre ws : str) :
  strip s = pre ++ ws -> forallb isspace ws = true -> ws = [].
Proof.
  unfold strip, rstrip; intros E Hws.
  destruct (lstrip_spec (rev (lstrip s))) as (_ & _ & _ & Hh).
  apply (f_equal (@rev char)) in E.
  rewrite rev_involutive, rev_app_distr in E. rewrite E in Hh.
  destruct (rev ws) as [|c t] eqn:Er.
  - apply (f_equal (@rev char)) in Er. now rewrite rev_involutive in Er.
  - exfalso. apply Hh. simpl.
    assert (Hc : forallb isspace (rev ws) = true) by now rewrite forallb_rev.
    rewrite Er in Hc; simpl in Hc. apply andb_true_iff in Hc as [-> _].
    reflexivity.
Qed.

Lemma strip_nil_iff (s : str) : strip s = [] <-> forallb isspace s = true.
Proof.
  split.
  - intros E. destruct (strip_spec s) as (a & b & Es & Ha & Hb).
    rewrite E in Es; simpl in Es. rewrite Es, forallb_app, Ha, Hb. reflexivity.
  - intros H. unfold strip, rstrip.
    apply lstrip_nil_iff in H. rewrite H. reflexivity.
Qed.

Lemma truthy_strip (s : str) :
  truthy (strip s) = negb (forallb isspace s).
Proof.
  destruct (forallb isspace s) eqn:H.
  - apply strip_nil_iff in H. rewrite H. reflexivity.
  - destruct (strip s) eqn:E; [|reflexivity].
    apply strip_nil_iff in E. congruence.
Qed.

End StringFacts.

(** ** CorpusStore *)

Section CorpusFacts.
Import PyStr Exc Corpus.
Context {U : UnicodeData}.

Lemma ci_literal_spec (pat s w r : str) :
  ci_literal pat s = Some (w, r) ->
  s = w ++ r /\ Forall2 (fun p c => ci_char p c = true) pat w.
Proof.
  revert s w r; induction pat as [|p pat IH]; simpl; intros s w r H.
  - inversion H; subst. split; [reflexivity | constructor].
  - destruct s as [|c s]; [discriminate|].
    destruct (ci_char p c) eqn:Hc; [|discriminate].
    destruct (ci_literal pat s) as [[m r']|] eqn:Hm; [|discriminate].
    inversion H; subst. destruct (IH _ _ _ Hm) as (-> & HF).
    split; [reflexivity | constructor; assumption].
Qed.

Lemma ci_literal_app (pat w r : str) :
  Forall2 (fun p c => ci_char p c = true) pat w ->
  ci_literal pat (w ++ r) = Some (w, r).
Proof.
  induction 1 as [|p c pat w Hc _ IH]; simpl; [reflexivity|].
  rewrite Hc, IH. reflexivity.
Qed.

(** The first letter of the word is not white space, so the optional
    white space in front of it is taken whole. *)
Lemma ci_P_not_space (c : char) :
  ci_char 80%N c = true -> isspace c = false.
Proof.
  unfold ci_char, ch_eqb, ascii_lower; simpl.
  rewrite orb_false_r. intros H. apply N.eqb_eq in H.
  destruct ((65 <=? c) && (c <=? 90))%N eqn:Hr.
  - assert (c = 80%N) by lia. subst; reflexivity.
  - subst; reflexivity.
Qed.

Lemma dot_star_end_no_newline (s : str) :
  ~ In 10%N s -> dot_star_end s = Some s.
Proof.
  intros H. unfold dot_star_end.
  rewrite <- (app_nil_r s) at 1. rewrite span_app.
  - reflexivity.
  - apply forallb_forall. intros c Hc. apply negb_true_iff.
    apply N.eqb_neq. intros ->. contradiction.
  - simpl; congruence.
Qed.

Lemma dot_star_end_nonempty (s body : str) :
  hd_error (List.map isspace s) <> Some true -> s <> [] ->
  dot_star_end s = Some body -> body <> [].
Proof.
  unfold dot_star_end. destruct s as [|c r]; [congruence|]. intros Hh _.
  simpl in *. destruct (ch_eqb c 10%N) eqn:Hc.
  - apply N.eqb_eq in Hc; subst. exfalso. apply Hh. reflexivity.
  - simpl. destruct (span _ r) as [g t].
    destruct t as [|? [|? ?]]; intros E; inversion E; congruence.
Qed.

(** A match of [REF_RE] lays the line out as the pattern reads. *)
Lemma REF_RE_match_sound (ln ref body : str) :
  REF_RE_match ln = Some (ref, body) ->
  exists ws0 w ws1 d1 d2 ws2 s6,
    ln = ws0 ++ w ++ ws1 ++ d1 ++ [58%N] ++ d2 ++ ws2 ++ s6
    /\ ref = w ++ ws1 ++ d1 ++ [58%N] ++ d2
    /\ forallb isspace ws0 = true
    /\ Forall2 (fun p c => ci_char p c = true) (lit "Proverbs") w
    /\ (ws1 <> [] /\ forallb isspace ws1 = true)
    /\ (d1 <> [] /\ forallb isdecimal d1 = true)
    /\ (d2 <> [] /\ forallb isdecimal d2 = true)
    /\ (ws2 <> [] /\ forallb isspace ws2 = true)
    /\ hd_error (List.map isspace s6) <> Some true
    /\ dot_star_end s6 = Some body.
Proof.
  unfold REF_RE_match. intros H.
  destruct (lstrip_spec ln) as (ws0 & E0 & H0 & _).
  destruct (ci_literal (lit "Proverbs") (lstrip ln)) as [[w s1]|] eqn:Hw;
    [|discriminate].
  apply ci_literal_spec in Hw as (E1 & HF).
  destruct (span isspace s1) as [ws1 s2] eqn:S1.
  destruct (span isdecimal s2) as [d1 s3] eqn:S2.
  destruct s3 as [|c s4]; [discriminate|].
  destruct (span isdecimal s4) as [d2 s5] eqn:S3.
  destruct (span isspace s5) as [ws2 s6] eqn:S4.
  destruct (nonempty ws1 && nonempty d1 && ch_eqb c 58%N && nonempty d2
            && nonempty ws2) eqn:G; [|discriminate].
  repeat (apply andb_true_iff in G as [G ?]).
  destruct (dot_star_end s6) as [b|] eqn:D; [|discriminate].
  inversion H; subst ref b. clear H.
  apply span_spec in S1 as (-> & A1 & _).
  apply span_spec in S2 as (-> & A2 & _).
  apply span_spec in S3 as (-> & A3 & _).
  apply span_spec in S4 as (-> & A4 & B4).
  match goal with Hc : ch_eqb c 58%N = true |- _ => apply N.eqb_eq in Hc; subst c end.
  exists ws0, w, ws1, d1, d2, ws2, s6.
  assert (NE : forall s : str, nonempty s = true -> s <> [])
    by (intros [|? ?]; simpl; congruence).
  repeat split; auto.
  rewrite E0 at 1. rewrite E1. reflexivity.
Qed.

(** A line in the format of [ref_line] is matched, with the groups the
    format names. *)
Lemma REF_RE_match_complete (ln ref body : str) :
  digits_sane U -> ~ In 10%N ln ->
  ref_line ln ref body -> REF_RE_match ln = Some (ref, body).
Proof.
  intros [Dsp Dcol] Hnl H.
  destruct H as [ws0 w ws1 d1 d2 ws2 body H0 HF N1 H1 M1 G1 M2 G2 N2 H2 Hb].
  assert (Hbody : ~ In 10%N body).
  { intros Hi. apply Hnl. rewrite !in_app_iff. tauto. }
  assert (hd_space_of_digit : forall d t : str, d <> [] ->
            forallb isdecimal d = true ->
            hd_error (List.map isspace (d ++ t)) <> Some true).
  { intros [|c d] t Hd Hall; [congruence|]. simpl in *.
    apply andb_true_iff in Hall as [Hc _]. rewrite (Dsp _ Hc). congruence. }
  assert (hd_digit_of_space : forall d t : str, d <> [] ->
            forallb isspace d = true ->
            hd_error (List.map isdecimal (d ++ t)) <> Some true).
  { intros [|c d] t Hd Hall; [congruence|]. simpl in *.
    apply andb_true_iff in Hall as [Hc _].
    destruct (isdecimal c) eqn:Hdc; [|congruence].
    rewrite (Dsp _ Hdc) in Hc. discriminate. }
  unfold REF_RE_match.
  rewrite lstrip_app_space by assumption.
  rewrite lstrip_fixed.
  2:{ change (lit "Proverbs") with (80%N :: lit "roverbs") in HF.
      inversion HF as [|p c pat w' Hc HF']; subst. simpl.
      rewrite (ci_P_not_space _ Hc). congruence. }
  rewrite (ci_literal_app _ HF).
  rewrite (span_app isspace ws1) by auto.
  rewrite (span_app isdecimal d1);
    [|assumption | simpl; rewrite Dcol; congruence].
  cbn [app].
  rewrite (span_app isdecimal d2) by auto.
  rewrite (span_app isspace ws2);
    [|assumption
     | rewrite <- Hb; destruct (lstrip_spec body) as (? & _ & _ & Hh);
       exact Hh].
  assert (NE : forall s : str, s <> [] -> nonempty s = true)
    by (intros [|? ?]; simpl; congruence).
  rewrite !NE by assumption. simpl.
  rewrite (dot_star_end_no_newline body Hbody). reflexivity.
Qed.

(** *** Lines of a file *)

Definition line_shape (l : str) : Prop :=
  forall a b, l = a ++ 10%N :: b -> b = [].

Lemma file_lines_shape (s : str) : Forall line_shape (file_lines s).
Proof.
  induction s as [|c r IH]; simpl; [constructor|].
  destruct (ch_eqb c 10%N) eqn:Hc.
  - constructor; [|assumption].
    intros [|x a] b E; simpl in E; inversion E; subst; [reflexivity|].
    destruct a; discriminate.
  - apply N.eqb_neq in Hc.
    destruct (file_lines r) as [|l ls].
    + constructor; [|constructor].
      intros [|x a] b E; simpl in E; inversion E; subst; [congruence|].
      destruct a; discriminate.
    + inversion IH as [|? ? Hl Hls]; subst. constructor; [|assumption].
      intros [|x a] b E; simpl in E; inversion E; subst; [congruence|].
      eapply Hl; reflexivity.
Qed.

Lemma strip_no_newline (l : str) : line_shape l -> ~ In 10%N (strip l).
Proof.
  intros Hl Hi. apply in_split in Hi as (u & v & E).
  destruct (strip_spec l) as (a & b & El & _ & _).
  rewrite E in El.
  assert (Hv : v ++ b = []).
  { apply (Hl (a ++ u)). rewrite El. rewrite <- !app_assoc. reflexivity. }
  apply app_eq_nil in Hv as [-> _].
  assert (C : [10%N] = []) by (eapply strip_no_trailing_space; eauto).
  discriminate.
Qed.

(** *** The loader *)

Lemma load_loop_map (lines : list str) (acc : list verse) :
  load_loop lines acc
  = acc ++ List.map (fun l => parse_line (strip l))
                    (filter (fun ln => negb (blank ln)) lines).
Proof.
  revert acc; induction lines as [|l ls IH]; intros acc; simpl.
  - now rewrite app_nil_r.
  - rewrite truthy_strip, negb_involutive. unfold blank at 1.
    destruct (forallb isspace l); simpl; rewrite IH; [reflexivity|].
    now rewrite <- app_assoc.
Qed.

Lemma load_verses_map (p : path) (text : str) :
  state p = Content text -> nonblank_lines text <> [] ->
  load_verses p
  = Ok (List.map (fun l => parse_line (strip l)) (nonblank_lines text)).
Proof.
  intros Hp Hne. unfold load_verses. rewrite Hp, load_loop_map. simpl.
  fold (nonblank_lines text).
  destruct (nonblank_lines text); [congruence | reflexivity].
Qed.

Lemma parse_line_text_nonempty (l : str) :
  blank l = false -> snd (parse_line (strip l)) <> [].
Proof.
  intros Hb. unfold parse_line.
  assert (Hs : strip l <> []).
  { intros E. apply strip_nil_iff in E. unfold blank in Hb. congruence. }
  destruct (REF_RE_match (strip l)) as [[ref body]|] eqn:M; simpl; [|exact Hs].
  apply REF_RE_match_sound in M
    as (ws0 & w & ws1 & d1 & d2 & ws2 & s6 & E & _ & _ & _ & _ & _ & _
        & [N2 H2] & Hh & D).
  apply (dot_star_end_nonempty Hh); [|exact D].
  intros ->. apply N2.
  apply (@strip_no_trailing_space l
           (ws0 ++ w ++ ws1 ++ d1 ++ [58%N] ++ d2) ws2); [|exact H2].
  rewrite E, app_nil_r, <- !app_assoc. reflexivity.
Qed.

End CorpusFacts.

Section CorpusProperties.
Import PyStr Exc Corpus Samples.

Lemma ascii_digits_sane : digits_sane ascii_digits.
Proof.
  split; [|reflexivity].
  intros c H. simpl in H. unfold ascii_isdecimal in H.
  apply andb_true_iff in H as [H1 H2].
  apply N.leb_le in H1, H2. unfold isspace.
  repeat match goal with
         | |- context [N.leb ?a ?b] =>
             first [ replace (N.leb a b) with false by (symmetry; apply N.leb_gt; lia)
                   | replace (N.leb a b) with true by (symmetry; apply N.leb_le; lia) ]
         | |- context [N.eqb ?a ?b] =>
             replace (N.eqb a b) with false by (symmetry; apply N.eqb_neq; lia)
         end.
  reflexivity.
Qed.

(** C8.  For a corpus file with at least one line that is not blank,
    [load_verses] returns a list with one record per such line, and the
    text of every record is a non-empty string. *)
Theorem load_verses_length_and_texts
    (U : UnicodeData) (p : path) (text : str) :
  state p = Content text ->
  nonblank_lines text <> [] ->
  exists verses,
    load_verses p = Ok verses
    /\ List.length verses = List.length (nonblank_lines text)
    /\ Forall (fun v : verse => snd v <> []) verses.
Proof.
  intros Hp Hne. eexists. split; [apply (load_verses_map p Hp Hne)|].
  split; [apply length_map|].
  apply Forall_forall. intros v Hv.
  apply in_map_iff in Hv as (l & <- & Hl).
  apply parse_line_text_nonempty.
  unfold nonblank_lines in Hl. apply filter_In in Hl as [_ Hl].
  now apply negb_true_iff in Hl.
Qed.

Lemma load_verses_length_and_texts_witness :
  exists verses,
    @load_verses ascii_digits two_line_corpus = Ok verses
    /\ List.length verses = 2%nat
    /\ Forall (fun v : verse => snd v <> []) verses.
Proof.
  apply (@load_verses_length_and_texts ascii_digits two_line_corpus
           corpus_text).
  - reflexivity.
  - vm_compute. discriminate.
Defined.

(** C9, as the code has it.  The records of [load_verses] are
    [parse_line] of the stripped lines that are not blank, in order; such
    a line is split into reference and text exactly when it has the
    format of [ref_line], where ONE white-space character or more
    separates the reference from the text, and every other line becomes a
    record with the placeholder reference and the whole line as text. *)
Theorem line_split_iff_ref_format
    (U : UnicodeData) (p : path) (text : str) :
  digits_sane U ->
  state p = Content text ->
  nonblank_lines text <> [] ->
  load_verses p
  = Ok (List.map (fun l => parse_line (strip l)) (nonblank_lines text))
  /\ forall l, In l (nonblank_lines text) ->
       (exists ref body,
           ref_line (strip l) ref body
           /\ parse_line (strip l) = (ref, body))
       \/ ((forall ref body, ~ ref_line (strip l) ref body)
           /\ parse_line (strip l) = (PLACEHOLDER, strip l)).
Proof.
  intros HU Hp Hne. split; [apply (load_verses_map p Hp Hne)|].
  intros l Hl.
  assert (Hnl : ~ In 10%N (strip l)).
  { apply strip_no_newline. unfold nonblank_lines in Hl.
    apply filter_In in Hl as [Hl _].
    exact (proj1 (Forall_forall _ _) (file_lines_shape _) l Hl). }
  unfold parse_line.
  destruct (REF_RE_match (strip l)) as [[ref body]|] eqn:M.
  - left. exists ref, body. split; [|reflexivity].
    apply REF_RE_match_sound in M
      as (ws0 & w & ws1 & d1 & d2 & ws2 & s6 & E & -> & H0 & HF
          & [N1 H1] & [M1 G1] & [M2 G2] & [N2 H2] & Hh & D).
    assert (Hs6 : ~ In 10%N s6).
    { intros Hi. apply Hnl. rewrite E, !in_app_iff. tauto. }
    rewrite (dot_star_end_no_newline s6 Hs6) in D. injection D as <-.
    rewrite E. constructor; auto using lstrip_fixed.
  - right. split; [|reflexivity].
    intros ref body HR.
    rewrite (REF_RE_match_complete HU Hnl HR) in M. discriminate.
Qed.

Lemma line_split_iff_ref_format_witness :
  @load_verses ascii_digits two_line_corpus
  = Ok [(lit "Proverbs 1:7", lit "The fear of the LORD");
        (lit "Proverbs ?", lit "Go to the ant")].
Proof.
  exact (proj1 (@line_split_iff_ref_format ascii_digits two_line_corpus _
                  ascii_digits_sane eq_refl
                  (fun E => @nil_cons _ _ _ (eq_sym E)))).
Defined.

(** C9, as the specification words it, fails: a line whose reference is
    followed by a single space is split all the same. *)
Lemma single_space_line_is_split :
  @load_verses ascii_digits single_space_corpus
  = Ok [(lit "Proverbs 1:7", lit "The fear of the LORD")]
  /\ @parse_line ascii_digits (lit "Proverbs 1:7 The fear of the LORD")
     <> (PLACEHOLDER, lit "Proverbs 1:7 The fear of the LORD").
Proof.
  split; [reflexivity | vm_compute; discriminate].
Qed.

End CorpusProperties.

(** ** RenderEngine *)

Section RenderFacts.
Import PyStr Render.
Local Open Scope Z_scope.

Lemma len_app (a b : str) : len (a ++ b) = len a + len b.
Proof. unfold len. rewrite length_app. lia. Qed.

Lemma len_times_one (c : char) (n : Z) : len (times [c] n) = Z.max 0 n.
Proof.
  unfold times, len.
  assert (H : forall k, List.length (List.concat (List.repeat [c] k)) = k).
  { induction k; simpl; congruence. }
  rewrite H. lia.
Qed.

Lemma no_esc_times_one (c : char) (n : Z) :
  ch_eqb c ESC = false -> no_esc (times [c] n).
Proof.
  intros Hc. unfold no_esc, times.
  induction (Z.to_nat n) as [|k IH]; simpl; [reflexivity|].
  now rewrite Hc, IH.
Qed.

Lemma no_esc_app (a b : str) : no_esc a -> no_esc b -> no_esc (a ++ b).
Proof. unfold no_esc. intros Ha Hb. now rewrite forallb_app, Ha, Hb. Qed.

Lemma no_esc_app_inv (a b : str) : no_esc (a ++ b) -> no_esc a /\ no_esc b.
Proof. unfold no_esc. rewrite forallb_app. apply andb_true_iff. Qed.

Lemma no_esc_strip (s : str) : no_esc s -> no_esc (strip s).
Proof.
  intros H. destruct (strip_spec s) as (a & b & E & _ & _).
  rewrite E in H. apply no_esc_app_inv in H as [_ H].
  now apply no_esc_app_inv in H as [H _].
Qed.

(** [center] pads to the width and never cuts. *)
Lemma len_center (s : str) (width : Z) :
  len (center s width) = Z.max (len s) width.
Proof.
  unfold center. destruct (Z.leb_spec (width - len s) 0) as [H|H]; [lia|].
  assert (Hb : 0 <= Z.land (Z.land (width - len s) width) 1 <= 1).
  { pose proof (Z.land_ones (Z.land (width - len s) width) 1
                  ltac:(lia)) as L.
    change (Z.ones 1) with 1 in L. rewrite L.
    pose proof (Z.mod_pos_bound (Z.land (width - len s) width) (2 ^ 1)
                  ltac:(reflexivity)).
    change (2 ^ 1) with 2 in *. lia. }
  assert (Hh : 0 <= (width - len s) / 2
               /\ 2 * ((width - len s) / 2) <= width - len s).
  { split; [apply Z.div_pos; lia | apply Z.mul_div_le; lia]. }
  assert (Hone : width - len s = 1 -> (width - len s) / 2 = 0).
  { intros ->. reflexivity. }
  rewrite !len_app. unfold spaces. rewrite !len_times_one. lia.
Qed.

Lemma no_esc_center (s : str) (width : Z) :
  no_esc s -> no_esc (center s width).
Proof.
  intros H. unfold center. destruct (_ <=? 0); [assumption|].
  unfold spaces.
  repeat apply no_esc_app; auto using no_esc_times_one.
Qed.

(** Plain text counts in full, and an escape of the tables counts for
    nothing. *)
Lemma visible_plain_app (a b : str) :
  no_esc a -> visible_from Plain (a ++ b) = len a + visible_from Plain b.
Proof.
  unfold no_esc, len. induction a as [|c a IH]; intros H.
  - reflexivity.
  - cbn [forallb] in H. apply andb_true_iff in H as [Hc Ha].
    apply negb_true_iff in Hc. cbn [app visible_from]. rewrite Hc, (IH Ha).
    cbn [List.length]. lia.
Qed.

Lemma visible_plain (a : str) : no_esc a -> visible_width a = len a.
Proof.
  intros H. unfold visible_width. rewrite <- (app_nil_r a) at 1.
  rewrite (visible_plain_app _ H). cbn [visible_from]. lia.
Qed.

Lemma visible_RESET (b : str) :
  visible_from Plain (RESET ++ b) = visible_from Plain b.
Proof. reflexivity. Qed.

Lemma visible_BOLD (b : str) :
  visible_from Plain (BOLD ++ b) = visible_from Plain b.
Proof. reflexivity. Qed.

Lemma visible_FG (c : color) (b : str) :
  visible_from Plain (FG c ++ b) = visible_from Plain b.
Proof. destruct c; reflexivity. Qed.

(** The frame of the box.  With a padding that is not negative and a
    reference that fits, the top and the bottom border take the interior
    width, the padding twice and the two corners; the reference row and
    the separator row take the padding once more. *)
Lemma box_frame_widths (T : TextWrap) (w : Z) (ref text : str) (pad : Z)
    (color_ref color_text : color) :
  0 <= pad -> no_esc ref ->
  len (strip ref) <= inner_width w pad + pad * 2 ->
  let rows := box_lines w ref text pad color_ref color_text in
  let frame := inner_width w pad + pad * 2 + 2 in
  List.map visible_width (firstn 3 rows) = [frame; frame + pad; frame + pad]
  /\ visible_width (last rows []) = frame.
Proof.
  intros Hpad Href Hfit rows frame. subst rows frame.
  assert (Hin : 20 <= inner_width w pad) by (unfold inner_width; lia).
  assert (Hh : ch_eqb 9472%N ESC = false) by reflexivity.
  assert (Hsp : ch_eqb 32%N ESC = false) by reflexivity.
  unfold box_lines. rewrite !app_assoc, last_last.
  rewrite <- !app_assoc. cbn [app firstn List.map].
  unfold visible_width, BOX_tl, BOX_tr, BOX_bl, BOX_br, BOX_v, BOX_h, spaces.
  cbn [app visible_from]. cbv [ch_eqb ESC N.eqb Pos.eqb].
  rewrite !(visible_plain_app _ (no_esc_times_one _ _ Hh)).
  rewrite !(visible_plain_app _ (no_esc_times_one _ _ Hsp)).
  rewrite visible_BOLD, !visible_FG.
  rewrite (visible_plain_app _ (no_esc_center _ (no_esc_strip Href))).
  rewrite (visible_plain_app _ (no_esc_times_one _ _ Hh)).
  rewrite !visible_RESET. cbn [visible_from]. cbv [ch_eqb ESC N.eqb Pos.eqb].
  rewrite len_center, !len_times_one.
  split; [|lia].
  f_equal; [lia|]. f_equal; [lia|]. f_equal. lia.
Qed.

(** A text row of the box, for a wrapped line that fits the interior:
    it is as wide as the borders. *)
Lemma box_text_row_width (ln : str) (inner pad : Z) (color_text : color) :
  0 <= pad -> no_esc ln -> len ln <= inner ->
  visible_width (BOX_v ++ spaces pad ++ FG color_text ++ ljust ln inner
                 ++ RESET ++ spaces pad ++ BOX_v)
  = inner + pad * 2 + 2.
Proof.
  intros Hpad Hln Hfit.
  assert (Hsp : ch_eqb 32%N ESC = false) by reflexivity.
  unfold visible_width, BOX_v, spaces, ljust.
  cbn [app visible_from]. cbv [ch_eqb ESC N.eqb Pos.eqb].
  rewrite (visible_plain_app _ (no_esc_times_one _ _ Hsp)), visible_FG.
  rewrite <- app_assoc, (visible_plain_app _ Hln).
  unfold spaces.
  rewrite (visible_plain_app _ (no_esc_times_one _ _ Hsp)), visible_RESET.
  rewrite (visible_plain_app _ (no_esc_times_one _ _ Hsp)).
  cbn [visible_from]. cbv [ch_eqb ESC N.eqb Pos.eqb].
  rewrite !len_times_one. lia.
Qed.

End RenderFacts.

Section RenderProperties.
Import PyStr Render.
Local Open Scope Z_scope.

(** C7.  The interior width of [box_text] is the terminal width less the
    two borders and the padding on both sides, held between 20 and 120;
    with padding 2, a terminal of 22 columns gives 20 and one of 200
    columns gives 120. *)
Theorem inner_width_is_clamp :
  (forall W p : Z, inner_width W p = clamp (W - 2 * (1 + p)) 20 120)
  /\ inner_width 22 2 = 20
  /\ inner_width 200 2 = 120.
Proof.
  split; [|split; reflexivity].
  intros W p. unfold inner_width, clamp.
  destruct (Z.ltb_spec (W - 2 * (1 + p)) 20);
    destruct (Z.ltb_spec 120 (W - 2 * (1 + p))); lia.
Qed.

(** C2 fails on the code.  On a terminal of 80 columns with the default
    padding, the top border, the text row and the bottom border of the
    box are 80 columns wide, and the reference row and the separator row
    are 82 columns wide; the first three rows have these widths whatever
    the wrapping of the text. *)
Theorem box_rows_differ_in_width :
  List.map visible_width
    (box_lines (T := plain_wrap) (term_width (Some 80))
               (lit "Proverbs 1:7") (lit "The fear of the LORD")
               default_pad default_color_ref default_color_text)
  = [80; 82; 82; 80; 80]
  /\ forall T : TextWrap,
       List.map visible_width
         (firstn 3 (box_lines (term_width (Some 80)) (lit "Proverbs 1:7")
                              (lit "The fear of the LORD") default_pad
                              default_color_ref default_color_text))
       = [80; 82; 82].
Proof.
  split; [vm_compute; reflexivity | intros T; reflexivity].
Qed.

End RenderProperties.

(** ** ResilientChatClient *)

Section ChatFacts.
Import PyStr Exc Corpus World Chat.
Local Open Scope Z_scope.
Context {U : UnicodeData} {R : PyRuntime}.

(** *** The cached context *)




(** What [get_proverbs_context] leaves alone. *)
Lemma get_proverbs_context_frame (E : env) (w w1 : world) (r : result str) :
  get_proverbs_context E w = (r, w1) ->
  requests_sent w1 = requests_sent w /\ slept w1 = slept w
  /\ draws w1 = draws w /\ TERRY_SETTINGS w1 = TERRY_SETTINGS w
  /\ printed w1 = printed w.
Proof.
  unfold get_proverbs_context.
  destruct (PROVERBS_CONTEXT w).
  - intros H; inversion H; subst; tauto.
  - destruct (load_verses _) as [vs|e].
    + intros H; inversion H; subst; simpl; tauto.
    + destruct (is_Exception e); intros H; inversion H; subst; simpl; tauto.
Qed.

End ChatFacts.

Section ContextProperties.
Import PyStr Exc Corpus World Chat.


End ContextProperties.

Section LoopFacts.
Import PyStr Exc Corpus World Chat.
Local Open Scope Z_scope.
Context {U : UnicodeData} {R : PyRuntime}.
Variable E : env.

Lemma message_content_well_formed (data : json) (s : str) :
  choices_content data = Some s -> message_content data = Ok (strip s).
Proof.
  unfold choices_content, message_content, subscript.
  destruct data as [| | | | |l|d]; try discriminate.
  destruct (dict_get d (lit "choices")) as [[| | | | |l|?]|]; try discriminate.
  destruct l as [|[| | | | |?|c] l]; try discriminate. simpl.
  destruct (dict_get c (lit "message")) as [[| | | | |?|m]|]; try discriminate.
  simpl.
  destruct (dict_get m (lit "content")) as [[| | | |s'|?|?]|]; try discriminate.
  simpl. intros H; inversion H; reflexivity.
Qed.

Lemma retry_status_not_others (code : Z) :
  is_retry_status code = true ->
  (code =? 200) = false /\ (code =? 404) = false /\ (code =? 401) = false.
Proof.
  unfold is_retry_status. intros H.
  repeat (apply orb_true_iff in H as [H|H]); apply Z.eqb_eq in H; subst;
    repeat split; reflexivity.
Qed.

Lemma attempt_body_404 (rq : request) (attempt : nat)
    (last_err : option str) (w : world) (resp : response) :
  post E (List.length (requests_sent w)) rq = Answer resp ->
  status_code resp = 404 ->
  attempt_body E rq attempt last_err w
  = (Break, Some (text resp),
     print (PrintModelUnavailable (rq_model rq)) (log_request rq w)).
Proof.
  intros Hp Hs. unfold attempt_body. rewrite Hp, Hs. reflexivity.
Qed.

Lemma attempt_body_200 (rq : request) (attempt : nat)
    (last_err : option str) (w : world) (resp : response)
    (data : json) (content : str) :
  post E (List.length (requests_sent w)) rq = Answer resp ->
  status_code resp = 200 ->
  json_body resp = Ok data ->
  choices_content data = Some content ->
  attempt_body E rq attempt last_err w
  = (Return (strip content), last_err, log_request rq w).
Proof.
  intros Hp Hs Hj Hc. unfold attempt_body. rewrite Hp, Hs, Hj. simpl.
  rewrite (message_content_well_formed _ Hc). reflexivity.
Qed.

Lemma py_min_capped (d : pyfloat) : float_lt (Fin 10) (py_min d (Fin 10)) = false.
Proof.
  unfold py_min. destruct (float_lt (Fin 10) d) eqn:H; [reflexivity | exact H].
Qed.

(** A length of half a minute at most can be counted. *)
Lemma countable_small (q : Q) :
  (0 <= q)%Q -> (q <= 30)%Q -> countable q = true.
Proof.
  intros H0 H30. unfold countable. apply andb_true_iff.
  assert (Hp : (0 <= q * inject_Z (10 ^ 9))%Q)
    by (apply Qmult_le_0_compat; [exact H0 | discriminate]).
  split; apply Qle_bool_iff.
  - eapply Qle_trans; [|exact Hp]. discriminate.
  - eapply Qle_trans;
      [apply Qmult_le_compat_r; [exact H30 | discriminate] | discriminate].
Qed.

Lemma sleep_nonnegative (q : Q) (w : world) :
  (0 <= q)%Q -> (q <= 30)%Q ->
  sleep (Fin q) w = (Ok tt, log_sleep (Fin q) w).
Proof.
  intros H H30. unfold sleep, float_lt.
  rewrite (countable_small H H30).
  apply Qle_bool_iff in H. rewrite H. reflexivity.
Qed.

Lemma capped_sleep (d0 : pyfloat) (q : Q) (w : world) :
  py_min d0 (Fin 10) = Fin q -> (0 <= q)%Q ->
  sleep (Fin q) w = (Ok tt, log_sleep (Fin q) w).
Proof.
  intros Hd Hq. apply sleep_nonnegative; [exact Hq|].
  unfold py_min in Hd. destruct (float_lt (Fin 10) d0) eqn:H.
  - inversion Hd. discriminate.
  - subst d0. unfold float_lt in H. apply negb_false_iff in H.
    apply Qle_bool_iff in H. eapply Qle_trans; [exact H | discriminate].
Qed.

Lemma attempt_body_retry (rq : request) (attempt : nat)
    (last_err : option str) (w : world) (resp : response) (q : Q) :
  post E (List.length (requests_sent w)) rq = Answer resp ->
  is_retry_status (status_code resp) = true ->
  py_min (fst (retry_after_delay (retry_after resp) attempt
                                 (uniform E (draws w)))) (Fin 10) = Fin q ->
  (0 <= q)%Q ->
  exists w',
    attempt_body E rq attempt last_err w = (Continue, Some (text resp), w')
    /\ requests_sent w' = requests_sent w ++ [rq]
    /\ slept w' = slept w ++ [Fin q].
Proof.
  intros Hp Hs Hd Hq. unfold attempt_body. rewrite Hp.
  destruct (retry_status_not_others _ Hs) as (-> & _ & _). rewrite Hs.
  simpl draws.
  destruct (retry_after_delay _ _ _) as [d0 drew]. simpl in Hd. rewrite Hd.
  erewrite capped_sleep by eassumption. eexists. split; [reflexivity|].
  destruct drew; split; reflexivity.
Qed.

Lemma get_proverbs_context_returns (w : world) :
  (forall e, load_verses (PROVERBS_FILE E (loads w)) = Raise e ->
             is_Exception e = true) ->
  exists c w1, get_proverbs_context E w = (Ok c, w1).
Proof.
  intros H. unfold get_proverbs_context.
  destruct (PROVERBS_CONTEXT w); [eauto|].
  destruct (load_verses _) as [vs|e]; [eauto|].
  rewrite (H e eq_refl). eauto.
Qed.

(** A loop over the attempts that ends in [Break] or runs out of
    attempts hands over to the next candidate model. *)
Lemma model_loop_advances (mk : str -> request) (m : str) (ms : list str)
    (last_err last_err' : option str) (w w' : world) (c : ctl) :
  retry_loop E (mk m) (seq 0 5) last_err w = (c, last_err', w') ->
  c = Break \/ c = Continue ->
  model_loop E mk (m :: ms) last_err w = model_loop E mk ms last_err' w'.
Proof.
  intros H Hc. cbn [model_loop]. rewrite H. destruct Hc; subst; reflexivity.
Qed.

End LoopFacts.

Section ChatProperties.
Import PyStr Exc Corpus World Chat Samples.
Local Open Scope Z_scope.
#[local] Existing Instance ascii_digits.
#[local] Existing Instance plain_runtime.

(** C5.  Without a credential, be the variable unset or empty,
    [query_llm] returns the error text at once and leaves the world as it
    was: no request is sent. *)
Theorem query_llm_without_credential
    (U : UnicodeData) (R : PyRuntime) (E : env) (prompt : str) (w : world) :
  MISTRAL_API_KEY E = None \/ MISTRAL_API_KEY E = Some [] ->
  query_llm E prompt w = (Ok (lit "[LLM ERROR] MISTRAL_API_KEY not set."), w)
  /\ requests_sent (snd (query_llm E prompt w)) = requests_sent w.
Proof.
  intros [H|H]; unfold query_llm; rewrite H; simpl; split; reflexivity.
Qed.

Lemma query_llm_without_credential_witness :
  @query_llm ascii_digits plain_runtime no_credential (lit "What is wisdom?")
             start
  = (Ok (lit "[LLM ERROR] MISTRAL_API_KEY not set."), start).
Proof.
  exact (proj1 (@query_llm_without_credential ascii_digits plain_runtime
                  no_credential (lit "What is wisdom?") start
                  (or_introl eq_refl))).
Defined.


(** C3, as the code has it.  A response 404 ends the attempts on the
    model at once, and the loop over the candidates goes on with the next
    model.  When the first candidate always answers 404 and the second
    answers 200 with a well-formed body, [query_llm] sends one request to
    each and returns the content of [choices[0].message.content] with the
    white space at its ends stripped. *)
Theorem not_found_advances_to_next_model
    (U : UnicodeData) (R : PyRuntime) (E : env) (prompt key : str)
    (w : world) (limit : Z) (r404 r200 : response) (data : json)
    (content : str) :
  MISTRAL_API_KEY E = Some key -> key <> [] ->
  (forall e, load_verses (PROVERBS_FILE E (loads w)) = Raise e ->
             is_Exception e = true) ->
  max_context_chars E = Ok limit ->
  (forall n rq, rq_model rq = nth 0 (model_candidates E w) [] ->
                post E n rq = Answer r404) ->
  status_code r404 = 404 ->
  (forall n rq, rq_model rq = nth 1 (model_candidates E w) [] ->
                post E n rq = Answer r200) ->
  status_code r200 = 200 ->
  json_body r200 = Ok data ->
  choices_content data = Some content ->
  (forall rq attempt rest last_err w0 resp,
      post E (List.length (requests_sent w0)) rq = Answer resp ->
      status_code resp = 404 ->
      retry_loop E rq (attempt :: rest) last_err w0
      = (Break, Some (text resp),
         print (PrintModelUnavailable (rq_model rq)) (log_request rq w0)))
  /\ (forall mk m ms last_err last_err' w0 w0',
         retry_loop E (mk m) (seq 0 5) last_err w0 = (Break, last_err', w0') ->
         model_loop E mk (m :: ms) last_err w0
         = model_loop E mk ms last_err' w0')
  /\ exists w',
       query_llm E prompt w = (Ok (strip content), w')
       /\ List.map rq_model (requests_sent w')
          = List.map rq_model (requests_sent w)
            ++ [nth 0 (model_candidates E w) [];
                nth 1 (model_candidates E w) []].
Proof.
  intros Hkey Hne Hload Hlim HA HsA HB HsB Hj Hc.
  split; [|split].
  - intros rq attempt rest last_err w0 resp Hp Hs.
    cbn [retry_loop]. rewrite (attempt_body_404 E rq attempt last_err w0 Hp Hs).
    reflexivity.
  - intros mk m ms last_err last_err' w0 w0' H.
    apply (model_loop_advances E mk m ms last_err w0 H). now left.
  - unfold query_llm. rewrite Hkey.
    destruct key as [|k key]; [congruence|]. cbn [truthy negb].
    destruct (get_proverbs_context_returns E w Hload) as (raw & w1 & Hctx).
    rewrite Hctx, Hlim.
    destruct (get_proverbs_context_frame E w Hctx) as (Hreq & _).
    set (mk := fun m : str => Request _ m _ _ _).
    unfold model_candidates in *. cbn [nth] in HA, HB.
    cbn [model_loop seq retry_loop].
    rewrite (attempt_body_404 E (mk _) 0%nat None w1
               (HA _ (mk _) eq_refl) HsA).
    cbn [model_loop seq retry_loop].
    rewrite (attempt_body_200 E (mk _) 0%nat (Some (text r404)) _
               (HB _ (mk _) eq_refl) HsB Hj Hc).
    eexists. split; [reflexivity|].
    cbn [requests_sent log_request print]. rewrite !map_app, Hreq.
    rewrite <- app_assoc. reflexivity.
Qed.

Lemma not_found_advances_to_next_model_witness :
  exists w',
    query_llm (surroundings first_model_unknown) (lit "What is wisdom?") start
    = (Ok (lit "Hear, my son."), w')
    /\ List.map rq_model (requests_sent w')
       = [lit "open-mixtral-8x7b"; lit "mistral-large-latest"].
Proof.
  apply (proj2 (proj2
    (@not_found_advances_to_next_model ascii_digits plain_runtime
       (surroundings first_model_unknown) (lit "What is wisdom?") (lit "key")
       start 6000
       (plain_response 404 None (lit "no such model"))
       (chat_response (lit " Hear, my son. ")) _ (lit " Hear, my son. ")
       eq_refl
       (fun H => @nil_cons _ _ _ (eq_sym H))
       (fun e H => match H in (_ = r) return
                     (match r with Raise e' => is_Exception e' = true
                                 | Ok _ => True end)
                   with eq_refl => I end)
       eq_refl
       (fun n rq H => f_equal
          (fun b : bool =>
             if b then Answer (plain_response 404 None (lit "no such model"))
             else Answer (chat_response (lit " Hear, my son. ")))
          (eq_trans (f_equal (fun m => str_eqb m (lit "open-mixtral-8x7b")) H)
                    eq_refl))
       eq_refl
       (fun n rq H => f_equal
          (fun b : bool =>
             if b then Answer (plain_response 404 None (lit "no such model"))
             else Answer (chat_response (lit " Hear, my son. ")))
          (eq_trans (f_equal (fun m => str_eqb m (lit "open-mixtral-8x7b")) H)
                    eq_refl))
       eq_refl eq_refl eq_refl))).
Defined.

(** C3, as the specification words it, fails: what is returned is not
    the content itself when white space surrounds it. *)
Lemma content_is_returned_stripped :
  fst (query_llm (surroundings first_model_unknown) (lit "What is wisdom?")
                 start)
  = Ok (lit "Hear, my son.")
  /\ choices_content
       (JDict [(lit "choices",
                JList [JDict [(lit "message",
                               JDict [(lit "role", JStr (lit "assistant"));
                                      (lit "content",
                                       JStr (lit " Hear, my son. "))])]])])
     = Some (lit " Hear, my son. ")
  /\ lit "Hear, my son." <> lit " Hear, my son. ".
Proof.
  split; [vm_compute; reflexivity|].
  split; [reflexivity | vm_compute; discriminate].
Qed.

(** C4, as the code has it.  On a response 429, 502, 503 or 504 the
    delay is the value of the header [Retry-After] when the header is
    there, not empty, and read by [float], and otherwise two to the power
    of the attempt plus the draw of [random.uniform(0, 0.3)]; in both
    cases 10 takes its place when it exceeds 10.  When the delay is a
    number that is not negative, it is slept, and the loop goes on with
    the attempts that are left on the same model, a request more having
    been sent; with a draw in its range the backoff delay is such a
    number.  (After the last of the five attempts no attempt is left: the
    loop over the candidates takes the next model.) *)
Theorem retry_status_sleeps_and_retries
    (U : UnicodeData) (R : PyRuntime) (E : env) (rq : request)
    (attempt : nat) (rest : list nat) (last_err : option str) (w : world)
    (resp : response) :
  post E (List.length (requests_sent w)) rq = Answer resp ->
  is_retry_status (status_code resp) = true ->
  let jitter := uniform E (draws w) in
  let delay :=
    py_min (fst (retry_after_delay (retry_after resp) attempt jitter))
           (Fin 10) in
  (forall s f, retry_after resp = Some s -> s <> [] ->
               float_of_str s = Some f -> delay = py_min f (Fin 10))
  /\ ((retry_after resp = None \/ retry_after resp = Some []
        \/ exists s, retry_after resp = Some s /\ float_of_str s = None) ->
       delay = py_min (Fin (inject_Z (2 ^ Z.of_nat attempt) + jitter))
                      (Fin 10)
       /\ (uniform_in_range E -> exists q, delay = Fin q /\ (0 <= q)%Q))
  /\ float_lt (Fin 10) delay = false
  /\ (forall q, delay = Fin q -> (0 <= q)%Q ->
        exists w',
          retry_loop E rq (attempt :: rest) last_err w
          = retry_loop E rq rest (Some (text resp)) w'
          /\ requests_sent w' = requests_sent w ++ [rq]
          /\ slept w' = slept w ++ [delay]).
Proof.
  intros Hp Hs jitter delay. subst delay.
  split; [|split; [|split]].
  - intros s f Hra Hne Hf. unfold retry_after_delay. rewrite Hra.
    destruct s as [|c s]; [congruence|]. cbn [truthy]. rewrite Hf.
    reflexivity.
  - intros Hno.
    assert (Hd : fst (retry_after_delay (retry_after resp) attempt jitter)
                 = backoff attempt jitter).
    { unfold retry_after_delay.
      destruct Hno as [->|[->|(s & -> & Hf)]]; try reflexivity.
      destruct (truthy s); [rewrite Hf|]; reflexivity. }
    rewrite Hd. split; [reflexivity|].
    intros Hu. destruct (Hu (draws w)) as [Hlo _]. fold jitter in Hlo.
    assert (Hpow : (0 <= inject_Z (2 ^ Z.of_nat attempt))%Q).
    { change 0%Q with (inject_Z 0). rewrite <- Zle_Qle.
      apply Z.pow_nonneg. lia. }
    unfold backoff, py_min, float_lt.
    destruct (negb (Qle_bool _ 10)); eexists; split; try reflexivity.
    + discriminate.
    + apply (Qle_trans _ (0 + 0)); [discriminate|].
      apply Qplus_le_compat; assumption.
  - apply py_min_capped.
  - intros q Hq Hpos.
    destruct (attempt_body_retry E rq attempt last_err w Hp Hs Hq Hpos)
      as (w' & Hb & Hr & Hsl).
    exists w'. cbn [retry_loop]. rewrite Hb, Hq. auto.
Qed.

Lemma retry_status_sleeps_and_retries_witness :
  exists w',
    retry_loop (surroundings (always_429 (lit "2")))
               (Request (lit "Bearer key") (lit "open-mixtral-8x7b") []
                        256 (Fin (7 # 10)))
               [0%nat; 1%nat] None start
    = retry_loop (surroundings (always_429 (lit "2")))
                 (Request (lit "Bearer key") (lit "open-mixtral-8x7b") []
                          256 (Fin (7 # 10)))
                 [1%nat] (Some (lit "rate limited")) w'
    /\ requests_sent w'
       = [Request (lit "Bearer key") (lit "open-mixtral-8x7b") []
                  256 (Fin (7 # 10))]
    /\ slept w' = [Fin (inject_Z 2)].
Proof.
  apply (proj2 (proj2 (proj2
    (@retry_status_sleeps_and_retries ascii_digits plain_runtime
       (surroundings (always_429 (lit "2")))
       (Request (lit "Bearer key") (lit "open-mixtral-8x7b") []
                256 (Fin (7 # 10)))
       0%nat [1%nat] None start
       (plain_response 429 (Some (lit "2")) (lit "rate limited"))
       eq_refl eq_refl))) (inject_Z 2) eq_refl).
  discriminate.
Defined.

(** C4, as the specification words it, fails: when every call is
    answered with 429, each candidate model is tried five times and the
    next one is taken, until none is left. *)
Lemma candidates_advance_after_five_retries :
  let run := query_llm (surroundings (always_429 (lit "0")))
                       (lit "What is wisdom?") start in
  List.map rq_model (requests_sent (snd run))
  = List.repeat (lit "open-mixtral-8x7b") 5
    ++ List.repeat (lit "mistral-large-latest") 5
    ++ List.repeat (lit "mistral-small-latest") 5
    ++ List.repeat (lit "open-mixtral-8x7b") 5
  /\ nth_error (List.map rq_model (requests_sent (snd run))) 4
     = Some (lit "open-mixtral-8x7b")
  /\ nth_error (List.map rq_model (requests_sent (snd run))) 5
     = Some (lit "mistral-large-latest")
  /\ fst run
     = Ok (lit "[FAILED] after retries & fallbacks. Last error: rate limited").
Proof.
  vm_compute. repeat split; reflexivity.
Qed.

(** C6 fails on the code.  A response 429 whose header [Retry-After] is
    a negative number makes [time.sleep] raise [ValueError], which
    nothing in [query_llm] catches: the call raises and returns no
    string. *)
Theorem negative_retry_after_raises :
  let run := query_llm (surroundings (always_429 (lit "-1")))
                       (lit "What is wisdom?") start in
  fst run = Raise (Exn ValueError (lit "sleep length must be non-negative"))
  /\ List.length (requests_sent (snd run)) = 1%nat
  /\ slept (snd run) = [].
Proof.
  vm_compute. repeat split; reflexivity.
Qed.

End ChatProperties.

(** *** [query_llm] on ordinary remote failures *)

Section OrdinaryFailures.
Import PyStr Exc Corpus World Chat.
Local Open Scope Z_scope.
Context {U : UnicodeData} {R : PyRuntime}.
Variable E : env.
Hypothesis Hnet : ordinary_network E.
Hypothesis Huni : uniform_in_range E.

Lemma subscript_raises_Exception (v : json) (k : str) (e : exn) :
  subscript v k = Raise e -> is_Exception e = true.
Proof.
  unfold subscript. destruct v as [| | | | | |d]; try (intros H; inversion H; reflexivity).
  destruct (dict_get d k); intros H; inversion H; reflexivity.
Qed.

Lemma subscript_zero_raises_Exception (v : json) (e : exn) :
  subscript_zero v = Raise e -> is_Exception e = true.
Proof.
  unfold subscript_zero.
  destruct v as [| | | |[|c s]|[|x l]|d]; intros H; inversion H; reflexivity.
Qed.

Lemma message_content_raises_Exception (data : json) (e : exn) :
  message_content data = Raise e -> is_Exception e = true.
Proof.
  unfold message_content.
  destruct (subscript data (lit "choices")) as [choices|e1] eqn:H1; cbn [bind];
    [|intros H; inversion H; subst; eapply subscript_raises_Exception; eauto].
  destruct (subscript_zero choices) as [first|e2] eqn:H2; cbn [bind];
    [|intros H; inversion H; subst; eapply subscript_zero_raises_Exception;
      eauto].
  destruct (subscript first (lit "message")) as [message|e3] eqn:H3;
    cbn [bind];
    [|intros H; inversion H; subst; eapply subscript_raises_Exception; eauto].
  destruct (subscript message (lit "content")) as [content|e4] eqn:H4;
    cbn [bind];
    [|intros H; inversion H; subst; eapply subscript_raises_Exception; eauto].
  destruct content; intros H; inversion H; reflexivity.
Qed.

Lemma backoff_sleeps (attempt n : nat) :
  exists q, py_min (backoff attempt (uniform E n)) (Fin 10) = Fin q
            /\ (0 <= q)%Q.
Proof.
  destruct (Huni n) as [Hlo _].
  assert (Hpow : (0 <= inject_Z (2 ^ Z.of_nat attempt))%Q).
  { change 0%Q with (inject_Z 0). rewrite <- Zle_Qle.
    apply Z.pow_nonneg. lia. }
  unfold backoff, py_min, float_lt.
  destruct (negb (Qle_bool _ 10)); eexists; split; try reflexivity.
  - discriminate.
  - apply (Qle_trans _ (0 + 0)); [discriminate|].
    apply Qplus_le_compat; assumption.
Qed.

Lemma capped_sane_sleeps (f : pyfloat) :
  (f = PosInf \/ exists q, f = Fin q /\ (0 <= q)%Q) ->
  exists q, py_min f (Fin 10) = Fin q /\ (0 <= q)%Q.
Proof.
  intros [->|(q & -> & Hq)].
  - exists 10%Q. split; [reflexivity | discriminate].
  - unfold py_min, float_lt. destruct (negb (Qle_bool q 10)).
    + exists 10%Q. split; [reflexivity | discriminate].
    + exists q. split; [reflexivity | assumption].
Qed.

Lemma retry_delay_sleeps (ra : option str) (attempt n : nat) :
  sane_retry_after ra ->
  exists q, py_min (fst (retry_after_delay ra attempt (uniform E n)))
                   (Fin 10) = Fin q
            /\ (0 <= q)%Q.
Proof.
  intros Hra. unfold retry_after_delay.
  destruct ra as [s|]; [|apply backoff_sleeps].
  destruct s as [|c s]; [apply backoff_sleeps|]. cbn [truthy].
  destruct (float_of_str (c :: s)) as [f|] eqn:Hf; [|apply backoff_sleeps].
  apply capped_sane_sleeps. apply (Hra (c :: s) f); congruence.
Qed.

(** The outcomes of a pass through the loop body that the client means
    to have: no exception, and a text that is a failure text or the
    content of an answer. *)
Definition meant (c : ctl) : Prop :=
  match c with
  | Throw _ => False
  | Return s => failure_text s \/ answer_content E s
  | _ => True
  end.

Lemma attempt_body_meant (rq : request) (attempt : nat)
    (last_err : option str) (w : world) :
  meant (fst (fst (attempt_body E rq attempt last_err w))).
Proof.
  unfold attempt_body.
  pose proof (Hnet (List.length (requests_sent w)) rq) as Hn.
  destruct (post E (List.length (requests_sent w)) rq) as [|e|resp] eqn:Hp.
  - destruct (backoff_sleeps attempt (draws (log_request rq w)))
      as (q & Hq & Hpos).
    rewrite Hq. erewrite capped_sleep by eassumption. exact I.
  - rewrite Hn. left. left. reflexivity.
  - destruct Hn as [Hjson Hra].
    destruct (status_code resp =? 200) eqn:H200.
    + destruct (json_body resp) as [data|e] eqn:Hj; cbn [bind].
      * destruct (message_content data) as [c|e] eqn:Hm.
        -- right. exists (List.length (requests_sent w)), rq, resp, data.
           apply Z.eqb_eq in H200. auto.
        -- rewrite (message_content_raises_Exception _ Hm).
           left. left. reflexivity.
      * rewrite (Hjson e eq_refl). left. left. reflexivity.
    + destruct (is_retry_status (status_code resp)).
      * destruct (retry_delay_sleeps attempt (draws (log_request rq w)) Hra)
          as (q & Hq & Hpos).
        destruct (retry_after_delay _ _ _) as [d0 drew]. cbn [fst] in Hq.
        rewrite Hq. erewrite capped_sleep by eassumption. exact I.
      * destruct (status_code resp =? 404); [exact I|].
        destruct (status_code resp =? 401); left; left; reflexivity.
Qed.

Lemma retry_loop_meant (rq : request) (attempts : list nat)
    (last_err : option str) (w : world) :
  meant (fst (fst (retry_loop E rq attempts last_err w))).
Proof.
  revert last_err w.
  induction attempts as [|a rest IH]; intros last_err w; cbn [retry_loop].
  - exact I.
  - pose proof (attempt_body_meant rq a last_err w) as Hb.
    destruct (attempt_body E rq a last_err w) as [[c le] w'].
    destruct c; try exact Hb. apply IH.
Qed.

Lemma model_loop_returns (mk : str -> request) (models : list str)
    (last_err : option str) (w : world) :
  exists s w',
    model_loop E mk models last_err w = (Ok s, w')
    /\ (failure_text s \/ answer_content E s).
Proof.
  revert last_err w.
  induction models as [|m ms IH]; intros last_err w; cbn [model_loop].
  - eexists _, _. split; [reflexivity|]. left. right. reflexivity.
  - pose proof (retry_loop_meant (mk m) (seq 0 5) last_err w) as Hl.
    destruct (retry_loop E (mk m) (seq 0 5) last_err w) as [[c le] w'].
    destruct c; cbn [fst meant] in Hl; try apply IH.
    + eauto.
    + contradiction.
Qed.

(** With a credential, a context limit that reads as a number and a
    corpus load that no interrupt cuts short, [query_llm] returns a
    string on ordinary remote failures, and the string is a failure text
    unless it is the content of an answer. *)
Lemma query_llm_returns_on_sane_headers (prompt key : str) (w : world)
    (limit : Z) :
  MISTRAL_API_KEY E = Some key -> key <> [] ->
  (forall e, load_verses (PROVERBS_FILE E (loads w)) = Raise e ->
             is_Exception e = true) ->
  max_context_chars E = Ok limit ->
  exists s w',
    query_llm E prompt w = (Ok s, w')
    /\ (failure_text s \/ answer_content E s).
Proof.
  intros Hkey Hne Hload Hlim. unfold query_llm. rewrite Hkey.
  destruct key as [|k key]; [congruence|]. cbn [truthy negb].
  destruct (get_proverbs_context_returns E w Hload) as (raw & w1 & Hctx).
  rewrite Hctx, Hlim. apply model_loop_returns.
Qed.

End OrdinaryFailures.

Section OrdinaryFailuresSample.
Import PyStr Exc Corpus World Chat Samples.
#[local] Existing Instance ascii_digits.
#[local] Existing Instance plain_runtime.

Lemma always_429_is_ordinary :
  ordinary_network (surroundings (always_429 (lit "2")))
  /\ uniform_in_range (surroundings (always_429 (lit "2"))).
Proof.
  split.
  - intros n rq. cbn. split.
    + intros e H. inversion H. reflexivity.
    + intros s f Hs Hne Hf. inversion Hs; subst s.
      vm_compute in Hf. inversion Hf. right. eexists. split; [reflexivity|].
      discriminate.
  - intros n. cbn. split; [discriminate | reflexivity].
Qed.

(** The lemma at work: a server that only ever answers 429 gets the
    text of a failure out of [query_llm]. *)
Example query_llm_returns_when_rate_limited :
  exists s w',
    query_llm (surroundings (always_429 (lit "2"))) (lit "What is wisdom?")
              start = (Ok s, w')
    /\ (failure_text s
        \/ answer_content (surroundings (always_429 (lit "2"))) s).
Proof.
  destruct always_429_is_ordinary as [Hn Hu].
  apply (query_llm_returns_on_sane_headers Hn Hu (lit "What is wisdom?")
           (key := lit "key") start (limit := 6000)).
  - reflexivity.
  - discriminate.
  - intros e H. vm_compute in H. discriminate.
  - reflexivity.
Qed.

End OrdinaryFailuresSample.

(** ** SessionController *)

Section SessionFacts.
Import PyStr Exc Corpus Render World Chat Session.
Context {U : UnicodeData} {R : PyRuntime} {T : TextWrap}.
Variable E : env.

Lemma run_ended (e : option exn) (w : world) (evs : list in_event) :
  run E (Ended e w) evs = Ended e w.
Proof. destruct evs; reflexivity. Qed.


End SessionFacts.

Section SessionProperties.
Import PyStr Exc Corpus Render World Chat Session Samples.




End SessionProperties.

(** ** More on CorpusStore *)

Section TrimmedStrings.
Import PyStr Notions.

Lemma trimmed_strip_fixed (s : str) : trimmed s -> strip s = s.
Proof.
  intros [Hh Hl]. unfold strip, rstrip.
  rewrite (lstrip_fixed s Hh), (lstrip_fixed (rev s) Hl).
  apply rev_involutive.
Qed.

Lemma rstrip_spec (s : str) :
  exists b, s = rstrip s ++ b /\ forallb isspace b = true.
Proof.
  unfold rstrip. destruct (lstrip_spec (rev s)) as (b & E & Hb & _).
  exists (rev b). split; [|now rewrite forallb_rev].
  rewrite <- (rev_involutive s) at 1. rewrite E at 1.
  now rewrite rev_app_distr.
Qed.

Lemma strip_trimmed (s : str) : trimmed (strip s).
Proof.
  split.
  - unfold strip. destruct (lstrip_spec s) as (_ & _ & _ & Hh).
    destruct (rstrip_spec (lstrip s)) as (b & E & Hb).
    destruct (rstrip (lstrip s)) as [|c r] eqn:Er; [simpl; congruence|].
    rewrite E in Hh. simpl in *. exact Hh.
  - unfold strip, rstrip. rewrite rev_involutive.
    destruct (lstrip_spec (rev (lstrip s))) as (_ & _ & _ & Hh). exact Hh.
Qed.

Lemma strip_idempotent (s : str) : strip (strip s) = strip s.
Proof. apply trimmed_strip_fixed, strip_trimmed. Qed.

(** A piece at the end of a trimmed string that starts outside white
    space is trimmed. *)
Lemma trimmed_suffix (pre s : str) :
  trimmed (pre ++ s) -> s <> [] ->
  hd_error (List.map isspace s) <> Some true -> trimmed s.
Proof.
  intros [_ Hl] Hne Hh. split; [exact Hh|].
  rewrite rev_app_distr in Hl.
  destruct (rev s) as [|c r] eqn:Er.
  - apply (f_equal (@rev char)) in Er. rewrite rev_involutive in Er.
    contradiction.
  - exact Hl.
Qed.

(** A piece at the start of a trimmed string that ends outside white
    space is trimmed. *)
Lemma trimmed_prefix (s post : str) :
  trimmed (s ++ post) -> s <> [] ->
  hd_error (List.map isspace (rev s)) <> Some true -> trimmed s.
Proof.
  intros [Hh _] Hne Hl. split; [|exact Hl].
  destruct s as [|c r]; [contradiction | exact Hh].
Qed.

End TrimmedStrings.

Section CorpusMore.
Import PyStr Exc Corpus Samples Notions.

Lemma last_digit_not_space (U : UnicodeData) (d : str) :
  digits_sane U -> d <> [] -> forallb isdecimal d = true ->
  forall pre, hd_error (List.map isspace (rev (pre ++ d))) <> Some true.
Proof.
  intros [Dsp _] Hne Hd pre. rewrite rev_app_distr.
  destruct (rev d) as [|c r] eqn:Er.
  - apply (f_equal (@rev char)) in Er. rewrite rev_involutive in Er.
    contradiction.
  - assert (Hc : forallb isdecimal (rev d) = true) by now rewrite forallb_rev.
    rewrite Er in Hc. simpl in Hc. apply andb_true_iff in Hc as [Hc _].
    simpl. rewrite (Dsp _ Hc). congruence.
Qed.

Lemma parse_line_trimmed (U : UnicodeData) (l : str) :
  digits_sane U -> blank l = false ->
  trimmed (fst (parse_line (strip l))) /\ trimmed (snd (parse_line (strip l))).
Proof.
  intros HU Hb.
  assert (Hs : strip l <> []).
  { intros E. apply strip_nil_iff in E. unfold blank in Hb. congruence. }
  pose proof (strip_trimmed l) as Ht.
  unfold parse_line.
  destruct (REF_RE_match (strip l)) as [[ref body]|] eqn:M; simpl.
  - pose proof (parse_line_text_nonempty l Hb) as Hne.
    unfold parse_line in Hne. rewrite M in Hne. simpl in Hne.
    apply REF_RE_match_sound in M
      as (ws0 & w & ws1 & d1 & d2 & ws2 & s6 & E & -> & H0 & HF
          & [N1 H1] & [M1 G1] & [M2 G2] & [N2 H2] & Hh & D).
    assert (W0 : ws0 = []).
    { destruct ws0 as [|c ws0]; [reflexivity|]. exfalso.
      destruct Ht as [Hhd _]. rewrite E in Hhd. simpl in *.
      apply andb_true_iff in H0 as [Hc _]. rewrite Hc in Hhd. congruence. }
    subst ws0. rewrite app_nil_l in E.
    assert (Hw : w <> []).
    { change (lit "Proverbs") with (80%N :: lit "roverbs") in HF.
      inversion HF; congruence. }
    rewrite E in Ht.
    split.
    + apply (@trimmed_prefix _ (ws2 ++ s6)).
      * repeat rewrite <- app_assoc. exact Ht.
      * intros C. apply app_eq_nil in C as [C _]. contradiction.
      * rewrite !app_assoc. apply (last_digit_not_space HU M2 G2).
    + assert (Hs6 : trimmed s6).
      { apply (@trimmed_suffix (w ++ ws1 ++ d1 ++ [58%N] ++ d2 ++ ws2)).
        - repeat rewrite <- app_assoc. exact Ht.
        - intros ->. unfold dot_star_end in D. simpl in D.
          inversion D; subst. contradiction.
        - exact Hh. }
      unfold dot_star_end in D.
      destruct (span (fun c => negb (ch_eqb c 10%N)) s6) as [g r] eqn:Sp.
      apply span_spec in Sp as (Es & Hg & Hr).
      destruct r as [|c r].
      * inversion D; subst. now rewrite app_nil_r in Hs6.
      * exfalso. destruct r as [|c' r]; [|discriminate].
        simpl in Hr. destruct (ch_eqb c 10%N) eqn:Hc;
          [|simpl in Hr; congruence].
        apply N.eqb_eq in Hc. subst c.
        destruct Hs6 as [_ Hl]. rewrite Es, rev_app_distr in Hl.
        apply Hl. reflexivity.
  - split; [split; vm_compute; congruence | exact Ht].
Qed.

Lemma load_verses_blank_only (U : UnicodeData) (p : path) (text : str) :
  state p = Content text -> nonblank_lines text = [] ->
  load_verses p = Raise (Exn ValueError (no_verses_msg p)).
Proof.
  intros Hp Hb. unfold load_verses. rewrite Hp, load_loop_map. simpl.
  fold (nonblank_lines text). rewrite Hb. reflexivity.
Qed.

(** What [load_verses] returns, when it returns. *)
Lemma load_verses_returns (U : UnicodeData) (p : path) (vs : list verse) :
  load_verses p = Ok vs ->
  vs <> []
  /\ exists text,
       state p = Content text
       /\ vs = List.map (fun l => parse_line (strip l)) (nonblank_lines text).
Proof.
  intros H.
  destruct (state p) as [|e|text] eqn:Hp;
    try (unfold load_verses in H; rewrite Hp in H; discriminate).
  destruct (nonblank_lines text) as [|l ls] eqn:Hn.
  - rewrite (load_verses_blank_only U p Hp Hn) in H. discriminate.
  - assert (Hne : nonblank_lines text <> []) by (rewrite Hn; discriminate).
    rewrite (load_verses_map p Hp Hne) in H. inversion H; subst.
    split; [rewrite Hn; discriminate|]. exists text. now rewrite Hn.
Qed.

(** X1.  [load_verses] raises [FileNotFoundError] when the path does not
    exist and [ValueError] when the file has no line but blank ones; what
    it returns is never the empty list: it is one record for each line
    that is not blank, in the order of the file. *)
Theorem load_verses_outcomes (U : UnicodeData) (p : path) :
  (state p = Missing ->
   load_verses p = Raise (Exn FileNotFoundError (not_found_msg p)))
  /\ (forall text, state p = Content text -> nonblank_lines text = [] ->
      load_verses p = Raise (Exn ValueError (no_verses_msg p)))
  /\ (forall vs, load_verses p = Ok vs ->
      vs <> []
      /\ exists text,
           state p = Content text
           /\ vs = List.map (fun l => parse_line (strip l))
                            (nonblank_lines text)).
Proof.
  split; [|split].
  - intros H. unfold load_verses. now rewrite H.
  - apply load_verses_blank_only.
  - intros vs H. exact (load_verses_returns U p H).
Qed.

(** X2.  Every record [load_verses] returns is trimmed: neither its
    reference nor its text is empty, starts with white space or ends
    with white space, so [strip] leaves both as they are. *)
Theorem load_verses_records_trimmed
    (U : UnicodeData) (p : path) (vs : list verse) :
  digits_sane U ->
  load_verses p = Ok vs ->
  Forall (fun v : verse =>
            fst v <> [] /\ snd v <> []
            /\ strip (fst v) = fst v /\ strip (snd v) = snd v) vs.
Proof.
  intros HU H.
  destruct (load_verses_returns U p H) as (_ & text & Hp & ->).
  apply Forall_forall. intros v Hv.
  apply in_map_iff in Hv as (l & <- & Hl).
  unfold nonblank_lines in Hl. apply filter_In in Hl as [_ Hl].
  apply negb_true_iff in Hl.
  destruct (parse_line_trimmed l HU Hl) as [Hr Ht].
  pose proof (parse_line_text_nonempty l Hl) as Hne.
  repeat split; auto using trimmed_strip_fixed.
  unfold parse_line. destruct (REF_RE_match (strip l)) as [[ref body]|] eqn:M.
  - apply REF_RE_match_sound in M
      as (ws0 & w & ws1 & d1 & d2 & ws2 & s6 & _ & -> & _ & HF & _).
    change (lit "Proverbs") with (80%N :: lit "roverbs") in HF.
    inversion HF; subst. simpl. discriminate.
  - simpl. vm_compute. discriminate.
Qed.

Lemma load_verses_records_trimmed_witness :
  Forall (fun v : verse =>
            fst v <> [] /\ snd v <> []
            /\ strip (fst v) = fst v /\ strip (snd v) = snd v)
         [(lit "Proverbs 1:7", lit "The fear of the LORD");
          (lit "Proverbs ?", lit "Go to the ant")].
Proof.
  exact (@load_verses_records_trimmed ascii_digits two_line_corpus _
           ascii_digits_sane eq_refl).
Defined.

End CorpusMore.

(** ** More on ResilientChatClient *)

Section ClientTrace.
Import PyStr Exc Corpus World Chat Notions ClientNotions.
Local Open Scope Z_scope.
Context {U : UnicodeData} {R : PyRuntime}.
Variable E : env.

Lemma sent_since_app (w w' : world) (reqs : list request) :
  requests_sent w' = requests_sent w ++ reqs -> sent_since w w' = reqs.
Proof.
  intros H. unfold sent_since. rewrite H, skipn_app, skipn_all, Nat.sub_diag.
  reflexivity.
Qed.

Lemma slept_since_app (w w' : world) (naps : list pyfloat) :
  slept w' = slept w ++ naps -> slept_since w w' = naps.
Proof.
  intros H. unfold slept_since. rewrite H, skipn_app, skipn_all, Nat.sub_diag.
  reflexivity.
Qed.

Lemma client_frame_refl (w : world) : client_frame w w.
Proof. unfold client_frame. tauto. Qed.

Lemma client_frame_trans (w1 w2 w3 : world) :
  client_frame w1 w2 -> client_frame w2 w3 -> client_frame w1 w3.
Proof.
  unfold client_frame. intros (A1 & A2 & A3 & A4 & A5) (B1 & B2 & B3 & B4 & B5).
  repeat split; congruence.
Qed.

Lemma saved_count_app (a b : list out_event) :
  saved_count (a ++ b) = (saved_count a + saved_count b)%nat.
Proof. unfold saved_count. now rewrite filter_app, length_app. Qed.

Lemma client_frame_print (o : out_event) (w : world) :
  is_saved o = false -> client_frame w (print o w).
Proof.
  intros H. unfold client_frame.
  change (printed (print o w)) with (printed w ++ [o]).
  rewrite saved_count_app. unfold saved_count at 2.
  cbn [filter]. rewrite H. cbn [List.length]. repeat split. lia.
Qed.

Lemma client_frame_log_request (rq : request) (w : world) :
  client_frame w (log_request rq w).
Proof. unfold client_frame. repeat split. Qed.

Lemma client_frame_log_sleep (d : pyfloat) (w : world) :
  client_frame w (log_sleep d w).
Proof. unfold client_frame. repeat split. Qed.

Lemma client_frame_count_draw (w : world) : client_frame w (count_draw w).
Proof. unfold client_frame. repeat split. Qed.

(** What [time.sleep] does: it raises and nothing changes, or the delay
    is a number that is not negative and it is slept. *)
Lemma sleep_spec (d : pyfloat) (w w' : world) (r : result unit) :
  sleep d w = (r, w') ->
  (w' = w /\ exists e, r = Raise e)
  \/ (r = Ok tt /\ w' = log_sleep d w /\ exists q, d = Fin q /\ (0 <= q)%Q).
Proof.
  unfold sleep. destruct d as [q| | |].
  - destruct (negb (countable q));
      [intros H; inversion H; subst; left; eauto|].
    unfold float_lt. destruct (Qle_bool 0 q) eqn:Hq; cbn; intros H;
      inversion H; subst.
    + right. repeat split. exists q. split; [reflexivity|].
      now apply Qle_bool_iff.
    + left. eauto.
  - intros H; inversion H; subst; left; eauto.
  - intros H; inversion H; subst; left; eauto.
  - intros H; inversion H; subst; left; eauto.
Qed.

Lemma py_min_cap (d0 : pyfloat) (q : Q) :
  py_min d0 (Fin 10) = Fin q -> (q <= 10)%Q.
Proof.
  unfold py_min. destruct (float_lt (Fin 10) d0) eqn:H.
  - intros E'. inversion E'. discriminate.
  - intros ->. unfold float_lt in H. apply negb_false_iff in H.
    now apply Qle_bool_iff.
Qed.

(** After a capped delay is handed to [time.sleep]: a request more, and
    a nap more that is in order, or none. *)
Lemma capped_sleep_trace (d0 : pyfloat) (w w' : world) (r : result unit) :
  sleep (py_min d0 (Fin 10)) w = (r, w') ->
  exists naps,
    slept w' = slept w ++ naps /\ (List.length naps <= 1)%nat
    /\ Forall nap_ok naps
    /\ requests_sent w' = requests_sent w
    /\ client_frame w w'.
Proof.
  intros H. apply sleep_spec in H as [[-> _]|(_ & -> & q & Hq & Hpos)].
  - exists []. rewrite app_nil_r.
    split; [reflexivity|]. split; [cbn; lia|]. split; [constructor|].
    split; [reflexivity | apply client_frame_refl].
  - exists [py_min d0 (Fin 10)].
    split; [reflexivity|]. split; [cbn; lia|].
    split; [|split; [reflexivity | apply client_frame_log_sleep]].
    constructor; [|constructor]. exists q. repeat split; auto.
    now apply (py_min_cap d0).
Qed.

Lemma stretch_nil (w : world) : stretch w w [].
Proof.
  exists []. rewrite !app_nil_r.
  split; [reflexivity|]. split; [reflexivity|]. split; [cbn; lia|].
  split; [constructor | apply client_frame_refl].
Qed.

Lemma stretch_app (w1 w2 w3 : world) (r1 r2 : list request) :
  stretch w1 w2 r1 -> stretch w2 w3 r2 -> stretch w1 w3 (r1 ++ r2).
Proof.
  intros (n1 & A1 & B1 & C1 & D1 & F1) (n2 & A2 & B2 & C2 & D2 & F2).
  exists (n1 ++ n2). rewrite A2, A1, B2, B1, !app_assoc, !length_app.
  split; [reflexivity|]. split; [reflexivity|]. split; [lia|].
  split; [apply Forall_app; auto | eapply client_frame_trans; eauto].
Qed.

Lemma stretch_frame (w1 w2 w3 : world) (reqs : list request) :
  stretch w1 w2 reqs -> requests_sent w3 = requests_sent w2 ->
  slept w3 = slept w2 -> client_frame w2 w3 -> stretch w1 w3 reqs.
Proof.
  intros H A B C. rewrite <- (app_nil_r reqs).
  apply (stretch_app H). exists []. rewrite A, B, !app_nil_r.
  split; [reflexivity|]. split; [reflexivity|]. split; [cbn; lia|].
  split; [constructor | exact C].
Qed.

Lemma stretch_sleep (d0 : pyfloat) (w1 w2 w3 : world) (r : result unit)
    (rq : request) :
  requests_sent w2 = requests_sent w1 ++ [rq] -> slept w2 = slept w1 ->
  client_frame w1 w2 ->
  sleep (py_min d0 (Fin 10)) w2 = (r, w3) -> stretch w1 w3 [rq].
Proof.
  intros A B C Hs.
  destruct (capped_sleep_trace d0 w2 Hs) as (naps & A' & B' & C' & D' & F').
  exists naps. rewrite D', A, A', B. cbn [List.length].
  split; [reflexivity|]. split; [reflexivity|]. split; [exact B'|].
  split; [exact C' | eapply client_frame_trans; eauto].
Qed.

(** One pass through the body of the loop sends exactly one request and
    sleeps at most once, for at most ten seconds. *)
Lemma attempt_body_trace (rq : request) (attempt : nat)
    (last_err : option str) (w : world) :
  stretch w (snd (attempt_body E rq attempt last_err w)) [rq].
Proof.
  unfold attempt_body.
  assert (Hlog : stretch w (log_request rq w) [rq]).
  { exists []. rewrite app_nil_r. cbn [List.length].
    split; [reflexivity|]. split; [reflexivity|]. split; [lia|].
    split; [constructor | apply client_frame_log_request]. }
  assert (Hpr : forall o w1, is_saved o = false -> stretch w w1 [rq] ->
                             stretch w (print o w1) [rq]).
  { intros o w1 Ho H1. apply (stretch_frame H1); auto.
    now apply client_frame_print. }
  assert (Hnap : forall d0 w1 r w2, stretch w w1 [rq] -> slept w1 = slept w ->
            sleep (py_min d0 (Fin 10)) w1 = (r, w2) -> stretch w w2 [rq]).
  { intros d0 w1 r w2 (naps & A & B & C & D & F) Hsl Hs.
    eapply stretch_sleep; eauto. }
  destruct (post E (List.length (requests_sent w)) rq) as [|e|resp].
  - destruct (sleep _ _) as [[[]|e] w3] eqn:Hs; cbn [snd];
      (eapply Hnap; [| |exact Hs]; [|reflexivity]);
      apply Hpr; auto;
      apply (stretch_frame Hlog); auto using client_frame_count_draw.
  - destruct (is_Exception e); exact Hlog.
  - destruct (status_code resp =? 200).
    + destruct (bind (json_body resp) message_content) as [c|e];
        [|destruct (is_Exception e)]; exact Hlog.
    + destruct (is_retry_status (status_code resp)).
      * destruct (retry_after_delay _ _ _) as [d0 drew].
        destruct (sleep _ _) as [[[]|e] w3] eqn:Hs; cbn [snd];
          (eapply Hnap; [| |exact Hs]; [|destruct drew; reflexivity]);
          apply Hpr; auto; destruct drew; auto;
          apply (stretch_frame Hlog); auto using client_frame_count_draw.
      * destruct (status_code resp =? 404);
          [|destruct (status_code resp =? 401)]; cbn [snd]; auto.
Qed.

Lemma retry_loop_trace (rq : request) (attempts : list nat)
    (last_err : option str) (w : world) :
  exists k, (k <= List.length attempts)%nat
    /\ stretch w (snd (retry_loop E rq attempts last_err w))
                (List.repeat rq k).
Proof.
  revert last_err w.
  induction attempts as [|a rest IH]; intros last_err w; cbn [retry_loop].
  - exists 0%nat. split; [cbn; lia | apply stretch_nil].
  - pose proof (attempt_body_trace rq a last_err w) as Hb.
    destruct (attempt_body E rq a last_err w) as [[c le] w1]. cbn [snd] in Hb.
    destruct c;
      try (exists 1%nat; split; [cbn; lia | exact Hb]).
    destruct (IH le w1) as (k & Hk & Hs).
    exists (S k). split; [cbn; lia|].
    change (List.repeat rq (S k)) with ([rq] ++ List.repeat rq k).
    eapply stretch_app; eauto.
Qed.

Lemma blocks_zeros (models : list str) :
  blocks models (List.repeat 0%nat (List.length models)) = [].
Proof. induction models; cbn; auto. Qed.

Lemma length_blocks (models : list str) (ks : list nat) :
  List.length ks = List.length models ->
  List.length (blocks models ks) = list_sum ks.
Proof.
  revert ks; induction models as [|m ms IH]; intros [|k ks] H;
    try discriminate; cbn; [reflexivity|].
  rewrite length_app, repeat_length, IH; [reflexivity|].
  cbn in H. lia.
Qed.

Lemma list_sum_bound (ks : list nat) (b : nat) :
  Forall (fun k => (k <= b)%nat) ks ->
  (list_sum ks <= b * List.length ks)%nat.
Proof.
  induction 1 as [|k ks Hk _ IH]; cbn [list_sum List.length fold_right].
  - lia.
  - rewrite Nat.mul_succ_r. unfold list_sum in IH. lia.
Qed.

(** The loop over the candidates sends, model after model in their
    order, at most five requests each. *)
Lemma model_loop_trace (mk : str -> request) (models : list str)
    (last_err : option str) (w : world) :
  exists ks,
    List.length ks = List.length models
    /\ Forall (fun k => (k <= 5)%nat) ks
    /\ stretch w (snd (model_loop E mk models last_err w))
                (List.map mk (blocks models ks)).
Proof.
  revert last_err w.
  induction models as [|m ms IH]; intros last_err w; cbn [model_loop].
  - exists []. split; [reflexivity|]. split; [constructor|apply stretch_nil].
  - destruct (retry_loop_trace (mk m) (seq 0 5) last_err w) as (k & Hk & Hs).
    cbn [List.length seq] in Hk.
    destruct (retry_loop E (mk m) (seq 0 5) last_err w) as [[c le] w1].
    cbn [snd] in Hs.
    assert (Hstop : exists ks,
               List.length ks = List.length (m :: ms)
               /\ Forall (fun k => (k <= 5)%nat) ks
               /\ stretch w w1 (List.map mk (blocks (m :: ms) ks))).
    { exists (k :: List.repeat 0%nat (List.length ms)).
      split; [cbn; now rewrite repeat_length|].
      split; [constructor; [exact Hk|]; apply Forall_forall;
              intros x Hx; apply repeat_spec in Hx; lia|].
      cbn [blocks]. rewrite blocks_zeros, app_nil_r, map_repeat. exact Hs. }
    assert (Hgo : exists ks,
               List.length ks = List.length (m :: ms)
               /\ Forall (fun k => (k <= 5)%nat) ks
               /\ stretch w (snd (model_loop E mk ms le w1))
                           (List.map mk (blocks (m :: ms) ks))).
    { destruct (IH le w1) as (ks & Hl & Hf & Hs').
      exists (k :: ks). split; [cbn; congruence|].
      split; [constructor; assumption|].
      cbn [blocks]. rewrite map_app, map_repeat.
      eapply stretch_app; eauto. }
    destruct c; cbn [snd]; assumption.
Qed.

Lemma get_proverbs_context_stretch (w : world) :
  stretch w (snd (get_proverbs_context E w)) [].
Proof.
  assert (H : forall w1, requests_sent w1 = requests_sent w ->
                         slept w1 = slept w -> client_frame w w1 ->
                         stretch w w1 []).
  { intros w1 A B C. apply (stretch_frame (stretch_nil w)); auto. }
  unfold get_proverbs_context.
  destruct (PROVERBS_CONTEXT w); [apply stretch_nil|].
  destruct (load_verses _) as [vs|e]; [|destruct (is_Exception e)];
    cbn [snd]; apply H; try reflexivity; unfold client_frame; repeat split.
Qed.

Lemma query_llm_runs_loop (prompt key : str) (w w1 : world) (limit : Z)
    (raw : str) :
  MISTRAL_API_KEY E = Some key -> key <> [] ->
  get_proverbs_context E w = (Ok raw, w1) ->
  max_context_chars E = Ok limit ->
  query_llm E prompt w
  = model_loop E (chat_request key prompt (truncate_context raw limit)
                               (TERRY_SETTINGS w))
               (model_candidates E w) None w1.
Proof.
  intros Hk Hne Hc Hl. unfold query_llm. rewrite Hk.
  destruct key as [|c key]; [congruence|]. cbn [truthy negb].
  rewrite Hc, Hl. reflexivity.
Qed.

(** The trace of a call of [query_llm], whatever the network does. *)
Lemma query_llm_trace (prompt : str) (w : world) :
  exists ks reqs,
    List.length ks = 4%nat
    /\ Forall (fun k => (k <= 5)%nat) ks
    /\ List.map rq_model reqs = blocks (model_candidates E w) ks
    /\ stretch w (snd (query_llm E prompt w)) reqs.
Proof.
  assert (Hnone : forall w1, stretch w w1 [] ->
            exists ks reqs,
              List.length ks = 4%nat
              /\ Forall (fun k => (k <= 5)%nat) ks
              /\ List.map rq_model reqs = blocks (model_candidates E w) ks
              /\ stretch w w1 reqs).
  { intros w1 H. exists [0; 0; 0; 0]%nat, [].
    split; [reflexivity|]. split; [repeat constructor|].
    split; [reflexivity | exact H]. }
  unfold query_llm.
  destruct (MISTRAL_API_KEY E) as [key|]; [|apply Hnone, stretch_nil].
  destruct (negb (truthy key)); [apply Hnone, stretch_nil|].
  pose proof (get_proverbs_context_stretch w) as Hc.
  destruct (get_proverbs_context E w) as [[raw|e] w1]; cbn [snd] in Hc;
    [|apply Hnone, Hc].
  destruct (max_context_chars E) as [limit|e]; [|apply Hnone, Hc].
  match goal with
  | |- context [model_loop E ?mk ?ms None w1] =>
      destruct (model_loop_trace mk ms None w1) as (ks & Hl & Hf & Hs);
      exists ks, (List.map mk (blocks ms ks))
  end.
  split; [exact Hl|]. split; [exact Hf|].
  split; [|rewrite <- (app_nil_l (List.map _ _)); eapply stretch_app; eauto].
  rewrite map_map. cbn [rq_model]. apply map_id.
Qed.

End ClientTrace.

Section TransientFailures.
Import PyStr Exc Corpus World Chat Notions ClientNotions.
Local Open Scope Z_scope.
Context {U : UnicodeData} {R : PyRuntime}.
Variable E : env.
Hypothesis Huni : uniform_in_range E.
Hypothesis Hnet : forall n rq, transient (post E n rq).

Lemma last_error_seen (w : world) (le : str) :
  last_error E w le -> seen_error E le.
Proof.
  intros (before & rq & _ & He).
  destruct (post E (List.length before) rq) as [|e|resp] eqn:Hp;
    cbn [error_of] in He; [left | discriminate | right];
    injection He as <-; [reflexivity|].
  exists (List.length before), rq, resp. split; [exact Hp|reflexivity].
Qed.

Lemma attempt_body_transient (rq : request) (attempt : nat)
    (last_err : option str) (w : world) :
  exists le w1,
    attempt_body E rq attempt last_err w = (Continue, Some le, w1)
    /\ last_error E w1 le
    /\ requests_sent w1 = requests_sent w ++ [rq]
    /\ List.length (slept w1) = S (List.length (slept w)).
Proof.
  pose proof (Hnet (List.length (requests_sent w)) rq) as Ht.
  destruct (post E (List.length (requests_sent w)) rq) as [|e|resp] eqn:Hp;
    [| contradiction |].
  - unfold attempt_body. rewrite Hp.
    destruct (backoff_sleeps Huni attempt (draws (log_request rq w)))
      as (q & Hq & Hpos).
    rewrite Hq. erewrite capped_sleep by eassumption.
    eexists _, _. split; [reflexivity|].
    split; [exists (requests_sent w), rq; split;
            [reflexivity | now rewrite Hp]|].
    split; [reflexivity|]. cbn. rewrite length_app. cbn. lia.
  - destruct Ht as [Hs Hra].
    destruct (retry_delay_sleeps Huni attempt (draws w) Hra)
      as (q & Hq & Hpos).
    destruct (attempt_body_retry E rq attempt last_err w Hp Hs Hq Hpos)
      as (w1 & Hb & Hr & Hsl).
    exists (text resp), w1. split; [exact Hb|].
    split; [exists (requests_sent w), rq; split;
            [exact Hr | now rewrite Hp]|].
    split; [exact Hr|].
    rewrite Hsl, length_app. cbn. lia.
Qed.

Lemma retry_loop_transient (rq : request) (attempts : list nat)
    (last_err : option str) (w : world) :
  attempts <> [] ->
  exists le w1,
    retry_loop E rq attempts last_err w = (Continue, Some le, w1)
    /\ last_error E w1 le
    /\ requests_sent w1
       = requests_sent w ++ List.repeat rq (List.length attempts)
    /\ List.length (slept w1)
       = (List.length (slept w) + List.length attempts)%nat.
Proof.
  revert last_err w.
  induction attempts as [|a rest IH]; intros last_err w Hne; [congruence|].
  cbn [retry_loop].
  destruct (attempt_body_transient rq a last_err w)
    as (le & w1 & Hb & Hse & Hr & Hsl).
  rewrite Hb. destruct rest as [|a' rest'].
  - exists le, w1. cbn. repeat split; auto; lia.
  - destruct (IH (Some le) w1 ltac:(discriminate))
      as (le' & w2 & Hl & Hse' & Hr' & Hsl').
    exists le', w2. split; [exact Hl|]. split; [exact Hse'|].
    rewrite Hr', Hr, Hsl', Hsl, <- app_assoc. cbn [List.length].
    split; [reflexivity | lia].
Qed.

Lemma model_loop_transient (mk : str -> request) (models : list str)
    (le0 : str) (w : world) :
  last_error E w le0 ->
  exists le w1,
    model_loop E mk models (Some le0) w
    = (Ok (lit "[FAILED] after retries & fallbacks. Last error: " ++ le), w1)
    /\ last_error E w1 le
    /\ requests_sent w1
       = requests_sent w
         ++ List.map mk (blocks models
                                (List.repeat 5%nat (List.length models)))
    /\ List.length (slept w1)
       = (List.length (slept w) + 5 * List.length models)%nat.
Proof.
  revert le0 w. induction models as [|m ms IH]; intros le0 w Hse.
  - exists le0, w. cbn. rewrite app_nil_r. repeat split; auto; lia.
  - cbn [model_loop].
    destruct (@retry_loop_transient (mk m) (seq 0 5) (Some le0) w
                ltac:(discriminate))
      as (le & w1 & Hl & Hse' & Hr & Hsl).
    rewrite Hl. destruct (IH le w1 Hse') as (le' & w2 & Hm & Hse2 & Hr2 & Hsl2).
    exists le', w2. split; [exact Hm|]. split; [exact Hse2|].
    rewrite Hr2, Hr, Hsl2, Hsl. cbn [List.length seq].
    change (List.repeat 5%nat (S (List.length ms)))
      with (5%nat :: List.repeat 5%nat (List.length ms)).
    cbn [blocks]. rewrite map_app, map_repeat, <- app_assoc.
    split; [reflexivity | lia].
Qed.

(** The error of the last request, counted from an earlier world. *)
Lemma last_error_since (w w' : world) (reqs : list request) (le : str) :
  requests_sent w' = requests_sent w ++ reqs -> reqs <> [] ->
  last_error E w' le ->
  exists rq,
    nth_error reqs (Nat.pred (List.length reqs)) = Some rq
    /\ error_of (post E (List.length (requests_sent w)
                         + Nat.pred (List.length reqs))%nat rq) = Some le.
Proof.
  intros Hr Hne (before & rq & Hb & He).
  destruct (exists_last Hne) as (front & rq' & ->).
  rewrite Hr, app_assoc in Hb. apply app_inj_tail in Hb as [Hb <-].
  exists rq'. rewrite length_app. cbn [List.length].
  replace (Nat.pred (List.length front + 1)) with (List.length front) by lia.
  split.
  - rewrite nth_error_app2, Nat.sub_diag by lia. reflexivity.
  - rewrite <- Hb, length_app in He. exact He.
Qed.

End TransientFailures.

Section ClientProperties.
Import PyStr Exc Corpus World Chat Samples Notions ClientNotions.
Local Open Scope Z_scope.

(** X3.  Whatever the network answers, a call of [query_llm] sends its
    requests to the candidate models in their order, at most five in a
    row to each, so at most twenty; it sleeps at most once per request,
    each time for a delay between 0 and 10 seconds; and it leaves the
    settings and the favourites as they were. *)
Theorem query_llm_tries_models_in_order
    (U : UnicodeData) (R : PyRuntime) (E : env) (prompt : str) (w : world) :
  let w' := snd (query_llm E prompt w) in
  (exists ks,
      List.length ks = 4%nat
      /\ Forall (fun k => (k <= 5)%nat) ks
      /\ List.map rq_model (sent_since w w')
         = blocks (model_candidates E w) ks)
  /\ (List.length (sent_since w w') <= 20)%nat
  /\ (List.length (slept_since w w') <= List.length (sent_since w w'))%nat
  /\ Forall nap_ok (slept_since w w')
  /\ TERRY_SETTINGS w' = TERRY_SETTINGS w
  /\ favorites w' = favorites w.
Proof.
  cbv zeta.
  destruct (query_llm_trace E prompt w)
    as (ks & reqs & Hl & Hf & Hm & naps & A & B & C & D & F).
  rewrite (@sent_since_app _ _ _ A), (@slept_since_app _ _ _ B).
  split; [exists ks; auto|].
  split.
  { rewrite <- (length_map rq_model), Hm, length_blocks by (now rewrite Hl).
    pose proof (list_sum_bound Hf) as Hb. rewrite Hl in Hb. lia. }
  split; [exact C|]. split; [exact D|].
  destruct F as (F1 & _ & _ & F4 & _). auto.
Qed.

Lemma truncate_context_short (raw : str) (limit : Z) :
  len raw <= limit -> truncate_context raw limit = raw.
Proof.
  intros H. unfold truncate_context.
  destruct (Z.gtb_spec (len raw) limit); [lia | reflexivity].
Qed.

Lemma truncate_context_bound (raw : str) (limit : Z) :
  0 <= limit -> len (truncate_context raw limit) <= limit + 2.
Proof.
  intros H. unfold truncate_context.
  destruct (Z.gtb_spec (len raw) limit); [|lia].
  unfold slice_to. destruct (Z.ltb_spec limit 0); [lia|].
  unfold len. rewrite length_app, length_firstn. cbn [List.length]. lia.
Qed.

(** X4.  Every request a call of [query_llm] sends carries the bearer
    credential, the token budget and the temperature of the settings,
    and two messages: the system prompt built from the cached context,
    and the prompt of the user as it was given.  The context is whole
    when it is within the limit, and otherwise cut so that with its
    two-character marker it is at most the limit plus two long. *)
Theorem query_llm_requests_carry_prompt
    (U : UnicodeData) (R : PyRuntime) (E : env) (prompt key raw : str)
    (w w1 : world) (limit : Z) :
  MISTRAL_API_KEY E = Some key -> key <> [] ->
  get_proverbs_context E w = (Ok raw, w1) ->
  max_context_chars E = Ok limit ->
  Forall (fun rq =>
            rq_authorization rq = lit "Bearer " ++ key
            /\ rq_messages rq
               = [ (lit "system",
                    system_prompt (truncate_context raw limit));
                   (lit "user", prompt) ]
            /\ rq_max_tokens rq = max_tokens (TERRY_SETTINGS w)
            /\ rq_temperature rq = temperature (TERRY_SETTINGS w))
         (sent_since w (snd (query_llm E prompt w)))
  /\ (len raw <= limit -> truncate_context raw limit = raw)
  /\ (0 <= limit -> len (truncate_context raw limit) <= limit + 2).
Proof.
  intros Hk Hne Hc Hl.
  split; [|split; [apply truncate_context_short
                  | apply truncate_context_bound]].
  rewrite (query_llm_runs_loop E prompt w Hk Hne Hc Hl).
  destruct (model_loop_trace E
              (chat_request key prompt (truncate_context raw limit)
                            (TERRY_SETTINGS w))
              (model_candidates E w) None w1)
    as (ks & _ & _ & naps & A & _).
  pose proof (get_proverbs_context_stretch E w) as (n0 & A0 & _).
  rewrite Hc in A0. cbn [snd] in A0. rewrite app_nil_r in A0.
  rewrite A0 in A. rewrite (@sent_since_app _ _ _ A).
  apply Forall_forall. intros rq Hrq.
  apply in_map_iff in Hrq as (m & <- & _). repeat split.
Qed.

Lemma query_llm_requests_carry_prompt_witness :
  Forall (fun rq =>
            rq_authorization rq = lit "Bearer key"
            /\ rq_messages rq
               = [ (lit "system",
                    system_prompt
                      (lit "Proverbs 1:7 The fear of the LORD" ++ [10%N]
                       ++ lit "Proverbs ? Go to the ant"));
                   (lit "user", lit "What is wisdom?") ]
            /\ rq_max_tokens rq = 256
            /\ rq_temperature rq = Fin (7 # 10))
         (sent_since start
            (snd (@query_llm ascii_digits plain_runtime
                    (surroundings first_model_unknown)
                    (lit "What is wisdom?") start))).
Proof.
  exact (proj1 (@query_llm_requests_carry_prompt ascii_digits plain_runtime
                  (surroundings first_model_unknown) (lit "What is wisdom?")
                  (lit "key") _ start _ 6000 eq_refl
                  (fun H => @nil_cons _ _ _ (eq_sym H)) eq_refl eq_refl)).
Defined.

Lemma slept_since_length (w w' : world) (n : nat) :
  List.length (slept w') = (List.length (slept w) + n)%nat ->
  List.length (slept_since w w') = n.
Proof. intros H. unfold slept_since. rewrite length_skipn. lia. Qed.

(** X5.  When every call meets a failure that may pass (a timeout, or a
    status 429, 502, 503 or 504 with a header that is in order),
    [query_llm] tries each of the four candidates five times, sleeping
    after each of the twenty requests, and returns the text that starts
    with [FAILED] and ends with the last error seen; after timeouts
    alone that error reads timeout, and the next model was taken after
    five timeouts on one. *)
Theorem transient_failures_exhaust_candidates
    (U : UnicodeData) (R : PyRuntime) (E : env) (prompt key : str)
    (w : world) (limit : Z) :
  MISTRAL_API_KEY E = Some key -> key <> [] ->
  (forall e, load_verses (PROVERBS_FILE E (loads w)) = Raise e ->
             is_Exception e = true) ->
  max_context_chars E = Ok limit ->
  uniform_in_range E ->
  (forall n rq, transient (post E n rq)) ->
  exists le w',
    query_llm E prompt w
    = (Ok (lit "[FAILED] after retries & fallbacks. Last error: " ++ le), w')
    /\ (exists rq,
          nth_error (sent_since w w') 19 = Some rq
          /\ error_of (post E (List.length (requests_sent w) + 19)%nat rq)
             = Some le)
    /\ seen_error E le
    /\ ((forall n rq, post E n rq = TimedOut) -> le = lit "timeout")
    /\ List.map rq_model (sent_since w w')
       = blocks (model_candidates E w) [5; 5; 5; 5]%nat
    /\ List.length (slept_since w w') = 20%nat.
Proof.
  intros Hk Hne Hload Hlim Huni Hnet.
  destruct (get_proverbs_context_returns E w Hload) as (raw & w1 & Hctx).
  rewrite (query_llm_runs_loop E prompt w Hk Hne Hctx Hlim).
  destruct (get_proverbs_context_frame E w Hctx) as (Hreq & Hsl & _).
  set (mk := chat_request key prompt (truncate_context raw limit)
                          (TERRY_SETTINGS w)).
  unfold model_candidates. cbn [model_loop].
  match goal with
  | |- context [retry_loop E ?rq (seq 0 5) None w1] =>
      destruct (@retry_loop_transient R E Huni Hnet rq (seq 0 5) None w1
                  ltac:(discriminate))
        as (le & w2 & Hl & Hse & Hr & Hs)
  end.
  rewrite Hl.
  destruct (@model_loop_transient R E Huni Hnet mk
              [lit "mistral-large-latest"; lit "mistral-small-latest";
               lit "open-mixtral-8x7b"] le w2 Hse)
    as (le' & w3 & Hm & Hse' & Hr' & Hs').
  rewrite Hr, Hreq in Hr'. rewrite <- app_assoc in Hr'.
  exists le', w3. split; [exact Hm|].
  split.
  { destruct (@last_error_since E w w3 _ le' Hr' ltac:(discriminate) Hse')
      as (rq & Hn & He).
    exists rq. rewrite (@sent_since_app _ _ _ Hr'). split; [exact Hn|exact He]. }
  split; [exact (last_error_seen Hse')|].
  split.
  { intros Hall. destruct (last_error_seen Hse')
      as [H|(n & rq & resp & Hp & _)]; [exact H|].
    rewrite Hall in Hp. discriminate. }
  split.
  - rewrite (@sent_since_app _ _ _ Hr'). cbn [List.length seq].
    rewrite <- map_repeat, <- map_app, map_map.
    cbn [List.length List.repeat blocks]. apply map_id.
  - apply slept_since_length. rewrite Hs', Hs, Hsl. cbn. lia.
Qed.

Lemma transient_failures_exhaust_candidates_witness :
  exists w',
    @query_llm ascii_digits plain_runtime (surroundings busy_at_last)
               (lit "What is wisdom?") start
    = (Ok (lit "[FAILED] after retries & fallbacks. Last error: busy"), w')
    /\ List.map rq_model (sent_since start w')
       = blocks (model_candidates (surroundings busy_at_last) start)
                [5; 5; 5; 5]%nat
    /\ List.length (slept_since start w') = 20%nat.
Proof.
  destruct (@transient_failures_exhaust_candidates ascii_digits plain_runtime
              (surroundings busy_at_last) (lit "What is wisdom?")
              (lit "key") start 6000)
    as (le & w' & Hq & (rq & _ & He) & _ & _ & Hm & Hs).
  - reflexivity.
  - discriminate.
  - intros e H. vm_compute in H. discriminate.
  - reflexivity.
  - intros n. split; [discriminate | reflexivity].
  - intros n rq. cbn [surroundings post]. unfold busy_at_last.
    destruct (Nat.eqb n 19); [|exact I].
    split; [reflexivity|]. intros s f H. discriminate.
  - exists w'. cbn in He. injection He as <-.
    split; [exact Hq|]. split; [exact Hm|exact Hs].
Defined.

(** A body without the shape of an answer makes the extraction raise. *)
Lemma message_content_malformed (R : PyRuntime) (data : json) :
  choices_content data = None -> exists e, message_content data = Raise e.
Proof.
  unfold choices_content, message_content, subscript.
  destruct data as [| | | | | |d]; try (intros _; eexists; reflexivity).
  destruct (dict_get d (lit "choices")) as [v|];
    [|intros _; eexists; reflexivity].
  cbn [bind]. unfold subscript_zero.
  destruct v as [| | | |[|c s]|[|x l]|d']; try (intros _; eexists; reflexivity).
  cbn [bind].
  destruct x as [| | | | | |c]; try (intros _; eexists; reflexivity).
  destruct (dict_get c (lit "message")) as [m|];
    [|intros _; eexists; reflexivity].
  cbn [bind].
  destruct m as [| | | | | |m]; try (intros _; eexists; reflexivity).
  destruct (dict_get m (lit "content")) as [v|];
    [|intros _; eexists; reflexivity].
  cbn [bind].
  destruct v; try (intros _; eexists; reflexivity). discriminate.
Qed.

(** When the first pass through the loop returns, so does [query_llm],
    after the one request of that pass. *)
Lemma query_llm_first_attempt (U : UnicodeData) (R : PyRuntime) (E : env)
    (prompt key : str) (w : world) (limit : Z) (s : str) :
  MISTRAL_API_KEY E = Some key -> key <> [] ->
  (forall e, load_verses (PROVERBS_FILE E (loads w)) = Raise e ->
             is_Exception e = true) ->
  max_context_chars E = Ok limit ->
  (forall rq w1 le,
      requests_sent w1 = requests_sent w ->
      attempt_body E rq 0 le w1 = (Return s, le, log_request rq w1)) ->
  exists w',
    query_llm E prompt w = (Ok s, w')
    /\ List.map rq_model (sent_since w w')
       = [hd [] (model_candidates E w)]
    /\ slept w' = slept w.
Proof.
  intros Hk Hne Hload Hlim Hbody.
  destruct (get_proverbs_context_returns E w Hload) as (raw & w1 & Hctx).
  rewrite (query_llm_runs_loop E prompt w Hk Hne Hctx Hlim).
  destruct (get_proverbs_context_frame E w Hctx) as (Hreq & Hsl & _).
  unfold model_candidates. cbn [model_loop seq retry_loop hd].
  rewrite (Hbody _ w1 None Hreq).
  eexists. split; [reflexivity|]. split; [|exact Hsl].
  match goal with
  | |- List.map rq_model (sent_since w (log_request ?rq w1)) = _ =>
      rewrite (@sent_since_app w (log_request rq w1) [rq])
  end.
  - reflexivity.
  - cbn [requests_sent log_request]. now rewrite Hreq.
Qed.

(** X6.  A response with a status other than 200, 429, 502, 503, 504 and
    404 ends [query_llm] after this one request, without a sleep: for
    401 with the text on the credential, for any other status with a
    text that shows the status and at most the first 400 characters of
    the body. *)
Theorem fatal_status_ends_after_one_request
    (U : UnicodeData) (R : PyRuntime) (E : env) (prompt key : str)
    (w : world) (limit : Z) (resp : response) :
  MISTRAL_API_KEY E = Some key -> key <> [] ->
  (forall e, load_verses (PROVERBS_FILE E (loads w)) = Raise e ->
             is_Exception e = true) ->
  max_context_chars E = Ok limit ->
  (forall rq, post E (List.length (requests_sent w)) rq = Answer resp) ->
  status_code resp <> 200 ->
  is_retry_status (status_code resp) = false ->
  status_code resp <> 404 ->
  exists w',
    query_llm E prompt w
    = (Ok (if status_code resp =? 401 then unauthorized_text
           else lit "[LLM ERROR " ++ str_of_int (status_code resp)
                ++ lit "] " ++ slice_to (text resp) 400), w')
    /\ List.map rq_model (sent_since w w') = [hd [] (model_candidates E w)]
    /\ slept w' = slept w
    /\ len (slice_to (text resp) 400) <= 400.
Proof.
  intros Hk Hne Hload Hlim Hp H200 Hretry H404.
  destruct (@query_llm_first_attempt U R E prompt key w limit
              (if status_code resp =? 401 then unauthorized_text
               else lit "[LLM ERROR " ++ str_of_int (status_code resp)
                    ++ lit "] " ++ slice_to (text resp) 400)
              Hk Hne Hload Hlim) as (w' & Hq & Hm & Hs).
  { intros rq w1 le Hreq. unfold attempt_body. rewrite Hreq, Hp, Hretry.
    apply Z.eqb_neq in H200, H404. rewrite H200, H404.
    destruct (status_code resp =? 401); reflexivity. }
  exists w'. repeat split; auto.
  unfold slice_to, len. cbn. rewrite length_firstn. lia.
Qed.

Lemma fatal_status_ends_after_one_request_witness :
  exists w',
    @query_llm ascii_digits plain_runtime
       (surroundings (fun _ _ =>
          Answer (plain_response 500 None (lit "server error"))))
       (lit "What is wisdom?") start
    = (Ok (lit "[LLM ERROR 500] server error"), w')
    /\ List.map rq_model (sent_since start w') = [lit "open-mixtral-8x7b"]
    /\ slept w' = []
    /\ len (lit "server error") <= 400.
Proof.
  apply (@fatal_status_ends_after_one_request ascii_digits plain_runtime
           (surroundings (fun _ _ =>
              Answer (plain_response 500 None (lit "server error"))))
           (lit "What is wisdom?") (lit "key") start 6000
           (plain_response 500 None (lit "server error"))).
  - reflexivity.
  - discriminate.
  - intros e H. vm_compute in H. discriminate.
  - reflexivity.
  - reflexivity.
  - discriminate.
  - reflexivity.
  - discriminate.
Defined.

(** X7.  An exception of the transport that is not a timeout ends
    [query_llm] after this one request, without a sleep and without a
    try on another model: the text returned shows the message of the
    exception. *)
Theorem transport_error_ends_after_one_request
    (U : UnicodeData) (R : PyRuntime) (E : env) (prompt key : str)
    (w : world) (limit : Z) (e : exn) :
  MISTRAL_API_KEY E = Some key -> key <> [] ->
  (forall e', load_verses (PROVERBS_FILE E (loads w)) = Raise e' ->
              is_Exception e' = true) ->
  max_context_chars E = Ok limit ->
  (forall rq, post E (List.length (requests_sent w)) rq = Failed e) ->
  is_Exception e = true ->
  exists w',
    query_llm E prompt w = (Ok (lit "[LLM ERROR] " ++ exn_msg e), w')
    /\ List.map rq_model (sent_since w w') = [hd [] (model_candidates E w)]
    /\ slept w' = slept w.
Proof.
  intros Hk Hne Hload Hlim Hp He.
  apply (@query_llm_first_attempt U R E prompt key w limit _
           Hk Hne Hload Hlim).
  intros rq w1 le Hreq. unfold attempt_body. rewrite Hreq, Hp, He.
  reflexivity.
Qed.

Lemma transport_error_ends_after_one_request_witness :
  exists w',
    @query_llm ascii_digits plain_runtime
       (surroundings (fun _ _ =>
          Failed (Exn OSError (lit "Connection refused"))))
       (lit "What is wisdom?") start
    = (Ok (lit "[LLM ERROR] Connection refused"), w')
    /\ List.map rq_model (sent_since start w') = [lit "open-mixtral-8x7b"]
    /\ slept w' = [].
Proof.
  apply (@transport_error_ends_after_one_request ascii_digits plain_runtime
           (surroundings (fun _ _ =>
              Failed (Exn OSError (lit "Connection refused"))))
           (lit "What is wisdom?") (lit "key") start 6000
           (Exn OSError (lit "Connection refused"))).
  - reflexivity.
  - discriminate.
  - intros e H. vm_compute in H. discriminate.
  - reflexivity.
  - reflexivity.
  - reflexivity.
Defined.

(** X8.  A response 200 whose body is not JSON, or is JSON without a
    string at [choices[0].message.content], ends [query_llm] after this
    one request: the text returned names the failure and shows at most
    the first 300 characters of the body; the request is not tried
    again. *)
Theorem bad_json_ends_after_one_request
    (U : UnicodeData) (R : PyRuntime) (E : env) (prompt key : str)
    (w : world) (limit : Z) (resp : response) :
  MISTRAL_API_KEY E = Some key -> key <> [] ->
  (forall e, load_verses (PROVERBS_FILE E (loads w)) = Raise e ->
             is_Exception e = true) ->
  max_context_chars E = Ok limit ->
  (forall rq, post E (List.length (requests_sent w)) rq = Answer resp) ->
  status_code resp = 200 ->
  (exists e, json_body resp = Raise e /\ is_Exception e = true)
  \/ (exists data, json_body resp = Ok data /\ choices_content data = None) ->
  exists msg w',
    query_llm E prompt w
    = (Ok (lit "[LLM ERROR] Bad JSON: " ++ msg ++ lit " | Raw: "
           ++ slice_to (text resp) 300), w')
    /\ List.map rq_model (sent_since w w') = [hd [] (model_candidates E w)]
    /\ slept w' = slept w
    /\ len (slice_to (text resp) 300) <= 300.
Proof.
  intros Hk Hne Hload Hlim Hp H200 Hbad.
  assert (Hraise : exists e, bind (json_body resp) message_content = Raise e
                             /\ is_Exception e = true).
  { destruct Hbad as [(e & Hj & He)|(data & Hj & Hc)]; rewrite Hj; cbn [bind].
    - eauto.
    - destruct (message_content_malformed R data Hc) as (e & Hm).
      exists e. split; [exact Hm|].
      eapply message_content_raises_Exception; eauto. }
  destruct Hraise as (e & Hb & He). exists (exn_msg e).
  destruct (@query_llm_first_attempt U R E prompt key w limit
              (lit "[LLM ERROR] Bad JSON: " ++ exn_msg e ++ lit " | Raw: "
               ++ slice_to (text resp) 300)
              Hk Hne Hload Hlim) as (w' & Hq & Hm & Hs).
  { intros rq w1 le Hreq. unfold attempt_body. rewrite Hreq, Hp, H200.
    cbn [Z.eqb Pos.eqb]. rewrite Hb, He. reflexivity. }
  exists w'. repeat split; auto.
  unfold slice_to, len. cbn. rewrite length_firstn. lia.
Qed.

Lemma bad_json_ends_after_one_request_witness :
  exists msg w',
    @query_llm ascii_digits plain_runtime
       (surroundings (fun _ _ =>
          Answer (plain_response 200 None (lit "<html>"))))
       (lit "What is wisdom?") start
    = (Ok (lit "[LLM ERROR] Bad JSON: " ++ msg ++ lit " | Raw: "
           ++ lit "<html>"), w')
    /\ List.map rq_model (sent_since start w') = [lit "open-mixtral-8x7b"]
    /\ slept w' = []
    /\ len (lit "<html>") <= 300.
Proof.
  apply (@bad_json_ends_after_one_request ascii_digits plain_runtime
           (surroundings (fun _ _ =>
              Answer (plain_response 200 None (lit "<html>"))))
           (lit "What is wisdom?") (lit "key") start 6000
           (plain_response 200 None (lit "<html>"))).
  - reflexivity.
  - discriminate.
  - intros e H. vm_compute in H. discriminate.
  - reflexivity.
  - reflexivity.
  - reflexivity.
  - left. eexists. split; reflexivity.
Defined.

End ClientProperties.

(** ** More on SessionController *)

Section SessionInvariants.
Import PyStr Exc Corpus Render World Chat Session ClientNotions SessionNotions.
Context {U : UnicodeData} {R : PyRuntime} {T : TextWrap}.
Variable E : env.
Variable verses0 : list verse.

Lemma quiet_refl (w : world) : quiet w w.
Proof. split; reflexivity. Qed.

Lemma quiet_trans (w1 w2 w3 : world) :
  quiet w1 w2 -> quiet w2 w3 -> quiet w1 w3.
Proof. intros [A B] [C D]. split; congruence. Qed.

Lemma quiet_print (o : out_event) (w : world) :
  is_saved o = false -> quiet w (print o w).
Proof.
  intros H. destruct (client_frame_print o w H) as (_ & _ & _ & A & B).
  split; assumption.
Qed.

Lemma quiet_client (w w' : world) : client_frame w w' -> quiet w w'.
Proof. intros (_ & _ & _ & A & B). split; assumption. Qed.

Lemma last_box_print (o : out_event) (out : list out_event) :
  last_box (out ++ [o])
  = match o with PrintBox b => Some b | _ => last_box out end.
Proof. unfold last_box. rewrite fold_left_app. reflexivity. Qed.

(** What is printed below the box leaves the verse on display. *)
Lemma on_display_print (o : out_event) (v : verse) (w : world) :
  (forall b, o <> PrintBox b) ->
  on_display v w -> on_display v (print o w).
Proof.
  intros Ho [width H]. exists width.
  change (printed (print o w)) with (printed w ++ [o]).
  rewrite last_box_print. destruct o; try exact H.
  exfalso. eapply Ho. reflexivity.
Qed.

Lemma on_display_same (v : verse) (w w' : world) :
  printed w' = printed w -> on_display v w -> on_display v w'.
Proof. intros H [width Hd]. exists width. now rewrite H. Qed.

Lemma settled_quiet (w w1 : world) (st : status) :
  quiet w w1 -> settled verses0 w1 st -> settled verses0 w st.
Proof. intros Hq [A B]. split; [exact A | eapply quiet_trans; eauto]. Qed.

Lemma settled_finish (pending : option exn) (w : world) :
  settled verses0 w (finish E pending w).
Proof.
  unfold finish. destruct (stdin_isatty E); split; cbn [in_corpus world_of];
    auto using quiet_print.
Qed.

Lemma settled_leave_main (e : exn) (w : world) : settled verses0 w (leave_main E e w).
Proof.
  unfold leave_main. destruct (is_KeyboardInterrupt e); apply settled_finish.
Qed.

Lemma settled_show_random (w : world) : settled verses0 w (show_random E verses0 w).
Proof.
  unfold show_random, random_choice.
  destruct (nth_error verses0 _) as [v|] eqn:Hn.
  - split; cbn [in_corpus world_of].
    + split; [reflexivity|]. exists v. split; [reflexivity|].
      split; [eapply nth_error_In; eauto|].
      eexists. cbn [printed print]. rewrite !last_box_print. reflexivity.
    + eapply quiet_trans; [|apply quiet_print; reflexivity].
      eapply quiet_trans; [|apply quiet_print; reflexivity].
      split; reflexivity.
  - apply settled_leave_main.
Qed.

Lemma settled_browse (cur : option verse) (w : world) :
  (forall v, cur = Some v -> In v verses0 /\ on_display v w) ->
  settled verses0 w (browse E verses0 cur w).
Proof.
  intros H. unfold browse. destruct cur as [v|]; [|apply settled_show_random].
  split; cbn [in_corpus world_of]; [|apply quiet_refl].
  split; [reflexivity|]. exists v. destruct (H v eq_refl). auto.
Qed.

Lemma settled_back_to_main (w : world) :
  settled verses0 w (back_to_main E verses0 w).
Proof.
  unfold back_to_main.
  eapply settled_quiet; [|apply settled_browse; discriminate].
  apply quiet_print; reflexivity.
Qed.

Lemma settled_chatting (w w1 : world) :
  quiet w w1 -> settled verses0 w (Waiting (Chatting verses0) w1).
Proof. intros H. split; [reflexivity | exact H]. Qed.

Lemma settled_chat_line (query : str) (w : world) :
  settled verses0 w (chat_line E verses0 query w).
Proof.
  unfold chat_line.
  destruct (negb (truthy (strip query)));
    [apply settled_chatting, quiet_refl|].
  destruct (is_word (strip query) "q"); [apply settled_leave_main|].
  destruct (is_word (strip query) "b").
  { eapply settled_quiet; [|apply settled_back_to_main].
    apply quiet_print; reflexivity. }
  destruct (startswith _ (lit "/model ")).
  { destruct (second_word (strip query)); [|apply settled_leave_main].
    apply settled_chatting.
    eapply quiet_trans; [|apply quiet_print; reflexivity]. split; reflexivity. }
  destruct (startswith _ (lit "/temp ")).
  { destruct (bind _ _); apply settled_chatting;
      (eapply quiet_trans; [|apply quiet_print; reflexivity]);
      split; reflexivity. }
  destruct (startswith _ (lit "/max ")).
  { destruct (bind _ _); apply settled_chatting;
      (eapply quiet_trans; [|apply quiet_print; reflexivity]);
      split; reflexivity. }
  destruct (_ || _).
  { apply settled_chatting, quiet_print. reflexivity. }
  destruct (query_llm_trace E (strip query) w)
    as (ks & reqs & _ & _ & _ & naps & _ & _ & _ & _ & Hf).
  apply quiet_client in Hf.
  destruct (query_llm E (strip query) w) as [[answer|e] w1]; cbn [snd] in Hf.
  - apply settled_chatting.
    eapply quiet_trans; [|apply quiet_print; reflexivity].
    eapply quiet_trans; [|apply quiet_print; reflexivity]. exact Hf.
  - apply (settled_quiet Hf).
    destruct (is_KeyboardInterrupt e); [|apply settled_leave_main].
    eapply settled_quiet; [|apply settled_back_to_main].
    apply quiet_print; reflexivity.
Qed.

Variable w0 : world.

Lemma logged_quiet (w w' : world) :
  logged E verses0 w0 w -> quiet w w' -> logged E verses0 w0 w'.
Proof.
  intros (lines & A & B & C) [Q1 Q2]. exists lines.
  rewrite Q1, Q2. auto.
Qed.

Lemma kept_logged (st : status) :
  logged E verses0 w0 (world_of st) -> kept E verses0 w0 st.
Proof.
  intros (lines & A & B & C). exists lines, [].
  rewrite app_nil_r. auto.
Qed.

Lemma kept_in_session (st : status) :
  in_session st = true -> kept E verses0 w0 st ->
  logged E verses0 w0 (world_of st).
Proof.
  intros Hs (lines & rest & A & B & C & [->|[Ho _]]); [|congruence].
  exists lines. rewrite app_nil_r in A. auto.
Qed.

(** Once the session is over, the log stays as it is. *)
Lemma kept_over (st st' : status) :
  in_session st' = false -> quiet (world_of st) (world_of st') ->
  kept E verses0 w0 st -> kept E verses0 w0 st'.
Proof.
  intros Ho [Q1 Q2] (lines & rest & A & B & C & D).
  exists lines, rest. rewrite Q1, Q2.
  split; [exact A|]. split; [exact B|]. split; [exact C|].
  destruct D as [D|[_ D]]; [now left | right; auto].
Qed.

Lemma kept_settled (w : world) (st : status) :
  logged E verses0 w0 w -> settled verses0 w st ->
  in_corpus verses0 st /\ kept E verses0 w0 st.
Proof.
  intros H [A B]. split; [exact A|].
  apply kept_logged. eapply logged_quiet; eauto.
Qed.

Lemma logged_save (w : world) (v : verse) :
  logged E verses0 w0 w -> In v verses0 ->
  logged E verses0 w0
         (print PrintSaved (append_favorite (favorite_line E (clock w) v) w)).
Proof.
  intros (lines & A & B & C) Hv.
  exists (lines ++ [favorite_line E (clock w) v]).
  split; [cbn [favorites print append_favorite]; now rewrite A, app_assoc|].
  split.
  - change (printed (print PrintSaved
                       (append_favorite (favorite_line E (clock w) v) w)))
      with (printed w ++ [PrintSaved]).
    rewrite saved_count_app, B, length_app. cbn. lia.
  - apply Forall_app. split; [exact C|]. constructor; [eauto | constructor].
Qed.

Lemma leave_main_over (e : exn) (w : world) :
  in_session (leave_main E e w) = false
  /\ world_of (leave_main E e w) = print PrintBye w.
Proof.
  unfold leave_main, finish.
  destruct (is_KeyboardInterrupt e), (stdin_isatty E); split; reflexivity.
Qed.

(** An append that fails leaves a part of a line, or nothing, and ends
    the session. *)
Lemma kept_failed_save (w : world) (e : exn) (reached : str) :
  logged E verses0 w0 w ->
  favorites_io E (clock w) = Some (e, reached) ->
  kept E verses0 w0 (leave_main E e (leave_part reached w)).
Proof.
  intros Hl Hio. destruct reached as [|c reached].
  - apply kept_logged. eapply logged_quiet; [exact Hl|].
    apply settled_leave_main.
  - destruct Hl as (lines & A & B & C).
    destruct (leave_main_over e (leave_part (c :: reached) w)) as [Ho Hw].
    exists lines, [c :: reached]. rewrite Hw.
    split; [cbn [leave_part favorites print append_favorite];
            now rewrite A, app_assoc|].
    split.
    { change (printed (print PrintBye (leave_part (c :: reached) w)))
        with (printed w ++ [PrintBye]).
      rewrite saved_count_app, B. cbn. lia. }
    split; [exact C|]. right. split; [exact Ho|].
    exists e, (c :: reached), (clock w).
    split; [reflexivity|]. split; [discriminate | exact Hio].
Qed.

Lemma browse_line_inv (cur : option verse) (s : str) (w : world) :
  logged E verses0 w0 w ->
  (exists v, cur = Some v /\ In v verses0 /\ on_display v w) ->
  in_corpus verses0 (browse_line E verses0 cur s w)
  /\ kept E verses0 w0 (browse_line E verses0 cur s w).
Proof.
  intros Hl (v & -> & Hv & Hd).
  unfold browse_line.
  destruct (str_eqb _ (lit "q"));
    [apply (kept_settled Hl), settled_finish|].
  destruct (str_eqb _ (lit "h")).
  { apply (kept_settled Hl).
    eapply settled_quiet; [|apply settled_browse].
    - apply quiet_print; reflexivity.
    - intros v' H. injection H as <-. split; [exact Hv|].
      apply on_display_print; [discriminate | exact Hd]. }
  destruct (str_eqb _ (lit "s")).
  { unfold save_favorite.
    destruct (favorites_io E (clock w)) as [[e reached]|] eqn:Hio.
    - split; [apply settled_leave_main | now apply kept_failed_save].
    - cbn [browse in_corpus world_of]. split.
      + split; [reflexivity|]. exists v. split; [reflexivity|].
        split; [exact Hv|].
        apply on_display_print; [discriminate|].
        eapply on_display_same; [|exact Hd]. reflexivity.
      + apply kept_logged. now apply logged_save. }
  destruct (str_eqb _ (lit "/terry")).
  { apply (kept_settled Hl). unfold terry_mode.
    apply settled_chatting, quiet_print. reflexivity. }
  apply (kept_settled Hl), settled_show_random.
Qed.

Lemma quiet_tick (w : world) : quiet w (tick w).
Proof. split; reflexivity. Qed.

(** An input event keeps the program in the corpus and the log in
    order. *)
Lemma step_inv (p : position) (ev : in_event) (w : world) :
  in_corpus verses0 (Waiting p w) -> kept E verses0 w0 (Waiting p w) ->
  in_corpus verses0 (step E p ev (tick w))
  /\ kept E verses0 w0 (step E p ev (tick w)).
Proof.
  intros Hc Hk.
  assert (Hover : forall st, in_session st = false ->
                             world_of st = tick w -> kept E verses0 w0 st).
  { intros st Ho Hw. apply (@kept_over (Waiting p w) st Ho); [|exact Hk].
    rewrite Hw. apply quiet_tick. }
  destruct p as [|vs cur|vs|pending]; cbn [step in_corpus] in *.
  - split; [exact I | now apply Hover].
  - assert (Hl' : logged E verses0 w0 (tick w)).
    { eapply logged_quiet; [|apply quiet_tick].
      now apply (@kept_in_session (Waiting (Browsing vs cur) w)). }
    destruct Hc as [-> (v & -> & Hv & Hd)]. destruct ev.
    + apply browse_line_inv; [exact Hl'|]. exists v.
      split; [reflexivity|]. split; [exact Hv|].
      eapply on_display_same; [|exact Hd]. reflexivity.
    + apply (kept_settled Hl'), settled_finish.
    + apply (kept_settled Hl'), settled_finish.
  - assert (Hl' : logged E verses0 w0 (tick w)).
    { eapply logged_quiet; [|apply quiet_tick].
      now apply (@kept_in_session (Waiting (Chatting vs) w)). }
    subst vs. destruct ev.
    + apply (kept_settled Hl'), settled_chat_line.
    + apply (kept_settled Hl').
      eapply settled_quiet; [|apply settled_back_to_main].
      apply quiet_print; reflexivity.
    + apply (kept_settled Hl'), settled_leave_main.
  - destruct ev; (split; [exact I | now apply Hover]).
Qed.

Lemma run_inv (evs : list in_event) (st : status) :
  in_corpus verses0 st -> kept E verses0 w0 st ->
  in_corpus verses0 (run E st evs) /\ kept E verses0 w0 (run E st evs).
Proof.
  revert st. induction evs as [|ev evs IH]; intros st Hc Hl; cbn [run].
  - auto.
  - destruct st as [p w|e w]; [|auto].
    destruct (@step_inv p ev w Hc Hl) as [Hc2 Hl2]. now apply IH.
Qed.

End SessionInvariants.

Section MainInvariants.
Import PyStr Exc Corpus Render World Chat Session ClientNotions SessionNotions.
Context {U : UnicodeData} {R : PyRuntime} {T : TextWrap}.
Variable E : env.

Lemma logged_refl (verses0 : list verse) (w : world) :
  logged E verses0 w w.
Proof. exists []. rewrite app_nil_r. cbn. split; [|split]; auto. Qed.

Lemma quiet_count_load (w : world) : quiet w (count_load w).
Proof. split; reflexivity. Qed.

Lemma main_start_inv (verses0 : list verse) (w : world) :
  (forall vs, load_verses (PROVERBS_FILE E (loads w)) = Ok vs ->
              vs = verses0) ->
  in_corpus verses0 (main_start E w)
  /\ kept E verses0 w (main_start E w).
Proof.
  intros Hsame. unfold main_start.
  assert (Hq : quiet w (count_load (print PrintStarting w))).
  { eapply quiet_trans; [|apply quiet_count_load].
    apply quiet_print; reflexivity. }
  destruct (load_verses (PROVERBS_FILE E (loads w))) as [vs|e].
  - rewrite (Hsame vs eq_refl).
    apply kept_settled with (w := print (PrintTitle
             (columns E (count_load (print PrintStarting w))))
             (count_load (print PrintStarting w))).
    + eapply logged_quiet; [apply logged_refl|].
      eapply quiet_trans; [exact Hq | apply quiet_print; reflexivity].
    + apply settled_browse. discriminate.
  - destruct (is_Exception e); cbn [in_corpus world_of]; (split; [exact I|]);
      apply kept_logged; cbn [world_of];
      (eapply logged_quiet; [apply logged_refl|]); [|exact Hq].
    eapply quiet_trans; [exact Hq | apply quiet_print; reflexivity].
Qed.

(** [main] works on the corpus it loaded, if it loaded one, and on no
    verse otherwise. *)
Lemma main_inv (evs : list in_event) (w : world) :
  exists verses0,
    (load_verses (PROVERBS_FILE E (loads w)) = Ok verses0
     \/ ((forall vs, load_verses (PROVERBS_FILE E (loads w)) <> Ok vs)
         /\ verses0 = []))
    /\ in_corpus verses0 (main E evs w)
    /\ kept E verses0 w (main E evs w).
Proof.
  unfold main.
  destruct (load_verses (PROVERBS_FILE E (loads w))) as [vs|e] eqn:Hload.
  - exists vs. split; [now left|].
    apply run_inv; apply main_start_inv; rewrite Hload;
      intros vs' H; now inversion H.
  - exists []. split; [right; split; [discriminate | reflexivity]|].
    apply run_inv; apply main_start_inv; rewrite Hload; discriminate.
Qed.

End MainInvariants.

Section CommandFacts.
Import PyStr Exc Corpus Render World Chat Session Notions.
Import ClientNotions SessionNotions.
Context {U : UnicodeData} {R : PyRuntime} {T : TextWrap}.
Variable E : env.

Lemma word_head (a rest : str) :
  word a -> hd_error (List.map isspace (a ++ rest)) <> Some true.
Proof.
  intros [Hne Ha]. destruct a as [|c a]; [congruence|]. cbn in *.
  apply andb_true_iff in Ha as [Hc _]. apply negb_true_iff in Hc.
  rewrite Hc. congruence.
Qed.

Lemma word_last (pre a : str) :
  word a -> hd_error (List.map isspace (rev (pre ++ a))) <> Some true.
Proof.
  intros [Hne Ha]. rewrite rev_app_distr.
  assert (Hr : word (rev a)).
  { split; [|now rewrite forallb_rev].
    intros C. apply (f_equal (@rev char)) in C.
    rewrite rev_involutive in C. contradiction. }
  now apply word_head.
Qed.

(** A command word, a blank and an argument word: [strip] leaves the
    line as it is, and the argument is the second word of the line. *)
Lemma command_line_fixed (cmd a : str) :
  word cmd -> word a -> strip (cmd ++ 32%N :: a) = cmd ++ 32%N :: a.
Proof.
  intros Hc Ha. apply trimmed_strip_fixed. split.
  - now apply word_head.
  - change (cmd ++ 32%N :: a) with (cmd ++ [32%N] ++ a).
    rewrite app_assoc. now apply word_last.
Qed.

Lemma second_word_argument (cmd a : str) :
  word cmd -> word a -> second_word (cmd ++ 32%N :: a) = Ok a.
Proof.
  intros Hc Ha. unfold second_word.
  rewrite (lstrip_fixed _ (word_head (32%N :: a) Hc)).
  rewrite (span_app (fun c => negb (isspace c)) cmd (32%N :: a));
    [|exact (proj2 Hc) | cbn; congruence].
  change (lstrip (32%N :: a)) with (lstrip a).
  rewrite (lstrip_fixed a).
  - destruct a as [|c a]; [destruct Ha; congruence | reflexivity].
  - rewrite <- (app_nil_r a). now apply word_head.
Qed.

Lemma startswith_prefix (pre rest : str) : startswith (pre ++ rest) pre = true.
Proof.
  induction pre as [|c pre IH]; cbn [app].
  - destruct rest; reflexivity.
  - cbn [startswith]. unfold ch_eqb. now rewrite N.eqb_refl, IH.
Qed.

Lemma show_random_shows (verses : list verse) (w : world) :
  verses <> [] ->
  exists v,
    In v verses
    /\ show_random E verses w
       = Waiting (Browsing verses (Some v))
                 (print PrintBlank
                    (print (PrintBox
                              (box_text (columns E (count_pick w)) (fst v)
                                        (snd v) default_pad
                                        default_color_ref
                                        default_color_text))
                           (count_pick w))).
Proof.
  intros Hne. unfold show_random, random_choice.
  destruct (nth_error verses _) as [v|] eqn:Hn.
  - exists v. split; [eapply nth_error_In; eauto | reflexivity].
  - exfalso. apply nth_error_None in Hn.
    assert (List.length verses <> 0%nat)
      by (destruct verses; [congruence | discriminate]).
    pose proof (Nat.mod_upper_bound (choice E (picks w))
                  (List.length verses) H). lia.
Qed.

End CommandFacts.

Section SessionProperties.
Import PyStr Exc Corpus Render World Chat Session Samples.
Import Notions ClientNotions SessionNotions.

(** X9.  Whenever [main] waits for a command of the browse mode, a verse
    is on display: the box printed last is the box of the current
    verse.  This verse is one of the verses [load_verses] returned at
    the start, which the program still holds; without a loaded corpus
    the browse mode is never reached. *)
Theorem browsing_shows_a_loaded_verse
    (U : UnicodeData) (R : PyRuntime) (T : TextWrap) (E : env)
    (evs : list in_event) (w w' : world) (vs : list verse)
    (cur : option verse) :
  main E evs w = Waiting (Browsing vs cur) w' ->
  load_verses (PROVERBS_FILE E (loads w)) = Ok vs
  /\ exists v, cur = Some v /\ In v vs /\ on_display v w'.
Proof.
  intros H. destruct (main_inv E evs w) as (verses0 & Hload & Hc & _).
  rewrite H in Hc. cbn [in_corpus] in Hc.
  destruct Hc as (-> & v & -> & Hv & Hd).
  destruct Hload as [Hload|[_ ->]]; [|contradiction]. eauto.
Qed.

Lemma browsing_shows_a_loaded_verse_witness :
  @load_verses ascii_digits two_line_corpus
  = Ok [(lit "Proverbs 1:7", lit "The fear of the LORD");
        (lit "Proverbs ?", lit "Go to the ant")]
  /\ exists v,
       Some (lit "Proverbs 1:7", lit "The fear of the LORD") = Some v
       /\ In v [(lit "Proverbs 1:7", lit "The fear of the LORD");
               (lit "Proverbs ?", lit "Go to the ant")]
       /\ on_display (T := plain_wrap) v
            (world_of (main (U := ascii_digits) (R := plain_runtime)
                            (T := plain_wrap)
                            (surroundings first_model_unknown)
                            [Line (lit "s"); Line (lit "h")] start)).
Proof.
  apply (@browsing_shows_a_loaded_verse ascii_digits plain_runtime plain_wrap
           (surroundings first_model_unknown)
           [Line (lit "s"); Line (lit "h")] start
           (world_of (main (U := ascii_digits) (R := plain_runtime)
                           (T := plain_wrap)
                           (surroundings first_model_unknown)
                           [Line (lit "s"); Line (lit "h")] start))).
  vm_compute. reflexivity.
Defined.


(** X11.  In the chat mode, the line /temp followed by a word that
    [float] reads sets the temperature to the number read, keeps the
    model and the token budget, and sends nothing to the network; the
    line /settings shows the new temperature after it.  When [float]
    does not read the word, the settings stay as they were and the
    program says that the value is invalid. *)
Theorem temperature_is_set_and_shown
    (U : UnicodeData) (R : PyRuntime) (T : TextWrap) (E : env)
    (verses : list verse) (a : str) (w : world) :
  word a ->
  let st := TERRY_SETTINGS w in
  (forall v, float_of_str a = Some v ->
     let st' := Settings (model st) v (max_tokens st) in
     let w1 := print (PrintTempSet v) (set_settings st' w) in
     chat_line E verses (lit "/temp " ++ a) w = Waiting (Chatting verses) w1
     /\ TERRY_SETTINGS w1 = st'
     /\ requests_sent w1 = requests_sent w
     /\ chat_line E verses (lit "/settings") w1
        = Waiting (Chatting verses) (print (PrintSettings st') w1))
  /\ (float_of_str a = None ->
      chat_line E verses (lit "/temp " ++ a) w
      = Waiting (Chatting verses) (print PrintInvalidTemp w)).
Proof.
  intros Ha st.
  assert (Hc : word (lit "/temp")) by (split; [discriminate | reflexivity]).
  assert (Hline : chat_line E verses (lit "/temp " ++ a) w
                  = match float_of_str a with
                    | Some v =>
                        Waiting (Chatting verses)
                          (print (PrintTempSet v)
                             (set_settings
                                (Settings (model st) v (max_tokens st)) w))
                    | None =>
                        Waiting (Chatting verses) (print PrintInvalidTemp w)
                    end).
  { unfold chat_line.
    change (lit "/temp " ++ a) with (lit "/temp" ++ 32%N :: a).
    rewrite (command_line_fixed Hc Ha), (second_word_argument Hc Ha).
    change (lower (lit "/temp" ++ 32%N :: a)) with (lit "/temp " ++ lower a).
    rewrite startswith_prefix.
    cbn [bind]. destruct (float_of_str a); reflexivity. }
  split.
  - intros v Hv st' w1. rewrite Hline, Hv. repeat split.
  - intros Hn. now rewrite Hline, Hn.
Qed.

Lemma temperature_is_set_and_shown_witness :
  chat_line (U := ascii_digits) (R := plain_runtime) (T := plain_wrap)
            (surroundings first_model_unknown) [] (lit "/temp -3") start
  = Waiting (Chatting [])
            (print (PrintTempSet (Fin (inject_Z (-3))))
               (set_settings
                  (Settings (lit "open-mixtral-8x7b") (Fin (inject_Z (-3)))
                            256) start)).
Proof.
  exact (proj1 (proj1
    (@temperature_is_set_and_shown ascii_digits plain_runtime plain_wrap
       (surroundings first_model_unknown) [] (lit "-3") start
       (conj (fun H => @nil_cons _ _ _ (eq_sym H)) eq_refl))
    (Fin (inject_Z (-3))) eq_refl)).
Defined.

(** X12.  In the chat mode, the line /model followed by a word makes the
    word the model of the settings, as it was typed, and sends nothing;
    the candidates of the next call of [query_llm] are this model and
    then the three fixed ones. *)
Theorem model_is_set_and_tried_first
    (U : UnicodeData) (R : PyRuntime) (T : TextWrap) (E : env)
    (verses : list verse) (m : str) (w : world) :
  word m ->
  let st := TERRY_SETTINGS w in
  let w1 := print (PrintModelSet m)
                  (set_settings
                     (Settings m (temperature st) (max_tokens st)) w) in
  chat_line E verses (lit "/model " ++ m) w = Waiting (Chatting verses) w1
  /\ requests_sent w1 = requests_sent w
  /\ model_candidates E w1
     = [m; lit "mistral-large-latest"; lit "mistral-small-latest";
        lit "open-mixtral-8x7b"].
Proof.
  intros Hm st w1.
  assert (Hc : word (lit "/model")) by (split; [discriminate | reflexivity]).
  split; [|split; [reflexivity|]].
  - unfold chat_line.
    change (lit "/model " ++ m) with (lit "/model" ++ 32%N :: m).
    rewrite (command_line_fixed Hc Hm), (second_word_argument Hc Hm).
    change (lower (lit "/model" ++ 32%N :: m))
      with (lit "/model " ++ lower m).
    rewrite startswith_prefix. reflexivity.
  - unfold model_candidates. subst w1. cbn [TERRY_SETTINGS print set_settings model].
    destruct m as [|c m]; [destruct Hm; congruence | reflexivity].
Qed.

Lemma model_is_set_and_tried_first_witness :
  model_candidates (surroundings first_model_unknown)
    (print (PrintModelSet (lit "Mistral-Tiny"))
       (set_settings (Settings (lit "Mistral-Tiny") (Fin (7 # 10)) 256)
                     start))
  = [lit "Mistral-Tiny"; lit "mistral-large-latest";
     lit "mistral-small-latest"; lit "open-mixtral-8x7b"].
Proof.
  exact (proj2 (proj2
    (@model_is_set_and_tried_first ascii_digits plain_runtime plain_wrap
       (surroundings first_model_unknown) [] (lit "Mistral-Tiny") start
       (conj (fun H => @nil_cons _ _ _ (eq_sym H)) eq_refl)))).
Defined.

(** X13.  When [load_verses] raises at the start, [main] prints the
    message of the error and waits for a line; whatever comes, be it an
    interrupt or the end of the input, [main] then returns without an
    exception, and the browse mode is never entered. *)
Theorem startup_failure_returns
    (U : UnicodeData) (R : PyRuntime) (T : TextWrap) (E : env)
    (w : world) (e : exn) :
  load_verses (PROVERBS_FILE E (loads w)) = Raise e ->
  is_Exception e = true ->
  let w1 := print (PrintError (exn_msg e))
                  (count_load (print PrintStarting w)) in
  main E [] w = Waiting AtStartupError w1
  /\ (forall ev rest, main E (ev :: rest) w = Ended None (tick w1))
  /\ (forall evs, browsing (main E evs w) = false).
Proof.
  intros Hload He w1.
  assert (H0 : main_start E w = Waiting AtStartupError w1).
  { unfold main_start. now rewrite Hload, He. }
  assert (H1 : forall ev rest, main E (ev :: rest) w = Ended None (tick w1)).
  { intros ev rest. unfold main. rewrite H0. cbn [run step].
    apply run_ended. }
  split; [exact H0|]. split; [exact H1|].
  intros [|ev rest]; [unfold main; cbn [run]; now rewrite H0|].
  now rewrite H1.
Qed.

Lemma startup_failure_returns_witness :
  main (U := ascii_digits) (R := plain_runtime) (T := plain_wrap)
       no_corpus [] start
  = Waiting AtStartupError
            (print (PrintError (not_found_msg missing_corpus))
                   (count_load (print PrintStarting start))).
Proof.
  exact (proj1
    (@startup_failure_returns ascii_digits plain_runtime plain_wrap
       no_corpus start (Exn FileNotFoundError (not_found_msg missing_corpus))
       eq_refl eq_refl)).
Defined.

(** X14.  The browse mode keeps off the network and the chat settings:
    whatever event it meets, no request is sent, nothing is slept, and
    the settings and the cached context are as before. *)
Theorem browse_mode_is_offline
    (U : UnicodeData) (R : PyRuntime) (T : TextWrap) (E : env)
    (verses : list verse) (cur : option verse) (ev : in_event) (w : world) :
  offline w (world_of (step E (Browsing verses cur) ev w)).
Proof.
  assert (Hfin : forall p w1, offline w w1 ->
                              offline w (world_of (finish E p w1))).
  { intros p w1 H. unfold finish. destruct (stdin_isatty E); exact H. }
  assert (Hleave : forall e w1, offline w w1 ->
                                offline w (world_of (leave_main E e w1))).
  { intros e w1 H. unfold leave_main.
    destruct (is_KeyboardInterrupt e); now apply Hfin. }
  assert (Hshow : forall w1, offline w w1 ->
                             offline w (world_of (show_random E verses w1))).
  { intros w1 H. unfold show_random, random_choice.
    destruct (nth_error verses _); [exact H | now apply Hleave]. }
  assert (Hbrowse : forall c w1, offline w w1 ->
                                 offline w (world_of (browse E verses c w1))).
  { intros c w1 H. unfold browse. destruct c; [exact H | now apply Hshow]. }
  assert (Hrefl : offline w w) by (repeat split).
  cbn [step]. destruct ev as [s| |]; try (now apply Hfin).
  unfold browse_line.
  destruct (str_eqb _ (lit "q")); [now apply Hfin|].
  destruct (str_eqb _ (lit "h")); [now apply Hbrowse|].
  destruct (str_eqb _ (lit "s")).
  { destruct cur as [v|]; [|now apply Hbrowse].
    unfold save_favorite. destruct (favorites_io E (clock w)) as [[e r]|];
      [apply Hleave; destruct r; exact Hrefl | now apply Hbrowse]. }
  destruct (str_eqb _ (lit "/terry")); [exact Hrefl | now apply Hshow].
Qed.

(** X15.  Leaving the chat mode.  With a corpus that is not empty, an
    interrupt at the prompt and the line b both bring the program back
    to the browse mode: the line that says so is printed (after an
    interrupt it starts on a new line), then the title, then a verse is
    drawn anew from the corpus, which becomes the current verse, and its
    box is printed with a blank line after it.  The line q ends [main]
    with [SystemExit], and the end of the input ends it with [EOFError],
    the farewell printed in both cases. *)
Theorem chat_mode_exits
    (U : UnicodeData) (R : PyRuntime) (T : TextWrap) (E : env)
    (verses : list verse) (w : world) :
  verses <> [] ->
  let returned (after_interrupt : bool) (st : status) :=
    exists v,
      nth_error verses
                (Nat.modulo (choice E (picks w)) (List.length verses))
      = Some v
      /\ In v verses
      /\ st = Waiting (Browsing verses (Some v))
                (print PrintBlank
                   (print (PrintBox
                             (box_text (columns E w) (fst v) (snd v)
                                       default_pad default_color_ref
                                       default_color_text))
                      (count_pick
                         (print (PrintTitle (columns E w))
                            (print (PrintReturning after_interrupt) w)))))
      /\ on_display v (world_of st) in
  returned true (step E (Chatting verses) CtrlC w)
  /\ (forall s, lower (strip s) = lit "b" ->
      returned false (step E (Chatting verses) (Line s) w))
  /\ (forall s, lower (strip s) = lit "q" ->
      step E (Chatting verses) (Line s) w
      = finish E (Some (Exn SystemExit (lit "0"))) w)
  /\ step E (Chatting verses) EndOfInput w
     = finish E (Some (Exn EOFError (lit "EOF when reading a line"))) w.
Proof.
  intros Hne returned.
  assert (Hback : forall a,
            returned a (back_to_main E verses (print (PrintReturning a) w))).
  { intros a. unfold returned, back_to_main, browse, show_random,
      random_choice.
    cbn [picks print].
    destruct (nth_error verses _) as [v|] eqn:Hn.
    - exists v. split; [reflexivity|].
      split; [eapply nth_error_In; eauto|]. split; [reflexivity|].
      eexists. cbn [world_of printed print].
      rewrite !last_box_print. reflexivity.
    - exfalso. apply nth_error_None in Hn.
      assert (List.length verses <> 0%nat)
        by (destruct verses; [congruence | discriminate]).
      pose proof (Nat.mod_upper_bound (choice E (picks w))
                    (List.length verses) H). lia. }
  assert (Hcmd : forall s c, lower (strip s) = lit c -> c <> ""%string ->
                             negb (truthy (strip s)) = false).
  { intros s c H Hc. destruct (strip s); [|reflexivity].
    destruct c; [congruence | discriminate]. }
  split; [apply Hback|]. split; [|split; [|reflexivity]].
  - intros s Hs. cbn [step]. unfold chat_line, is_word.
    rewrite (Hcmd s "b"%string Hs ltac:(discriminate)), Hs.
    change (str_eqb (lit "b") (lit "q")) with false.
    change (str_eqb (lit "b") (lit "b")) with true. cbv iota.
    apply Hback.
  - intros s Hs. cbn [step]. unfold chat_line, is_word.
    rewrite (Hcmd s "q"%string Hs ltac:(discriminate)), Hs.
    change (str_eqb (lit "q") (lit "q")) with true. reflexivity.
Qed.

Lemma chat_mode_exits_witness :
  let v := (lit "Proverbs 1:7", lit "The fear") in
  step (U := ascii_digits) (R := plain_runtime) (T := plain_wrap)
       (surroundings first_model_unknown) (Chatting [v]) CtrlC start
  = Waiting (Browsing [v] (Some v))
      (print PrintBlank
         (print (PrintBox (box_text (T := plain_wrap) 80 (fst v) (snd v)
                                    default_pad default_color_ref
                                    default_color_text))
            (count_pick
               (print (PrintTitle 80) (print (PrintReturning true) start)))))
  /\ step (U := ascii_digits) (R := plain_runtime) (T := plain_wrap)
          (surroundings first_model_unknown) (Chatting [v]) (Line (lit " B"))
          start
     = Waiting (Browsing [v] (Some v))
         (print PrintBlank
            (print (PrintBox (box_text (T := plain_wrap) 80 (fst v) (snd v)
                                       default_pad default_color_ref
                                       default_color_text))
               (count_pick
                  (print (PrintTitle 80)
                     (print (PrintReturning false) start))))).
Proof.
  intros v.
  destruct (@chat_mode_exits ascii_digits plain_runtime plain_wrap
              (surroundings first_model_unknown) [v] start
              (fun H => @nil_cons _ _ _ (eq_sym H)))
    as ((v1 & Hn1 & _ & H1 & _) & Hb & _).
  destruct (Hb (lit " B") eq_refl) as (v2 & Hn2 & _ & H2 & _).
  cbn in Hn1, Hn2. injection Hn1 as <-. injection Hn2 as <-.
  split; [exact H1 | exact H2].
Defined.

End SessionProperties.

(** ** More on RenderEngine *)

Section RenderMore.
Import PyStr Render.
Local Open Scope Z_scope.

Lemma map_constant (A B : Type) (f : A -> B) (c : B) (l : list A) :
  Forall (fun x => f x = c) l -> List.map f l = List.repeat c (List.length l).
Proof. induction 1 as [|x l Hx _ IH]; cbn; congruence. Qed.

(** X16.  The rows of the box, for a padding that is not negative, a
    reference that fits and holds no escape, and wrapped lines that fit
    the interior and hold no escape: the top border, a row for each
    wrapped line and the bottom border take the interior width, twice
    the padding and the two borders; the reference row and the separator
    row take the padding once more, so the box is straight only with a
    padding of zero. *)
Theorem box_row_widths
    (T : TextWrap) (w : Z) (ref text : str) (pad : Z)
    (color_ref color_text : color) :
  0 <= pad -> no_esc ref ->
  len (strip ref) <= inner_width w pad + pad * 2 ->
  Forall (fun ln => no_esc ln /\ len ln <= inner_width w pad)
         (splitlines (fill text (inner_width w pad))) ->
  let frame := inner_width w pad + pad * 2 + 2 in
  List.map visible_width (box_lines w ref text pad color_ref color_text)
  = [frame; frame + pad; frame + pad]
    ++ List.repeat frame
         (List.length (splitlines (fill text (inner_width w pad))))
    ++ [frame].
Proof.
  intros Hpad Href Hfit Hlines frame.
  destruct (@box_frame_widths T w ref text pad color_ref color_text
              Hpad Href Hfit) as [H3 Hlast].
  cbv zeta in H3, Hlast. fold frame in H3, Hlast.
  unfold box_lines in *. rewrite !app_assoc, last_last in Hlast.
  rewrite <- !app_assoc in *. cbn [app firstn List.map] in *.
  pose proof (f_equal (fun l => nth 0 l 0) H3) as E1.
  pose proof (f_equal (fun l => nth 1 l 0) H3) as E2.
  pose proof (f_equal (fun l => nth 2 l 0) H3) as E3.
  cbn [nth] in E1, E2, E3. rewrite E1, E2, E3, map_app, map_map.
  cbn [List.map]. rewrite Hlast. do 3 f_equal. f_equal.
  rewrite <- (length_map (fun ln => ln)
                (splitlines (fill text (inner_width w pad)))) at 1.
  rewrite map_id. apply map_constant.
  apply Forall_forall. intros ln Hln.
  destruct (proj1 (Forall_forall _ _) Hlines ln Hln) as [Hn Hl].
  now apply box_text_row_width.
Qed.

Lemma box_row_widths_witness :
  List.map visible_width
    (box_lines (T := plain_wrap) 60 (lit " Proverbs 6:6 ")
       (lit "Go to the ant, thou sluggard; consider her ways, and be wise")
       1 bright_cyan bright_white)
  = [60; 61; 61] ++ List.repeat 60 2 ++ [60].
Proof.
  apply (@box_row_widths plain_wrap 60 (lit " Proverbs 6:6 ")
           (lit "Go to the ant, thou sluggard; consider her ways, and be wise")
           1 bright_cyan bright_white).
  - discriminate.
  - reflexivity.
  - vm_compute. discriminate.
  - vm_compute. repeat constructor; discriminate.
Defined.

End RenderMore.

(** ** The script: the text of a verse *)

Section KjvText.
Import PyStr Notions Kjv KjvNotions.

Lemma ink_spaces (ws : str) : forallb isspace ws = true -> ink ws = [].
Proof.
  induction ws as [|c ws IH]; simpl; [reflexivity|]. intros H.
  apply andb_true_iff in H as [Hc H]. rewrite Hc. simpl. auto.
Qed.

Lemma ink_app (a b : str) : ink (a ++ b) = ink a ++ ink b.
Proof. apply filter_app. Qed.

Lemma ink_strip (t : str) : ink (strip t) = ink t.
Proof.
  destruct (strip_spec t) as (a & b & E & Ha & Hb).
  rewrite E at 2. rewrite !ink_app, (ink_spaces _ Ha), (ink_spaces _ Hb).
  now rewrite app_nil_r.
Qed.

Lemma sub_spaces_ink (b : bool) (s : str) : ink (sub_spaces b s) = ink s.
Proof.
  revert b; induction s as [|c r IH]; intros b; simpl; [reflexivity|].
  destruct (isspace c) eqn:Hc.
  - destruct b; simpl; [apply IH|].
    change (isspace 32%N) with true. simpl. apply IH.
  - simpl. rewrite Hc. simpl. now rewrite IH.
Qed.

Lemma sub_spaces_single (b : bool) (s : str) :
  single_blanks (sub_spaces b s) = true
  /\ (b = true -> starts_with_space (sub_spaces b s) = false).
Proof.
  revert b; induction s as [|c r IH]; intros b; simpl.
  - split; reflexivity.
  - destruct (isspace c) eqn:Hc.
    + destruct (IH true) as [H1 H2]. destruct b.
      * split; [exact H1 | exact H2].
      * split; [|discriminate]. simpl.
        change (isspace 32%N) with true. rewrite (H2 eq_refl), H1.
        reflexivity.
    + destruct (IH false) as [H1 _]. split.
      * simpl. rewrite Hc, H1. reflexivity.
      * intros _. simpl. exact Hc.
Qed.

Lemma sub_spaces_run (s : str) :
  starts_with_space s = false -> sub_spaces true s = sub_spaces false s.
Proof. destruct s as [|c r]; simpl; [reflexivity|]. now intros ->. Qed.

Lemma sub_spaces_fixed (s : str) :
  single_blanks s = true -> sub_spaces false s = s.
Proof.
  induction s as [|c r IH]; simpl; [reflexivity|]. intros H.
  apply andb_true_iff in H as [Hc Hr].
  destruct (isspace c) eqn:Hs; simpl in Hc.
  - apply andb_true_iff in Hc as [Hc Hn]. apply N.eqb_eq in Hc. subst c.
    apply negb_true_iff in Hn.
    now rewrite (sub_spaces_run _ Hn), (IH Hr).
  - now rewrite (IH Hr).
Qed.

Lemma sub_spaces_app (b : bool) (s : str) (c : char) (r : str) :
  isspace c = false ->
  sub_spaces b (s ++ c :: r) = sub_spaces b s ++ c :: sub_spaces false r.
Proof.
  intros Hc. revert b; induction s as [|d s IH]; intros b; simpl.
  - now rewrite Hc.
  - destruct (isspace d); [destruct b|]; simpl; now rewrite IH.
Qed.

Lemma sub_spaces_trimmed (s : str) :
  trimmed s -> trimmed (sub_spaces false s).
Proof.
  intros [Hh Hl]. destruct s as [|c r] using rev_ind.
  - split; simpl; congruence.
  - clear IHr. rewrite rev_app_distr in Hl. simpl in Hl.
    assert (Hc : isspace c = false) by (destruct (isspace c); congruence).
    rewrite (@sub_spaces_app false r c [] Hc). simpl. split.
    + destruct r as [|d r]; simpl in *; [now rewrite Hc|].
      destruct (isspace d) eqn:Hd; [congruence|]. simpl.
      rewrite Hd. congruence.
    + rewrite rev_app_distr. simpl. now rewrite Hc.
Qed.

Lemma normalize_trimmed (t : str) : trimmed (normalize t).
Proof. apply sub_spaces_trimmed, strip_trimmed. Qed.

Lemma normalize_single (t : str) : single_blanks (normalize t) = true.
Proof. apply (sub_spaces_single false). Qed.

Lemma sub_spaces_nil (s : str) : sub_spaces false s = [] -> s = [].
Proof.
  destruct s as [|c r]; simpl; [reflexivity|].
  destruct (isspace c); discriminate.
Qed.

Lemma normalize_nil_iff (t : str) :
  normalize t = [] <-> forallb isspace t = true.
Proof.
  unfold normalize. split.
  - intros E. apply sub_spaces_nil in E. now apply strip_nil_iff.
  - intros H. apply strip_nil_iff in H. now rewrite H.
Qed.

(** In a text whose white space is single blanks, a white-space
    character is the blank. *)
Lemma single_blanks_in (s : str) (c : char) :
  single_blanks s = true -> In c s -> isspace c = true -> c = 32%N.
Proof.
  induction s as [|d r IH]; simpl; [tauto|]. intros H [->|Hi] Hc.
  - apply andb_true_iff in H as [H _]. rewrite Hc in H. simpl in H.
    apply andb_true_iff in H as [H _]. now apply N.eqb_eq in H.
  - apply andb_true_iff in H as [_ H]. auto.
Qed.

Lemma single_blanks_no_break (s : str) :
  single_blanks s = true -> ~ In 10%N s /\ ~ In 13%N s.
Proof.
  intros H. split; intros Hi;
    pose proof (@single_blanks_in s _ H Hi eq_refl); discriminate.
Qed.

Lemma verse_text_fixed (t : str) : normalize (normalize t) = normalize t.
Proof.
  unfold normalize at 1.
  rewrite (trimmed_strip_fixed (normalize_trimmed t)).
  apply sub_spaces_fixed, normalize_single.
Qed.

(** X17.  The text [load_all_proverbs] keeps of a verse, whatever the
    service sent: it neither starts nor ends with white space; its
    white space is single blanks, so it holds no line break; the
    characters that are not white space are those of the text sent, in
    their order; it is empty only when the text sent was white space
    and nothing else; and normalising it again changes nothing. *)
Theorem verse_text_is_normalized (t : str) :
  trimmed (normalize t)
  /\ single_blanks (normalize t) = true
  /\ ~ In 10%N (normalize t) /\ ~ In 13%N (normalize t)
  /\ ink (normalize t) = ink t
  /\ (normalize t = [] <-> forallb isspace t = true)
  /\ normalize (normalize t) = normalize t.
Proof.
  pose proof (normalize_trimmed t) as Ht.
  pose proof (normalize_single t) as Hs.
  destruct (single_blanks_no_break _ Hs) as [H10 H13].
  split; [exact Ht|]. split; [exact Hs|].
  split; [exact H10|]. split; [exact H13|].
  split; [unfold normalize; now rewrite sub_spaces_ink, ink_strip|].
  split; [apply normalize_nil_iff|].
  unfold normalize at 1. rewrite (trimmed_strip_fixed Ht).
  now apply sub_spaces_fixed.
Qed.

End KjvText.

(** ** The script: [fetch_with_backoff] *)

Section KjvFetch.
Import PyStr Exc Corpus World Kjv KjvNotions.
Local Open Scope Z_scope.

Variable E : site.
Variables (url : str) (max_retries : Z) (base_delay : Q).

Lemma backoff_delay_fin (n : Z) :
  exists q, backoff_delay base_delay n = Fin q /\ (q <= 30)%Q
            /\ ((0 <= base_delay)%Q -> (0 <= q)%Q).
Proof.
  unfold backoff_delay, py_min.
  set (x := (base_delay * inject_Z (2 ^ (n - 1)))%Q).
  destruct (float_lt (Fin 30) (Fin x)) eqn:H.
  - exists 30%Q. split; [reflexivity|]. split; [apply Qle_refl|].
    intros _. discriminate.
  - exists x. split; [reflexivity|]. split.
    + unfold float_lt in H. apply negb_false_iff in H.
      now apply Qle_bool_iff.
    + intros Hb. apply Qmult_le_0_compat; [exact Hb|].
      change 0%Q with (inject_Z 0). rewrite <- Zle_Qle.
      apply Z.pow_nonneg. lia.
Qed.

Lemma nap_spec (d : pyfloat) (s s' : machine) (r : outcome unit) :
  nap d s = (r, s') ->
  (s' = s /\ exists e, r = Raised e)
  \/ (r = Done tt /\ s' = log_nap d s /\ exists q, d = Fin q /\ (0 <= q)%Q).
Proof.
  unfold nap. destruct d as [q| | |].
  - destruct (negb (countable q));
      [intros H; inversion H; subst; left; eauto|].
    unfold float_lt. destruct (Qle_bool 0 q) eqn:Hq; cbn; intros H;
      inversion H; subst.
    + right. repeat split. exists q. split; [reflexivity|].
      now apply Qle_bool_iff.
    + left. eauto.
  - intros H; inversion H; subst; left; eauto.
  - intros H; inversion H; subst; left; eauto.
  - intros H; inversion H; subst; left; eauto.
Qed.

Lemma nap_nonnegative (q : Q) (s : machine) :
  (0 <= q)%Q -> (q <= 30)%Q -> nap (Fin q) s = (Done tt, log_nap (Fin q) s).
Proof.
  intros H H30. unfold nap, float_lt. rewrite (countable_small H H30).
  apply Qle_bool_iff in H. rewrite H. reflexivity.
Qed.



(** A pass that goes on has slept the delay of the new attempt. *)
Lemma back_off_again (e : raised) (warn : Z -> Z -> pyfloat -> note)
    (a a' : Z) (s s' : machine) :
  back_off e warn max_retries base_delay a s = Again a' s' ->
  a' = a + 1 /\ a + 1 <= max_retries
  /\ short_nap (backoff_delay base_delay (a + 1))
  /\ s' = log_nap (backoff_delay base_delay (a + 1))
                  (say (warn (a + 1) max_retries
                             (backoff_delay base_delay (a + 1))) s).
Proof.
  unfold back_off.
  destruct (a + 1 >? max_retries) eqn:Hm; [discriminate|].
  destruct (1024 <=? a + 1 - 1); [discriminate|].
  destruct (nap _ _) as [[u|r] s2] eqn:Hn; [|discriminate].
  intros H. inversion H; subst. clear H.
  apply nap_spec in Hn as [[_ [x Hx]]|(_ & -> & q & Hq & Hpos)];
    [discriminate|].
  split; [reflexivity|]. split; [lia|]. split; [|reflexivity].
  destruct (backoff_delay_fin (a + 1)) as (q' & Hq' & Hle & _).
  exists q. split; [exact Hq|]. split; [exact Hpos|].
  rewrite Hq in Hq'. inversion Hq'. subst. exact Hle.
Qed.

Lemma back_off_stop (e : raised) (warn : Z -> Z -> pyfloat -> note)
    (a : Z) (s s' : machine) (r : raised) :
  back_off e warn max_retries base_delay a s = Stop r s' ->
  opened s' = opened s /\ naps s' = naps s
  /\ cache_json s' = cache_json s /\ out_txt s' = out_txt s.
Proof.
  unfold back_off.
  destruct (a + 1 >? max_retries);
    [intros H; inversion H; subst; repeat split|].
  destruct (1024 <=? a + 1 - 1);
    [intros H; inversion H; subst; repeat split|].
  destruct (nap _ _) as [[u|r'] s2] eqn:Hn; [discriminate|].
  intros H. inversion H; subst. clear H.
  apply nap_spec in Hn as [[-> _]|(Hd & _)]; [|discriminate].
  repeat split.
Qed.

Lemma handle_again (e : raised) (a a' : Z) (s s' : machine) :
  handle e url max_retries base_delay a s = Again a' s' ->
  a' = a + 1 /\ a + 1 <= max_retries
  /\ short_nap (backoff_delay base_delay (a + 1))
  /\ opened s' = opened s
  /\ naps s' = naps s ++ [backoff_delay base_delay (a + 1)]
  /\ cache_json s' = cache_json s /\ out_txt s' = out_txt s.
Proof.
  unfold handle. destruct e; try discriminate; intros H;
    apply back_off_again in H as (-> & Hm & Hs & ->);
    repeat split; assumption.
Qed.

Lemma handle_stop (e r : raised) (a : Z) (s s' : machine) :
  handle e url max_retries base_delay a s = Stop r s' ->
  opened s' = opened s /\ naps s' = naps s
  /\ cache_json s' = cache_json s /\ out_txt s' = out_txt s.
Proof.
  unfold handle. destruct e;
    try (intros H; inversion H; subst; repeat split; fail);
    apply back_off_stop.
Qed.

(** What a run of the loop leaves behind. *)
Lemma fetch_loop_trace (fuel : nat) (a : Z) (s s' : machine)
    (r : outcome str) :
  fetch_loop E fuel url max_retries base_delay a s = Some (r, s') ->
  exists k ns,
    opened s' = opened s ++ List.repeat url (S k)
    /\ naps s' = naps s ++ ns
    /\ List.length ns = k
    /\ Forall short_nap ns
    /\ Z.of_nat k <= Z.max 0 (max_retries - a)
    /\ cache_json s' = cache_json s /\ out_txt s' = out_txt s.
Proof.
  revert a s. induction fuel as [|fuel IH]; intros a s; [discriminate|].
  cbn [fetch_loop].
  destruct (fetch_once E (List.length (opened s)) url) as [text|e].
  - intros H. inversion H; subst. exists 0%nat, [].
    rewrite app_nil_r. repeat split; [constructor | lia].
  - destruct (handle e url max_retries base_delay a (log_open url s))
      as [a' s2|r' s2] eqn:Hh.
    + apply handle_again in Hh as (-> & Hm & Hs & Ho & Hn & Hc & Hf).
      intros H. apply IH in H as (k & ns & Ho' & Hn' & Hl & Hns & Hk & Hc' & Hf').
      exists (S k), (backoff_delay base_delay (a + 1) :: ns).
      rewrite Ho', Ho, Hn', Hn, Hc', Hc, Hf', Hf. cbn [log_open opened naps
        cache_json out_txt]. rewrite <- !app_assoc. cbn [app List.repeat].
      repeat split; [cbn; now rewrite Hl | now constructor | lia].
    + apply handle_stop in Hh as (Ho & Hn & Hc & Hf).
      intros H. inversion H; subst. exists 0%nat, [].
      rewrite Ho, Hn, Hc, Hf, app_nil_r.
      repeat split; [constructor | lia].
Qed.

(** The loop ends within one pass more than the retries left. *)
Lemma fetch_loop_enough (fuel : nat) (a : Z) (s : machine) :
  (Z.to_nat (max_retries - a) < fuel)%nat ->
  exists x, fetch_loop E fuel url max_retries base_delay a s = Some x.
Proof.
  revert a s. induction fuel as [|fuel IH]; intros a s Hf; [lia|].
  cbn [fetch_loop].
  destruct (fetch_once E (List.length (opened s)) url) as [text|e];
    [eauto|].
  destruct (handle e url max_retries base_delay a (log_open url s))
    as [a' s2|r' s2] eqn:Hh; [|eauto].
  apply handle_again in Hh as (-> & Hm & _). apply IH. lia.
Qed.

Lemma fetch_loop_more (fuel fuel' : nat) (a : Z) (s : machine)
    (x : outcome str * machine) :
  fetch_loop E fuel url max_retries base_delay a s = Some x ->
  (fuel <= fuel')%nat ->
  fetch_loop E fuel' url max_retries base_delay a s = Some x.
Proof.
  revert fuel' a s. induction fuel as [|fuel IH]; intros fuel' a s;
    [discriminate|].
  destruct fuel' as [|fuel']; [lia|]. cbn [fetch_loop].
  destruct (fetch_once E (List.length (opened s)) url) as [text|e];
    [auto|].
  destruct (handle e url max_retries base_delay a (log_open url s))
    as [a' s2|r' s2]; [|auto].
  intros H Hle. apply (IH fuel' _ _ H). lia.
Qed.

Lemma fetch_loop_fuel (fuel : nat) (s : machine) :
  (Z.to_nat max_retries < fuel)%nat ->
  fetch_loop E fuel url max_retries base_delay 0 s
  = Some (fetch_with_backoff E url max_retries base_delay s).
Proof.
  intros Hf. unfold fetch_with_backoff.
  destruct (@fetch_loop_enough (S (Z.to_nat max_retries)) 0 s) as [x Hx];
    [rewrite Z.sub_0_r; lia|].
  rewrite Hx. apply (fetch_loop_more _ _ Hx). lia.
Qed.


End KjvFetch.

Section KjvFetchProperties.
Import PyStr Exc Corpus World Kjv KjvNotions KjvSamples.
Local Open Scope Z_scope.

(** X18.  [fetch_with_backoff] ends, whatever the network does and
    whatever its parameters are: the loop takes one pass more than
    [max_retries] at most.  It opens the same address each time, once
    more than it sleeps and at most [max_retries] + 1 times (once, when
    [max_retries] is negative); every delay it sleeps is between 0 and
    30 seconds; and it touches neither file. *)
Theorem fetch_with_backoff_is_bounded
    (E : site) (url : str) (max_retries : Z) (base_delay : Q) (s : machine) :
  let s' := snd (fetch_with_backoff E url max_retries base_delay s) in
  (forall fuel, (Z.to_nat max_retries < fuel)%nat ->
     fetch_loop E fuel url max_retries base_delay 0 s
     = Some (fetch_with_backoff E url max_retries base_delay s))
  /\ exists k ns,
       opened s' = opened s ++ List.repeat url (S k)
       /\ naps s' = naps s ++ ns
       /\ List.length ns = k
       /\ Z.of_nat k <= Z.max 0 max_retries
       /\ Forall short_nap ns
       /\ cache_json s' = cache_json s /\ out_txt s' = out_txt s.
Proof.
  intros s'. split; [intros fuel; apply fetch_loop_fuel|].
  pose proof (@fetch_loop_fuel E url max_retries base_delay
                (S (Z.to_nat max_retries)) s) as Hf.
  specialize (Hf ltac:(lia)).
  destruct (fetch_with_backoff E url max_retries base_delay s) as [r s1] eqn:Ef.
  apply fetch_loop_trace in Hf
    as (k & ns & Ho & Hn & Hl & Hs & Hk & Hc & Hout).
  rewrite Z.sub_0_r in Hk. subst s'. cbn [snd].
  exists k, ns. repeat split; assumption.
Qed.







End KjvFetchProperties.

(** ** The script: the file it writes and the program reads *)

Section KjvDigits.
Import PyStr Corpus.

Lemma uint_digits (d : Decimal.uint) :
  forallb ascii_isdecimal (lit (NilEmpty.string_of_uint d)) = true.
Proof.
  induction d; [reflexivity | ..];
    (change (forallb ascii_isdecimal (lit (NilEmpty.string_of_uint d)) = true);
     exact IHd).
Qed.

(** [str(n)] for an integer that is not negative: digits of ASCII, one
    at least. *)
Lemma str_of_int_digits (z : Z) :
  (0 <= z)%Z ->
  str_of_int z <> [] /\ forallb ascii_isdecimal (str_of_int z) = true.
Proof.
  intros Hz. unfold str_of_int.
  destruct z as [|p|p]; [split; [discriminate | reflexivity] | | lia].
  cbn [Z.to_int NilZero.string_of_int]. unfold NilZero.string_of_uint.
  pose proof (uint_digits (Pos.to_uint p)) as Hd.
  destruct (Pos.to_uint p); (split; [discriminate | exact Hd || reflexivity]).
Qed.

Lemma ascii_digit_facts (c : char) :
  ascii_isdecimal c = true ->
  isspace c = false /\ c <> 10%N /\ c <> 13%N
  /\ negb ((55296 <=? c) && (c <=? 57343))%N = true.
Proof.
  unfold ascii_isdecimal, isspace. intros H.
  apply andb_true_iff in H as [H1 H2].
  apply N.leb_le in H1, H2.
  repeat split; try lia.
  - repeat match goal with
           | |- context [(?a <=? ?b)%N] =>
               destruct (N.leb_spec a b); try lia
           | |- context [(?a =? ?b)%N] =>
               destruct (N.eqb_spec a b); try lia
           end; reflexivity.
  - destruct (N.leb_spec 55296 c); [lia | reflexivity].
Qed.

End KjvDigits.

Section KjvLines.
Import PyStr Exc Corpus Notions Kjv KjvNotions.

Lemma universal_newlines_plain (b rest : str) :
  ~ In 13%N b ->
  universal_newlines (b ++ rest) = b ++ universal_newlines rest.
Proof.
  induction b as [|c b IH]; intros H; [reflexivity|].
  cbn [app universal_newlines].
  destruct (ch_eqb c 13%N) eqn:Hc.
  - apply N.eqb_eq in Hc. subst c. exfalso. apply H. now left.
  - rewrite IH; [reflexivity|]. intros Hi. apply H. now right.
Qed.

Lemma universal_newlines_linesep (o : os_name) (rest : str) :
  universal_newlines (linesep o ++ rest) = 10%N :: universal_newlines rest.
Proof. destruct o; reflexivity. Qed.

Lemma translate_newlines_plain (o : os_name) (b : str) :
  ~ In 10%N b -> translate_newlines o b = b.
Proof.
  induction b as [|c b IH]; intros H; [reflexivity|].
  unfold translate_newlines in *. cbn [flat_map].
  destruct (ch_eqb c 10%N) eqn:Hc.
  - apply N.eqb_eq in Hc. subst c. exfalso. apply H. now left.
  - rewrite IH; [reflexivity|]. intros Hi. apply H. now right.
Qed.

Lemma translate_newlines_line (o : os_name) (b : str) :
  ~ In 10%N b -> translate_newlines o (b ++ [10%N]) = b ++ linesep o.
Proof.
  intros H. unfold translate_newlines. rewrite flat_map_app.
  fold (translate_newlines o b). rewrite (@translate_newlines_plain o b H).
  cbn. now rewrite app_nil_r.
Qed.

Lemma file_lines_line (b rest : str) :
  ~ In 10%N b -> file_lines (b ++ 10%N :: rest) = (b ++ [10%N]) :: file_lines rest.
Proof.
  induction b as [|c b IH]; intros H; [reflexivity|].
  cbn [app file_lines].
  destruct (ch_eqb c 10%N) eqn:Hc.
  - apply N.eqb_eq in Hc. subst c. exfalso. apply H. now left.
  - rewrite IH; [reflexivity|]. intros Hi. apply H. now right.
Qed.

(** The text of a file written line by line, read back: the lines, on
    either platform. *)
Lemma written_lines_read_back (o : os_name) (bodies : list str) :
  Forall (fun b : str => ~ In 10%N b /\ ~ In 13%N b) bodies ->
  file_lines
    (universal_newlines
       (List.concat
          (List.map (fun b : str => translate_newlines o (b ++ [10%N]))
                    bodies)))
  = List.map (fun b : str => b ++ [10%N]) bodies.
Proof.
  induction 1 as [|b bs [H10 H13] _ IH]; [reflexivity|].
  cbn [List.map List.concat].
  rewrite (@translate_newlines_line o b H10), <- app_assoc.
  rewrite (@universal_newlines_plain b _ H13), universal_newlines_linesep.
  rewrite (@file_lines_line b _ H10), IH. reflexivity.
Qed.

Lemma strip_line (b : str) : trimmed b -> strip (b ++ [10%N]) = b.
Proof.
  intros [Hh Hl]. unfold strip, rstrip.
  destruct b as [|c b]; [reflexivity|].
  assert (H1 : lstrip ((c :: b) ++ [10%N]) = (c :: b) ++ [10%N])
    by (apply lstrip_fixed; exact Hh).
  rewrite H1, rev_app_distr.
  change (rev [10%N] ++ rev (c :: b)) with (10%N :: rev (c :: b)).
  change (lstrip (10%N :: rev (c :: b))) with (lstrip (rev (c :: b))).
  rewrite (lstrip_fixed _ Hl). apply rev_involutive.
Qed.

End KjvLines.

Section KjvRoundTrip.
Import PyStr Exc Corpus Notions Kjv KjvNotions KjvSamples.
Local Open Scope Z_scope.
Context {U : UnicodeData} {P : PyRepr}.

Lemma digits_plain (d : str) :
  forallb ascii_isdecimal d = true ->
  ~ In 10%N d /\ ~ In 13%N d /\ encodable d = true.
Proof.
  induction d as [|c d IH]; cbn [forallb]; intros H.
  - repeat split; intros [].
  - apply andb_true_iff in H as [Hc Hd].
    destruct (IH Hd) as (H10 & H13 & He).
    destruct (ascii_digit_facts _ Hc) as (_ & N10 & N13 & Ne).
    repeat split.
    + intros [->|Hi]; [congruence | auto].
    + intros [->|Hi]; [congruence | auto].
    + unfold encodable in *. cbn [forallb]. now rewrite Ne, He.
Qed.

Lemma digits_known (d : str) :
  knows_ascii_digits U -> forallb ascii_isdecimal d = true ->
  forallb isdecimal d = true.
Proof.
  intros HU. induction d as [|c d IH]; cbn [forallb]; [reflexivity|].
  intros H. apply andb_true_iff in H as [Hc Hd].
  now rewrite (HU _ Hc), (IH Hd).
Qed.

Lemma encodable_app (a b : str) :
  encodable (a ++ b) = encodable a && encodable b.
Proof. apply forallb_app. Qed.

(** The line of a verse that can be read back, without its newline. *)
Lemma out_line_loadable (v : entry) :
  digits_sane U -> knows_ascii_digits U -> loadable v ->
  exists body,
    out_line v = body ++ [10%N]
    /\ ~ In 10%N body /\ ~ In 13%N body
    /\ trimmed body /\ body <> []
    /\ encodable (out_line v) = true
    /\ parse_line body = (reference_of v, e_text v).
Proof.
  intros HU HA ((c & n & Ec & En & Hc & Hn) & Hne & Hnorm & Henc).
  destruct (str_of_int_digits Hc) as [Nc Dc].
  destruct (str_of_int_digits Hn) as [Nn Dn].
  destruct (digits_plain _ Dc) as (C10 & C13 & Ce).
  destruct (digits_plain _ Dn) as (V10 & V13 & Ve).
  pose proof (normalize_trimmed (e_text v)) as Ht.
  pose proof (normalize_single (e_text v)) as Hs.
  rewrite Hnorm in Ht, Hs.
  destruct (single_blanks_no_break _ Hs) as [T10 T13].
  exists (lit "Proverbs " ++ str_of_int c ++ lit ":" ++ str_of_int n
          ++ lit "  " ++ e_text v).
  unfold out_line, reference_of. rewrite Ec, En. cbn [format_value].
  split; [now rewrite <- !app_assoc|].
  split.
  { rewrite !in_app_iff. intros [H|[H|[H|[H|[H|H]]]]]; try tauto;
      cbn in H; repeat (destruct H as [H|H]; [discriminate|]); exact H. }
  split.
  { rewrite !in_app_iff. intros [H|[H|[H|[H|[H|H]]]]]; try tauto;
      cbn in H; repeat (destruct H as [H|H]; [discriminate|]); exact H. }
  split.
  { split; [cbn; congruence|].
    rewrite !app_assoc, rev_app_distr.
    destruct Ht as [_ Hl].
    destruct (rev (e_text v)) as [|x r] eqn:Er.
    - apply (f_equal (@rev char)) in Er. rewrite rev_involutive in Er.
      contradiction.
    - exact Hl. }
  split; [discriminate|].
  split.
  { rewrite !encodable_app, Ce, Ve, Henc. reflexivity. }
  unfold parse_line.
  rewrite (@REF_RE_match_complete U _
             (lit "Proverbs" ++ [32%N] ++ str_of_int c ++ [58%N]
              ++ str_of_int n)
             (e_text v) HU).
  - reflexivity.
  - rewrite !in_app_iff. intros [H|[H|[H|[H|[H|H]]]]]; try tauto;
      cbn in H; repeat (destruct H as [H|H]; [discriminate|]); exact H.
  - change (lit "Proverbs " ++ str_of_int c ++ lit ":" ++ str_of_int n
            ++ lit "  " ++ e_text v)
      with ([] ++ lit "Proverbs" ++ [32%N] ++ str_of_int c ++ [58%N]
            ++ str_of_int n ++ [32%N; 32%N] ++ e_text v).
    constructor; try reflexivity; try discriminate;
      try assumption; try (now apply digits_known).
    + repeat constructor.
    + apply lstrip_fixed. apply Ht.
Qed.

Lemma write_lines_all (E : site) (lines : list str) (written : str) :
  Forall (fun l => encodable l = true) lines ->
  write_lines E lines written
  = (Done tt,
     written ++ List.concat (List.map (translate_newlines (os E)) lines)).
Proof.
  intros H. revert written.
  induction H as [|l ls Hl _ IH]; intros written; cbn [write_lines].
  - now rewrite app_nil_r.
  - rewrite Hl, IH. cbn [List.map List.concat]. now rewrite <- app_assoc.
Qed.

(** The lines of verses that can be read back. *)
Lemma loadable_lines (verses : list entry) :
  digits_sane U -> knows_ascii_digits U -> Forall loadable verses ->
  exists bodies,
    List.map out_line verses = List.map (fun b : str => b ++ [10%N]) bodies
    /\ Forall (fun b : str => ~ In 10%N b /\ ~ In 13%N b) bodies
    /\ Forall (fun b : str => trimmed b /\ b <> []) bodies
    /\ Forall (fun l => encodable l = true) (List.map out_line verses)
    /\ List.map parse_line bodies
       = List.map (fun v => (reference_of v, e_text v)) verses.
Proof.
  intros HU HA Hall.
  induction Hall as [|v vs Hv _ (bodies & E1 & E2 & E3 & E4 & E5)].
  - exists []. repeat split; constructor.
  - destruct (out_line_loadable HU HA Hv)
      as (b & Eb & B10 & B13 & Bt & Bn & Be & Bp).
    exists (b :: bodies). cbn [List.map].
    split; [now rewrite Eb, E1|].
    split; [constructor; [tauto | assumption]|].
    split; [constructor; [tauto | assumption]|].
    split; [constructor; assumption|].
    now rewrite Bp, E5.
Qed.

(** The dump of verses that can be read back is encoded. *)
Lemma loadable_dump (verses : list entry) :
  Forall loadable verses -> dump_encodable verses = true.
Proof.
  intros Hall. unfold dump_encodable. apply forallb_forall.
  intros v Hv. apply (proj1 (Forall_forall _ _) Hall) in Hv.
  destruct Hv as ((c & n & -> & -> & _) & _ & _ & ->). reflexivity.
Qed.

(** What [write_outputs] leaves when nothing fails. *)
Lemma write_outputs_writes (E : site) (verses : list entry) (s : machine) :
  cache_io E = None -> out_io E = None ->
  dump_encodable verses = true ->
  Forall (fun l => encodable l = true) (List.map out_line verses) ->
  write_outputs E verses s
  = (Done tt,
     say OkCached
       (say (OkWrote (Z.of_nat (List.length verses)))
          (set_out
             (Content
                (List.concat
                   (List.map (translate_newlines (os E))
                             (List.map out_line verses))))
             (set_cache (CacheDump verses) s)))).
Proof.
  intros Hcache Hout Hdump Henc. unfold write_outputs.
  rewrite Hcache, Hdump, Hout, (write_lines_all E _ Henc). reflexivity.
Qed.

(** The program reads such a file back, whatever its name and the
    platform it was written on. *)
Lemma written_file_loads (o : os_name) (name : str) (verses : list entry) :
  digits_sane U -> knows_ascii_digits U ->
  verses <> [] -> Forall loadable verses ->
  load_verses
    (Path name
       (Content
          (List.concat
             (List.map (translate_newlines o) (List.map out_line verses)))))
  = Ok (List.map (fun v => (reference_of v, e_text v)) verses).
Proof.
  intros HU HA Hne Hall.
  destruct (loadable_lines HU HA Hall) as (bodies & E1 & E2 & E3 & E4 & E5).
  assert (Hlines :
    file_lines
      (universal_newlines
         (List.concat
            (List.map (translate_newlines o) (List.map out_line verses))))
    = List.map (fun b : str => b ++ [10%N]) bodies).
  { rewrite E1, map_map. apply written_lines_read_back, E2. }
  assert (Hnb : nonblank_lines
                  (List.concat
                     (List.map (translate_newlines o)
                               (List.map out_line verses)))
                = List.map (fun b : str => b ++ [10%N]) bodies).
  { unfold nonblank_lines. rewrite Hlines.
    clear - E3. induction E3 as [|b bs [Ht Hn] _ IH]; [reflexivity|].
    cbn [List.map filter]. rewrite IH.
    replace (blank (b ++ [10%N])) with false; [reflexivity|].
    symmetry. destruct (blank (b ++ [10%N])) eqn:Hb; [|reflexivity].
    exfalso. apply Hn. unfold blank in Hb. apply strip_nil_iff in Hb.
    now rewrite (strip_line Ht) in Hb. }
  match goal with
  | |- load_verses (Path _ (Content ?t)) = _ =>
      rewrite (@load_verses_map U (Path name (Content t)) t eq_refl)
  end; rewrite Hnb.
  - f_equal. rewrite <- E5, map_map. clear - E3.
    induction E3 as [|b bs [Ht _] _ IH]; [reflexivity|].
    cbn [List.map]. now rewrite (strip_line Ht), IH.
  - destruct verses as [|v vs]; [contradiction|].
    destruct bodies; discriminate.
Qed.

(** X22.  The file [write_outputs] writes is the file the program
    reads.  For verses that are numbered by integers that are not
    negative, with texts that are normalised, not empty and free of
    surrogates, and files that can be written, [write_outputs] returns,
    and [load_verses] on the file written, on either platform, gives a
    record for each verse in the order given: the reference made of the
    two numbers, and the text as it was. *)
Theorem written_corpus_loads_back
    (E : site) (verses : list entry) (s : machine) :
  digits_sane U -> knows_ascii_digits U ->
  cache_io E = None -> out_io E = None ->
  verses <> [] -> Forall loadable verses ->
  exists s',
    write_outputs E verses s = (Done tt, s')
    /\ load_verses (out_path s')
       = Ok (List.map (fun v => (reference_of v, e_text v)) verses)
    /\ cache_json s' = CacheDump verses
    /\ opened s' = opened s /\ naps s' = naps s.
Proof.
  intros HU HA Hcache Hout Hne Hall.
  destruct (loadable_lines HU HA Hall) as (_ & _ & _ & _ & Henc & _).
  pose proof (loadable_dump Hall) as Hdump.
  rewrite write_outputs_writes by assumption.
  eexists. split; [reflexivity|].
  split; [|repeat split].
  unfold out_path. cbn [say set_out set_cache out_txt].
  now apply written_file_loads.
Qed.

End KjvRoundTrip.

Section KjvRoundTripSample.
Import PyStr Exc Corpus World Notions Kjv KjvNotions KjvSamples.
Local Open Scope Z_scope.

Lemma written_corpus_loads_back_witness :
  exists s',
    write_outputs (P := sample_repr) (serving steady nt) two_verses boot
    = (Done tt, s')
    /\ load_verses (U := ascii_digits) (out_path s')
       = Ok (List.map (fun v => (reference_of v, e_text v)) two_verses)
    /\ cache_json s' = CacheDump two_verses
    /\ opened s' = opened boot /\ naps s' = naps boot.
Proof.
  apply (@written_corpus_loads_back ascii_digits sample_repr
           (serving steady nt) two_verses boot).
  - exact ascii_digits_sane.
  - intros c Hc. exact Hc.
  - reflexivity.
  - reflexivity.
  - discriminate.
  - assert (H : forall c n t,
               0 <= c -> 0 <= n -> t <> [] -> normalize t = t ->
               encodable t = true -> loadable (Entry (JInt c) (JInt n) t)).
    { intros c n t Hc Hn Ht Hnorm He.
      split; [exists c, n; repeat split; assumption|].
      repeat split; assumption. }
    repeat constructor; apply H; try lia; try discriminate;
      vm_compute; reflexivity.
Defined.

End KjvRoundTripSample.

(** ** The script: [load_all_proverbs] and [main] *)

Section KjvLoad.
Import PyStr Exc Corpus World ClientNotions Kjv KjvNotions.
Local Open Scope Z_scope.
Context {J : JsonLib}.
Variable E : site.

Lemma fetch_with_backoff_trace (url : str) (max_retries : Z) (base_delay : Q)
    (s s' : machine) (r : outcome str) :
  fetch_with_backoff E url max_retries base_delay s = (r, s') ->
  exists k ns,
    opened s' = opened s ++ List.repeat url (S k)
    /\ naps s' = naps s ++ ns
    /\ List.length ns = k
    /\ Forall short_nap ns
    /\ Z.of_nat k <= Z.max 0 max_retries
    /\ cache_json s' = cache_json s /\ out_txt s' = out_txt s.
Proof.
  intros H.
  pose proof (@fetch_loop_fuel E url max_retries base_delay
                (S (Z.to_nat max_retries)) s) as Hf.
  specialize (Hf ltac:(lia)). rewrite H in Hf.
  apply fetch_loop_trace in Hf
    as (k & ns & Ho & Hn & Hl & Hs & Hk & Hc & Hout).
  rewrite Z.sub_0_r in Hk. exists k, ns. repeat split; assumption.
Qed.

Lemma polite_nap (s : machine) :
  nap (Fin (8 # 10)) s = (Done tt, log_nap (Fin (8 # 10)) s)
  /\ short_nap (Fin (8 # 10)).
Proof.
  split; [apply nap_nonnegative; discriminate|].
  exists (8 # 10)%Q. repeat split; discriminate.
Qed.

(** *** What the script keeps of an answer *)

Lemma read_verse_entry (v : json) (e : entry) :
  read_verse v = Done e -> e = entry_of v.
Proof.
  unfold read_verse, entry_of, field, get.
  destruct v as [| | | | |l|d]; try discriminate.
  destruct (Chat.dict_get d (lit "text")) as [x|].
  - destruct x as [|b|z|f|t|l|d']; cbn [json_truthy].
    + intros H; inversion H; reflexivity.
    + destruct b; [discriminate | intros H; inversion H; reflexivity].
    + destruct (negb (z =? 0)); [discriminate|].
      intros H; inversion H; reflexivity.
    + destruct f as [q| | |]; try discriminate.
      destruct (negb (Qeq_bool q 0)); [discriminate|].
      intros H; inversion H; reflexivity.
    + destruct (truthy t) eqn:Ht; intros H; inversion H; [reflexivity|].
      destruct t; [reflexivity | discriminate].
    + destruct l; [intros H; inversion H; reflexivity | discriminate].
    + destruct d'; [intros H; inversion H; reflexivity | discriminate].
  - cbn [json_truthy]. intros H; inversion H; reflexivity.
Qed.

Lemma read_verses_entries (items : list json) (acc all' : list entry) :
  read_verses items acc = Done all' ->
  all' = acc ++ List.map entry_of items.
Proof.
  revert acc. induction items as [|v items IH]; intros acc; cbn [read_verses].
  - intros H; inversion H. now rewrite app_nil_r.
  - destruct (read_verse v) as [e|r] eqn:Hv; [|discriminate].
    intros H. apply IH in H. apply read_verse_entry in Hv. subst.
    now rewrite <- app_assoc.
Qed.

Lemma read_verses_all (items : list json) (acc : list entry) :
  Forall (fun v => exists e, read_verse v = Done e) items ->
  read_verses items acc = Done (acc ++ List.map entry_of items).
Proof.
  intros H. revert acc.
  induction H as [|v items [e Hv] _ IH]; intros acc; cbn [read_verses].
  - now rewrite app_nil_r.
  - rewrite Hv, IH. apply read_verse_entry in Hv. subst.
    now rewrite <- app_assoc.
Qed.

Lemma iterate_nonempty (v : json) (items : list json) :
  json_truthy v = true -> iterate v = Done items -> items <> [].
Proof.
  destruct v as [| | | |t|l|d]; try discriminate;
    [destruct t | destruct l | destruct d]; try discriminate;
    cbn [json_truthy iterate List.map]; intros _ H; inversion H;
    discriminate.
Qed.

Lemma read_chapter_entries (ch : Z) (text : str) (acc all' : list entry) :
  read_chapter ch text acc = Done all' ->
  exists items, items <> [] /\ all' = acc ++ List.map entry_of items.
Proof.
  unfold read_chapter.
  destruct (loads_repaired text) as [data|r]; [|discriminate].
  destruct (get data (lit "verses") (JList [])) as [verses|r]; [|discriminate].
  destruct (json_truthy verses) eqn:Ht; [|discriminate]. cbn [negb].
  destruct (iterate verses) as [items|r] eqn:Hi; [|discriminate].
  intros H. exists items. split; [exact (iterate_nonempty _ Ht Hi)|].
  now apply read_verses_entries.
Qed.

(** *** The trace of the loop *)

Lemma chapter_body_trace (ch : Z) (acc : list entry) (s s' : machine)
    (r : outcome (list entry)) :
  chapter_body E ch acc s = (r, s') ->
  exists k ns,
    (1 <= k <= 9)%nat
    /\ opened s' = opened s ++ List.repeat (API ch) k
    /\ naps s' = naps s ++ ns
    /\ (List.length ns <= k)%nat
    /\ Forall short_nap ns
    /\ cache_json s' = cache_json s /\ out_txt s' = out_txt s.
Proof.
  unfold chapter_body.
  destruct (fetch_with_backoff E (API ch) default_max_retries
              default_base_delay (say (InfoFetching (API ch)) s))
    as [[text|x] s2] eqn:Hf;
    apply fetch_with_backoff_trace in Hf
      as (k & ns & Ho & Hn & Hl & Hs & Hk & Hc & Hout);
    cbn [say opened naps cache_json out_txt] in *;
    unfold default_max_retries in Hk.
  - destruct (read_chapter ch text acc) as [all'|x].
    + destruct (polite_nap s2) as [-> Hp].
      intros H; injection H as <- <-.
      exists (S k), (ns ++ [Fin (8 # 10)]).
      cbn [log_nap opened naps cache_json out_txt].
      rewrite Ho, Hn, Hc, Hout, <- app_assoc, length_app.
      repeat split; try lia; [cbn; lia|].
      apply Forall_app. split; [exact Hs | now constructor].
    + intros H; injection H as <- <-. exists (S k), ns.
      repeat split; try assumption; lia.
  - intros H; injection H as <- <-. exists (S k), ns.
    repeat split; try assumption; lia.
Qed.

Lemma chapters_loop_trace (chs : list Z) (acc : list entry) (s s' : machine)
    (r : outcome (list entry)) :
  chapters_loop E chs acc s = (r, s') ->
  exists ks ns,
    (List.length ks <= List.length chs)%nat
    /\ (forall vs, r = Done vs -> List.length ks = List.length chs)
    /\ Forall (fun k => 1 <= k <= 9)%nat ks
    /\ opened s' = opened s ++ blocks (List.map API chs) ks
    /\ naps s' = naps s ++ ns
    /\ (List.length ns <= list_sum ks)%nat
    /\ Forall short_nap ns
    /\ cache_json s' = cache_json s /\ out_txt s' = out_txt s.
Proof.
  revert acc s. induction chs as [|ch chs IH]; intros acc s;
    cbn [chapters_loop].
  - intros H; injection H as <- <-. exists [], [].
    rewrite !app_nil_r. repeat split; try constructor.
  - destruct (chapter_body E ch acc s) as [[all'|x] s1] eqn:Hb;
      apply chapter_body_trace in Hb
        as (k & ns & Hk & Ho & Hn & Hl & Hs & Hc & Hout).
    + intros H. apply IH in H
        as (ks & ns' & L1 & L2 & Fk & Ho' & Hn' & Hl' & Hs' & Hc' & Hout').
      exists (k :: ks), (ns ++ ns'). cbn [List.length List.map blocks list_sum].
      rewrite Ho', Ho, Hn', Hn, Hc', Hc, Hout', Hout, <- !app_assoc,
        length_app.
      split; [lia|]. split; [intros vs Hvs; rewrite (L2 vs Hvs); reflexivity|].
      split; [now constructor|]. split; [reflexivity|].
      split; [reflexivity|].
      split; [unfold list_sum in *; cbn [fold_right]; lia|].
      split; [now apply Forall_app|]. split; reflexivity.
    + intros H; injection H as <- <-. exists [k], ns.
      cbn [List.length List.map blocks list_sum].
      destruct (List.map API chs); cbn [blocks]; rewrite app_nil_r;
        (split; [lia|]; split; [discriminate|];
         split; [constructor; [lia | constructor]|]; split; [assumption|];
         split; [assumption|];
         split; [unfold list_sum; cbn [fold_right]; lia|];
         repeat split; assumption).
Qed.

(** What the loop has gathered when it ends. *)
Lemma chapters_loop_entries (chs : list Z) (acc vs : list entry)
    (s s' : machine) :
  chapters_loop E chs acc s = (Done vs, s') ->
  exists added,
    vs = acc ++ added
    /\ (List.length chs <= List.length added)%nat
    /\ Forall (fun v => normalize (e_text v) = e_text v) added.
Proof.
  revert acc s. induction chs as [|ch chs IH]; intros acc s;
    cbn [chapters_loop].
  - intros H; inversion H; subst. exists []. rewrite app_nil_r.
    repeat split; [cbn; lia | constructor].
  - destruct (chapter_body E ch acc s) as [[all'|x] s1] eqn:Hb;
      [|discriminate].
    intros H. apply IH in H as (added & -> & Hl & Hn).
    unfold chapter_body in Hb.
    destruct (fetch_with_backoff E (API ch) default_max_retries
                default_base_delay (say (InfoFetching (API ch)) s))
      as [[text|x] s2]; [|discriminate].
    destruct (read_chapter ch text acc) as [all''|x] eqn:Hr; [|discriminate].
    destruct (polite_nap s2) as [Hp _]. rewrite Hp in Hb.
    inversion Hb; subst.
    apply read_chapter_entries in Hr as (items & Hi & ->).
    exists (List.map entry_of items ++ added). rewrite <- app_assoc.
    split; [reflexivity|]. split.
    + rewrite length_app, length_map. destruct items; [contradiction|].
      cbn [List.length]. lia.
    + apply Forall_app. split; [|exact Hn].
      apply Forall_forall. intros e He. apply in_map_iff in He as (v & <- & _).
      unfold entry_of. cbn [e_text].
      destruct (field v (lit "text")); try reflexivity.
      apply verse_text_fixed.
Qed.

End KjvLoad.

Section KjvServed.
Import PyStr Exc Corpus World ClientNotions Kjv KjvNotions.
Local Open Scope Z_scope.
Context {J : JsonLib}.
Variable E : site.
Variable served : Z -> list json.

(** A chapter the service answers in order. *)
Lemma chapter_body_served (ch : Z) (acc : list entry) (s : machine) :
  served ch <> [] ->
  Forall (fun v => exists e, read_verse v = Done e) (served ch) ->
  (forall n, exists text d,
      fetch_once E n (API ch) = Done text
      /\ loads_repaired text = Done (JDict d)
      /\ Chat.dict_get d (lit "verses") = Some (JList (served ch))) ->
  chapter_body E ch acc s
  = (Done (acc ++ List.map entry_of (served ch)),
     log_nap (Fin (8 # 10))
             (log_open (API ch) (say (InfoFetching (API ch)) s))).
Proof.
  intros Hne Hall Hnet. unfold chapter_body.
  destruct (Hnet (List.length (opened (say (InfoFetching (API ch)) s))))
    as (text & d & Hf & Hl & Hd).
  pose proof (@fetch_loop_fuel E (API ch) default_max_retries
                default_base_delay (S (Z.to_nat default_max_retries))
                (say (InfoFetching (API ch)) s)) as Hfuel.
  specialize (Hfuel ltac:(lia)). cbn [fetch_loop] in Hfuel.
  rewrite Hf in Hfuel. injection Hfuel as <-.
  unfold read_chapter. rewrite Hl. cbn [get]. rewrite Hd.
  destruct (served ch) as [|v vs] eqn:Es; [contradiction|].
  cbn [json_truthy negb iterate].
  rewrite (read_verses_all _ Hall).
  destruct (polite_nap (log_open (API ch) (say (InfoFetching (API ch)) s)))
    as [-> _].
  reflexivity.
Qed.

Lemma chapters_loop_served (chs : list Z) (acc : list entry) (s : machine) :
  (forall ch, In ch chs ->
     served ch <> []
     /\ Forall (fun v => exists e, read_verse v = Done e) (served ch)
     /\ forall n, exists text d,
          fetch_once E n (API ch) = Done text
          /\ loads_repaired text = Done (JDict d)
          /\ Chat.dict_get d (lit "verses") = Some (JList (served ch))) ->
  exists s',
    chapters_loop E chs acc s
    = (Done (acc ++ flat_map (fun ch => List.map entry_of (served ch)) chs),
       s')
    /\ opened s' = opened s ++ List.map API chs
    /\ naps s' = naps s ++ List.repeat (Fin (8 # 10)) (List.length chs)
    /\ notes s'
       = notes s ++ List.map (fun ch => InfoFetching (API ch)) chs
    /\ cache_json s' = cache_json s /\ out_txt s' = out_txt s.
Proof.
  revert acc s. induction chs as [|ch chs IH]; intros acc s Hall;
    cbn [chapters_loop].
  - exists s. rewrite !app_nil_r. repeat split.
  - destruct (Hall ch (or_introl eq_refl)) as (Hne & Hrd & Hnet).
    rewrite (chapter_body_served acc s Hne Hrd Hnet).
    destruct (IH (acc ++ List.map entry_of (served ch))
                 (log_nap (Fin (8 # 10))
                    (log_open (API ch) (say (InfoFetching (API ch)) s))))
      as (s' & Hrun & Ho & Hn & Hnotes & Hc & Hout).
    { intros ch' Hin. apply Hall. now right. }
    exists s'. rewrite Hrun, Ho, Hn, Hnotes, Hc, Hout.
    cbn [log_nap log_open say opened naps notes cache_json out_txt
         flat_map List.map List.length List.repeat].
    rewrite <- !app_assoc. repeat split.
Qed.

End KjvServed.

Section KjvScriptFacts.
Import PyStr Exc Corpus World ClientNotions Kjv KjvNotions KjvSamples.
Local Open Scope Z_scope.

Lemma length_blocks_le (models : list str) (ks : list nat) :
  (List.length (blocks models ks) <= list_sum ks)%nat.
Proof.
  revert ks; induction models as [|m ms IH]; intros [|k ks];
    cbn [blocks List.length]; try lia.
  rewrite length_app, repeat_length. specialize (IH ks).
  unfold list_sum in *. cbn [fold_right]. lia.
Qed.

Lemma last_note_say (n : note) (s : machine) : last_note (say n s) = Some n.
Proof. unfold last_note. cbn [say notes]. now rewrite rev_app_distr. Qed.

Lemma sample_service_in_order :
  in_order (J := sample_json) (serving steady posix) sample_served.
Proof.
  intros ch _. split; [discriminate|]. split.
  - repeat constructor. eexists. reflexivity.
  - intros n. exists chapter_text. eexists. split; [reflexivity|].
    split; reflexivity.
Qed.

Lemma sample_service_loadable (ch : Z) :
  Forall (fun v => loadable (entry_of v)) (sample_served ch).
Proof.
  constructor; [|constructor].
  split; [exists 1, 7; split; [reflexivity|]; split; [reflexivity|]; lia|].
  split; [vm_compute; discriminate|].
  split; vm_compute; reflexivity.
Qed.

End KjvScriptFacts.

Section KjvScriptProperties.
Import PyStr Exc Corpus World ClientNotions Kjv KjvNotions KjvSamples.
Local Open Scope Z_scope.

(** X23.  Whatever the network does, [load_all_proverbs] asks for the
    chapters in their order and for nothing else, each between one and
    nine times and none after a chapter that failed, so it opens at
    most 279 connections; every delay it sleeps is between 0 and 30
    seconds; and it touches neither file. *)
Theorem load_all_proverbs_is_bounded (J : JsonLib) (E : site) (s : machine) :
  let s' := snd (load_all_proverbs E s) in
  exists ks ns,
    (List.length ks <= 31)%nat
    /\ Forall (fun k => 1 <= k <= 9)%nat ks
    /\ opened s' = opened s ++ blocks (List.map API chapters) ks
    /\ (List.length (blocks (List.map API chapters) ks) <= 279)%nat
    /\ naps s' = naps s ++ ns
    /\ (List.length ns <= 279)%nat
    /\ Forall short_nap ns
    /\ cache_json s' = cache_json s /\ out_txt s' = out_txt s.
Proof.
  intros s'. subst s'.
  destruct (load_all_proverbs E s) as [r s'] eqn:Hl. cbn [snd].
  unfold load_all_proverbs in Hl. fold chapters in Hl.
  apply chapters_loop_trace in Hl
    as (ks & ns & L1 & _ & Fk & Ho & Hn & Hl & Hs & Hc & Hout).
  change (List.length chapters) with 31%nat in L1.
  assert (Hsum : (list_sum ks <= 279)%nat).
  { assert (Hb : Forall (fun k => (k <= 9)%nat) ks)
      by (eapply Forall_impl; [|exact Fk]; cbn; intros; lia).
    apply list_sum_bound in Hb. lia. }
  exists ks, ns.
  split; [exact L1|]. split; [exact Fk|]. split; [exact Ho|].
  split; [pose proof (length_blocks_le (List.map API chapters) ks); lia|].
  split; [exact Hn|]. split; [lia|]. repeat split; assumption.
Qed.

(** X24.  What [load_all_proverbs] returns, when it returns: all 31
    chapters were fetched, in their order; the list holds one verse per
    chapter at least, so 31 or more; and the text of every verse is
    normalised. *)
Theorem load_all_proverbs_result
    (J : JsonLib) (E : site) (s s' : machine) (vs : list entry) :
  load_all_proverbs E s = (Done vs, s') ->
  (31 <= List.length vs)%nat
  /\ Forall (fun v => normalize (e_text v) = e_text v) vs
  /\ exists ks,
       List.length ks = 31%nat
       /\ Forall (fun k => 1 <= k <= 9)%nat ks
       /\ opened s' = opened s ++ blocks (List.map API chapters) ks.
Proof.
  intros Hl. unfold load_all_proverbs in Hl. fold chapters in Hl.
  destruct (chapters_loop_entries _ _ _ _ Hl) as (added & -> & Hlen & Hn).
  apply chapters_loop_trace in Hl
    as (ks & ns & _ & L2 & Fk & Ho & _).
  cbn [app]. split; [exact Hlen|]. split; [exact Hn|].
  exists ks. split; [exact (L2 _ eq_refl)|]. split; assumption.
Qed.

Lemma load_all_proverbs_result_witness :
  exists vs s',
    load_all_proverbs (J := sample_json) (serving steady posix) boot
    = (Done vs, s')
    /\ (31 <= List.length vs)%nat
    /\ Forall (fun v => normalize (e_text v) = e_text v) vs
    /\ exists ks,
         List.length ks = 31%nat
         /\ Forall (fun k => 1 <= k <= 9)%nat ks
         /\ opened s' = opened boot ++ blocks (List.map API chapters) ks.
Proof.
  destruct (load_all_proverbs (J := sample_json) (serving steady posix) boot)
    as [[vs|x] s'] eqn:Hl.
  - exists vs, s'. split; [reflexivity|].
    exact (@load_all_proverbs_result sample_json (serving steady posix)
             boot s' vs Hl).
  - vm_compute in Hl. discriminate.
Defined.

(** X25.  With a service in order, [load_all_proverbs] returns the
    verses of all chapters in the order of the chapters and of the
    service, each with its chapter and verse as sent and its text
    normalised; it opens each address once, in order, announces each,
    and sleeps 0.8 seconds after each chapter and never else. *)
Theorem load_all_proverbs_in_order
    (J : JsonLib) (E : site) (served : Z -> list json) (s : machine) :
  in_order E served ->
  exists s',
    load_all_proverbs E s = (Done (all_entries served), s')
    /\ opened s' = opened s ++ List.map API chapters
    /\ naps s' = naps s ++ List.repeat (Fin (8 # 10)) 31
    /\ notes s'
       = notes s ++ List.map (fun ch => InfoFetching (API ch)) chapters
    /\ cache_json s' = cache_json s /\ out_txt s' = out_txt s.
Proof.
  intros Hord. unfold load_all_proverbs, all_entries. fold chapters.
  destruct (@chapters_loop_served J E served chapters [] s Hord)
    as (s' & Hrun & Htrace).
  exists s'. split; [exact Hrun | exact Htrace].
Qed.

Lemma load_all_proverbs_in_order_witness :
  exists s',
    load_all_proverbs (J := sample_json) (serving steady posix) boot
    = (Done (all_entries sample_served), s')
    /\ opened s' = opened boot ++ List.map API chapters
    /\ naps s' = naps boot ++ List.repeat (Fin (8 # 10)) 31
    /\ notes s'
       = notes boot ++ List.map (fun ch => InfoFetching (API ch)) chapters
    /\ cache_json s' = cache_json boot /\ out_txt s' = out_txt boot.
Proof.
  apply (@load_all_proverbs_in_order sample_json (serving steady posix)
           sample_served boot).
  exact sample_service_in_order.
Defined.


(** X27.  The script and the program fit.  With a service in order
    whose verses are numbered by integers that are not negative and
    have texts that are not blank and hold no surrogate, and files that
    can be written, [main] of the script returns with the word that it
    is done, and [load_verses] of the program reads from the file
    written one record for each verse of the 31 chapters, in order:
    the reference made of the two numbers, and the text normalised. *)
Theorem script_output_is_loadable
    (U : UnicodeData) (J : JsonLib) (P : PyRepr) (E : site)
    (served : Z -> list json) (s : machine) :
  digits_sane U -> knows_ascii_digits U ->
  in_order E served ->
  (forall ch, In ch chapters ->
     Forall (fun v => loadable (entry_of v)) (served ch)) ->
  cache_io E = None -> out_io E = None ->
  exists s',
    main E s = (None, s')
    /\ last_note s' = Some NoteDone
    /\ load_verses (out_path s')
       = Ok (List.map (fun v => (reference_of v, e_text v))
                      (all_entries served))
    /\ (31 <= List.length (all_entries served))%nat.
Proof.
  intros HU HA Hord Hload Hcache Hout.
  destruct (@chapters_loop_served J E served chapters [] s Hord)
    as (s1 & Hl & _).
  change (chapters_loop E chapters [] s) with (load_all_proverbs E s) in Hl.
  change (flat_map (fun ch => List.map entry_of (served ch)) chapters)
    with (all_entries served) in Hl. cbn [app] in Hl.
  assert (Hall : Forall loadable (all_entries served)).
  { apply Forall_forall. intros e He. unfold all_entries in He.
    apply in_flat_map in He as (ch & Hch & He).
    apply in_map_iff in He as (v & <- & Hv).
    exact (proj1 (Forall_forall _ _) (Hload ch Hch) v Hv). }
  assert (Hlen : (31 <= List.length (all_entries served))%nat).
  { pose proof Hl as Ht. unfold load_all_proverbs in Ht.
    apply chapters_loop_entries in Ht as (added & Ea & Hlen & _).
    cbn [app] in Ea. rewrite Ea. exact Hlen. }
  assert (Hne : all_entries served <> []).
  { intros C. rewrite C in Hlen. cbn in Hlen. lia. }
  destruct (loadable_lines HU HA Hall) as (_ & _ & _ & _ & Henc & _).
  pose proof (loadable_dump Hall) as Hdump.
  eexists. unfold main.
  rewrite Hl, write_outputs_writes by assumption.
  split; [reflexivity|]. split; [apply last_note_say|].
  split; [|exact Hlen].
  unfold out_path. cbn [say set_out set_cache out_txt].
  now apply written_file_loads.
Qed.

Lemma script_output_is_loadable_witness :
  exists s',
    main (J := sample_json) (P := sample_repr) (serving steady nt) boot
    = (None, s')
    /\ last_note s' = Some NoteDone
    /\ load_verses (U := ascii_digits) (out_path s')
       = Ok (List.map (fun v => (reference_of v, e_text v))
                      (all_entries sample_served))
    /\ (31 <= List.length (all_entries sample_served))%nat.
Proof.
  apply (@script_output_is_loadable ascii_digits sample_json sample_repr
           (serving steady nt) sample_served boot).
  - exact ascii_digits_sane.
  - intros c Hc. exact Hc.
  - intros ch Hch. exact (@sample_service_in_order ch Hch).
  - intros ch _. apply sample_service_loadable.
  - reflexivity.
  - reflexivity.
Defined.

End KjvScriptProperties.
